(** * prettybench: a shallow embedding and its verified properties

    The development follows [prettybench.go] (package main) and the
    benchmark-line parser it calls (package bench, [ParseLine] and
    [parseMeasurement]).  Go strings are byte strings ([string], one
    [ascii] per byte), [int] and [uint64] values are [Z], [float64] is
    the IEEE 754 binary64 format of [SpecFloat], slices are lists, and a
    run-time panic is the [Panic] case of [result].

    Part 1 models the pieces of the Go standard library that the
    program calls, Part 2 is the program and the two earlier revisions
    of it that the repository keeps, Part 3 defines what the statements
    speak of, and Part 4 holds the lemmas and the theorems;
    the theorems named [C1_...] to [C10_...] settle the claims C1 to C10
    of the specification, and those named [X1_...] onwards are further
    properties of the code. *)

From Stdlib Require Import String Ascii List ZArith Lia Bool.
From Stdlib Require Import Floats.SpecFloat.
From Stdlib Require Import Numbers.DecimalString.
From Stdlib Require Numbers.DecimalNat Numbers.DecimalPos.
Import ListNotations.
Local Open Scope list_scope.
Local Open Scope string_scope.

(* ================================================================== *)
(** * Part 1: the Go run time the program relies on                    *)
(* ================================================================== *)

(** ** Panics *)

(** The only run-time error the program can raise is an index out of
    range; Go reports it as
    [runtime error: index out of range [index] with length len]. *)
Inductive runtimeError : Type :=
| IndexOutOfRange (index len : nat).

Inductive result (A : Type) : Type :=
| Ok (a : A)
| Panic (e : runtimeError).

Arguments Ok {A} a.
Arguments Panic {A} e.

Definition bind {A B : Type} (m : result A) (k : A -> result B) : result B :=
  match m with
  | Ok a => k a
  | Panic e => Panic e
  end.

Notation "x <- m ;; k" := (bind m (fun x => k))
  (at level 61, m at next level, right associativity).

(** [l[i]] on a slice. *)
Definition index {A : Type} (l : list A) (i : nat) : result A :=
  match nth_error l i with
  | Some a => Ok a
  | None => Panic (IndexOutOfRange i (List.length l))
  end.

(** ** Bytes *)

Definition code (c : ascii) : Z := Z.of_N (N_of_ascii c).

Definition tab : ascii := "009"%char.
Definition newline : ascii := "010"%char.

Definition isDigit (c : ascii) : bool :=
  (48 <=? code c)%Z && (code c <=? 57)%Z.

Definition digitVal (c : ascii) : Z := (code c - 48)%Z.

Fixpoint drop (n : nat) (s : string) : string :=
  match n, s with
  | O, _ => s
  | S n', String _ t => drop n' t
  | S _, EmptyString => EmptyString
  end.

Fixpoint take (n : nat) (s : string) : string :=
  match n, s with
  | O, _ => EmptyString
  | S n', String c t => String c (take n' t)
  | S _, EmptyString => EmptyString
  end.

(** ** float64 *)

Definition float64 : Type := spec_float.

Definition prec64 : Z := 53.
Definition emax64 : Z := 1024.

(** The conversion [float64(n)] of an integer, rounding to nearest even. *)
Definition float64_of_Z (n : Z) : float64 := binary_normalize prec64 emax64 n 0 false.

(** [x / y] on float64. *)
Definition fdiv (x y : float64) : float64 := SFdiv prec64 emax64 x y.

(** [x < y] on float64: false as soon as one side is NaN. *)
Definition flt (x y : float64) : bool := SFltb x y.

(** [x <= y] on float64. *)
Definition fle (x y : float64) : bool := SFleb x y.

Definition fzero : float64 := S754_zero false.

(** [x + y] and [x * y] on float64. *)
Definition fadd (x y : float64) : float64 := SFadd prec64 emax64 x y.

Definition fmul (x y : float64) : float64 := SFmul prec64 emax64 x y.

(** ** Package time: durations are int64 nanosecond counts *)

Module time.
Definition Nanosecond : Z := 1.
Definition Microsecond : Z := 1000 * Nanosecond.
Definition Millisecond : Z := 1000 * Microsecond.
Definition Second : Z := 1000 * Millisecond.
End time.

(** ** Package unicode/utf8 *)

Module utf8.

Definition RuneError : Z := 65533.
Definition RuneSelf : Z := 128.

Definition locb : Z := 128.
Definition hicb : Z := 191.
Definition maskx : Z := 63.
Definition mask2 : Z := 31.
Definition mask3 : Z := 15.
Definition mask4 : Z := 7.

(** The table [first] for a leading byte that is not ASCII: [None] for
    an invalid leading byte (0x80..0xC1, 0xF5..0xFF), otherwise the
    length of the encoding and the range accepted for the second byte. *)
Definition first (s0 : Z) : option (nat * (Z * Z)) :=
  if (s0 <? 194)%Z then None
  else if (s0 <? 224)%Z then Some (2, (locb, hicb))
  else if (s0 =? 224)%Z then Some (3, (160, hicb)%Z)
  else if (s0 =? 237)%Z then Some (3, (locb, 159)%Z)
  else if (s0 <? 240)%Z then Some (3, (locb, hicb))
  else if (s0 =? 240)%Z then Some (4, (144, hicb)%Z)
  else if (s0 <? 244)%Z then Some (4, (locb, hicb))
  else if (s0 =? 244)%Z then Some (4, (locb, 143)%Z)
  else None.

(** [utf8.DecodeRuneInString]: the first rune of [s] and its width in
    bytes; an invalid encoding is [RuneError] of width 1. *)
Definition DecodeRuneInString (s : string) : Z * nat :=
  match s with
  | EmptyString => (RuneError, 0)
  | String c0 t0 =>
    let s0 := code c0 in
    if (s0 <? RuneSelf)%Z then (s0, 1)
    else
      match first s0 with
      | None => (RuneError, 1)
      | Some (sz, (lo, hi)) =>
        if Nat.ltb (String.length s) sz then (RuneError, 1)
        else
          match t0 with
          | EmptyString => (RuneError, 1)
          | String c1 t1 =>
            let s1 := code c1 in
            if ((s1 <? lo) || (hi <? s1))%Z then (RuneError, 1)
            else if Nat.leb sz 2 then
              (Z.lor (Z.shiftl (Z.land s0 mask2) 6) (Z.land s1 maskx), 2)
            else
              match t1 with
              | EmptyString => (RuneError, 1)
              | String c2 t2 =>
                let s2 := code c2 in
                if ((s2 <? locb) || (hicb <? s2))%Z then (RuneError, 1)
                else if Nat.leb sz 3 then
                  (Z.lor (Z.lor (Z.shiftl (Z.land s0 mask3) 12)
                                (Z.shiftl (Z.land s1 maskx) 6))
                         (Z.land s2 maskx), 3)
                else
                  match t2 with
                  | EmptyString => (RuneError, 1)
                  | String c3 _ =>
                    let s3 := code c3 in
                    if ((s3 <? locb) || (hicb <? s3))%Z then (RuneError, 1)
                    else
                      (Z.lor (Z.lor (Z.lor (Z.shiftl (Z.land s0 mask4) 18)
                                           (Z.shiftl (Z.land s1 maskx) 12))
                                    (Z.shiftl (Z.land s2 maskx) 6))
                             (Z.land s3 maskx), 4)
                  end
              end
          end
      end
  end.

(** The runes a [for _, r := range s] loop visits, each with the bytes
    that encode it.  One unit of fuel is spent per rune; a string of [n]
    bytes holds at most [n] runes. *)
Fixpoint rangeLoop (fuel : nat) (s : string) : list (Z * string) :=
  match fuel with
  | O => []
  | S fuel' =>
    match s with
    | EmptyString => []
    | String _ _ =>
      let '(r, size) := DecodeRuneInString s in
      (r, take size s) :: rangeLoop fuel' (drop size s)
    end
  end.

Definition runes (s : string) : list (Z * string) :=
  rangeLoop (String.length s) s.

Definition RuneCountInString (s : string) : nat := List.length (runes s).

Definition UTFMax : Z := 4.

(** [s[i]], 0 past the end (the callers stay within the text). *)
Definition byteAt (s : string) (i : nat) : Z :=
  match String.get i s with
  | Some c => code c
  | None => 0%Z
  end.

(** [utf8.RuneStart]: the byte is not a continuation byte. *)
Definition RuneStart (b : Z) : bool := negb (Z.land b 192 =? 128)%Z.

(** The loop [for start--; start >= lim; start--] of
    [DecodeLastRuneInString], entered with [start] already decremented;
    it looks at three bytes at most. *)
Fixpoint scanBack (fuel : nat) (s : string) (lim start : Z) : Z :=
  match fuel with
  | O => start
  | S fuel' =>
    if (start <? lim)%Z then start
    else if RuneStart (byteAt s (Z.to_nat start)) then start
    else scanBack fuel' s lim (start - 1)%Z
  end.

(** [utf8.DecodeLastRuneInString]: the last rune of [s] and its width
    in bytes. *)
Definition DecodeLastRuneInString (s : string) : Z * nat :=
  let stop := Z.of_nat (String.length s) in
  if (stop =? 0)%Z then (RuneError, 0)
  else
    let start := (stop - 1)%Z in
    let r := byteAt s (Z.to_nat start) in
    if (r <? RuneSelf)%Z then (r, 1)
    else
      let lim := (stop - UTFMax)%Z in
      let lim := if (lim <? 0)%Z then 0%Z else lim in
      let start := scanBack 4 s lim (start - 1)%Z in
      let start := if (start <? 0)%Z then 0%Z else start in
      let '(r, size) := DecodeRuneInString (drop (Z.to_nat start) s) in
      if negb (start + Z.of_nat size =? stop)%Z then (RuneError, 1)
      else (r, size).

End utf8.

(** ** Package unicode *)

Module unicode.

Definition MaxLatin1 : Z := 255.

(** [unicode.IsSpace]: the Latin-1 spaces, then the White_Space table. *)
Definition IsSpace (r : Z) : bool :=
  if (r <=? MaxLatin1)%Z then
    (r =? 9)%Z || (r =? 10)%Z || (r =? 11)%Z || (r =? 12)%Z || (r =? 13)%Z
    || (r =? 32)%Z || (r =? 133)%Z || (r =? 160)%Z
  else
    (r =? 5760)%Z || ((8192 <=? r)%Z && (r <=? 8202)%Z)
    || (r =? 8232)%Z || (r =? 8233)%Z || (r =? 8239)%Z
    || (r =? 8287)%Z || (r =? 12288)%Z.

End unicode.

(** ** Package strings *)

Module strings.

Definition HasPrefix (s pre : string) : bool := String.prefix pre s.

Fixpoint Repeat (s : string) (count : nat) : string :=
  match count with
  | O => EmptyString
  | S n => s ++ Repeat s n
  end.

(** [strings.Split(s, sep)] for a separator of one byte, which is the
    only way the program calls it. *)
Fixpoint Split (s : string) (sep : ascii) : list string :=
  match s with
  | EmptyString => [EmptyString]
  | String c t =>
    if Ascii.eqb c sep then EmptyString :: Split t sep
    else
      match Split t sep with
      | f :: fs => String c f :: fs
      | [] => [String c EmptyString]
      end
  end.

(** [strings.FieldsFunc]: [start] is the field being read, if any. *)
Fixpoint fieldsLoop (f : Z -> bool) (rs : list (Z * string)) (start : option string)
  : list string :=
  match rs with
  | [] =>
    match start with
    | Some field => [field]
    | None => []
    end
  | (r, bytes) :: rs' =>
    if f r then
      match start with
      | Some field => field :: fieldsLoop f rs' None
      | None => fieldsLoop f rs' None
      end
    else
      match start with
      | Some field => fieldsLoop f rs' (Some (field ++ bytes))
      | None => fieldsLoop f rs' (Some bytes)
      end
  end.

Definition FieldsFunc (s : string) (f : Z -> bool) : list string :=
  fieldsLoop f (utf8.runes s) None.

(** [strings.Fields]: split around runs of white space.  (The ASCII fast
    path of the library computes the same fields.) *)
Definition Fields (s : string) : list string := FieldsFunc s unicode.IsSpace.

(** [strings.TrimLeftFunc]: the text from its first rune that does not
    satisfy [f]. *)
Fixpoint trimLeftLoop (f : Z -> bool) (rs : list (Z * string)) (s : string) : string :=
  match rs with
  | [] => EmptyString
  | (r, bytes) :: rs' =>
    if f r then trimLeftLoop f rs' (drop (String.length bytes) s) else s
  end.

Definition TrimLeftFunc (s : string) (f : Z -> bool) : string :=
  trimLeftLoop f (utf8.runes s) s.

(** The loop of [lastIndexFunc] for [truth == false], from the end of
    [s[0:i]]: the index of the last rune that does not satisfy [f]; one
    unit of fuel is spent per rune. *)
Fixpoint lastIndexLoop (f : Z -> bool) (fuel : nat) (s : string) (i : nat) : option nat :=
  match fuel with
  | O => None
  | S fuel' =>
    if Nat.eqb i 0 then None
    else
      let '(r, size) := utf8.DecodeLastRuneInString (take i s) in
      let i := i - size in
      if negb (f r) then Some i else lastIndexLoop f fuel' s i
  end.

(** [strings.TrimRightFunc] *)
Definition TrimRightFunc (s : string) (f : Z -> bool) : string :=
  match lastIndexLoop f (String.length s) s (String.length s) with
  | Some i =>
    if (utf8.RuneSelf <=? utf8.byteAt s i)%Z
    then take (i + snd (utf8.DecodeRuneInString (drop i s))) s
    else take (i + 1) s
  | None => EmptyString
  end.

Definition TrimFunc (s : string) (f : Z -> bool) : string :=
  TrimRightFunc (TrimLeftFunc s f) f.

(** The table [asciiSpace]. *)
Definition asciiSpace (c : Z) : bool :=
  ((c =? 9) || (c =? 10) || (c =? 11) || (c =? 12) || (c =? 13) || (c =? 32))%Z.

(** The first loop of [TrimSpace]: what is left of the text from
    [start] on, and whether the loop stopped at a byte that is not
    ASCII. *)
Fixpoint trimSpaceStart (s : string) : string * bool :=
  match s with
  | EmptyString => (EmptyString, false)
  | String c t =>
    if (utf8.RuneSelf <=? code c)%Z then (s, true)
    else if asciiSpace (code c) then trimSpaceStart t
    else (s, false)
  end.

(** Its second loop, on [s[start:]], [stop] counted from [start]. *)
Fixpoint trimSpaceStop (fuel : nat) (s : string) (stop : nat) : string :=
  match fuel with
  | O => take stop s
  | S fuel' =>
    if Nat.eqb stop 0 then take stop s
    else
      let c := utf8.byteAt s (stop - 1) in
      if (utf8.RuneSelf <=? c)%Z then TrimRightFunc (take stop s) unicode.IsSpace
      else if asciiSpace c then trimSpaceStop fuel' s (stop - 1)
      else take stop s
  end.

(** [strings.TrimSpace]: the text without the white space at its two
    ends. *)
Definition TrimSpace (s : string) : string :=
  let '(rest, notASCII) := trimSpaceStart s in
  if notASCII then TrimFunc rest unicode.IsSpace
  else trimSpaceStop (String.length rest) rest (String.length rest).

End strings.

(** ** Package strconv *)

Module strconv.

(** The value of a run of decimal digits, [None] at the first byte that
    is not a digit. *)
Fixpoint parseDigits (s : string) (acc : Z) : option Z :=
  match s with
  | EmptyString => Some acc
  | String c t =>
    if isDigit c then parseDigits t (acc * 10 + digitVal c)%Z else None
  end.

(** [strconv.ParseUint(s, 10, 64)]; [None] stands for [err != nil]
    (a syntax error or a value out of range). *)
Definition ParseUint (s : string) : option Z :=
  match s with
  | EmptyString => None
  | String _ _ =>
    match parseDigits s 0 with
    | Some n => if (n <? 2 ^ 64)%Z then Some n else None
    | None => None
    end
  end.

(** [strconv.Atoi] on a 64-bit platform: an optional sign, then decimal
    digits, the value within the range of [int]. *)
Definition Atoi (s : string) : option Z :=
  let '(neg, digits) :=
    match s with
    | String "-"%char t => (true, t)
    | String "+"%char t => (false, t)
    | _ => (false, s)
    end in
  match digits with
  | EmptyString => None
  | String _ _ =>
    match parseDigits digits 0 with
    | Some n =>
      let v := if neg then (- n)%Z else n in
      if ((- 2 ^ 63 <=? v) && (v <=? 2 ^ 63 - 1))%Z then Some v else None
    | None => None
    end
  end.

(** [strconv.FormatInt(i, 10)]. *)
Definition FormatInt (i : Z) : string := NilEmpty.string_of_int (Z.to_int i).

(** The nearest integer to [num / den], ties to even ([0 <= num], [0 < den]). *)
Definition roundHalfEven (num den : Z) : Z :=
  let q := (num / den)%Z in
  let r := (num mod den)%Z in
  if (2 * r <? den)%Z then q
  else if (den <? 2 * r)%Z then (q + 1)%Z
  else if Z.even q then q else (q + 1)%Z.

(** [strconv.FormatFloat(x, 'f', prec, 64)]: the exact decimal value of
    [x] rounded to [prec] fraction digits, ties to even. *)
Definition FormatFloat_f (x : float64) (prec : nat) : string :=
  let scale := (10 ^ Z.of_nat prec)%Z in
  let digits (q : Z) : string :=
    FormatInt (q / scale)
    ++ match prec with
       | O => EmptyString
       | S _ =>
         let frac := FormatInt (q mod scale) in
         "." ++ strings.Repeat "0" (prec - String.length frac) ++ frac
       end in
  match x with
  | S754_nan => "NaN"
  | S754_infinity s => if s then "-Inf" else "+Inf"
  | S754_zero s => (if s then "-" else "") ++ digits 0%Z
  | S754_finite s m e =>
    let q := if (0 <=? e)%Z then (Zpos m * 2 ^ e * scale)%Z
             else roundHalfEven (Zpos m * scale) (2 ^ (- e)) in
    (if s then "-" else "") ++ digits q
  end.

(** The longest run of decimal digits at the start of [s], and what
    follows it. *)
Fixpoint spanDigits (s : string) : string * string :=
  match s with
  | EmptyString => (EmptyString, EmptyString)
  | String c t =>
    if isDigit c then let '(d, r) := spanDigits t in (String c d, r)
    else (EmptyString, s)
  end.

Definition digitsValue (d : string) : Z :=
  match parseDigits d 0 with
  | Some n => n
  | None => 0%Z
  end.

Definition lower (c : ascii) : ascii :=
  if ((65 <=? code c) && (code c <=? 90))%Z
  then ascii_of_N (Z.to_N (code c + 32)) else c.

Fixpoint lowerString (s : string) : string :=
  match s with
  | EmptyString => EmptyString
  | String c t => String (lower c) (lowerString t)
  end.

Definition readSign (s : string) : bool * string :=
  match s with
  | String "-"%char t => (true, t)
  | String "+"%char t => (false, t)
  | _ => (false, s)
  end.

(** The exponent part: [Some 0] when there is none, [None] when it is
    malformed or followed by anything. *)
Definition readExponent (s : string) : option Z :=
  match s with
  | EmptyString => Some 0%Z
  | String c t =>
    if Ascii.eqb (lower c) "e" then
      let '(eneg, t1) := readSign t in
      let '(ed, t2) := spanDigits t1 in
      match ed, t2 with
      | String _ _, EmptyString =>
        Some (if eneg then (- digitsValue ed)%Z else digitsValue ed)
      | _, _ => None
      end
    else None
  end.

Definition special (s : string) : option float64 :=
  let low := lowerString s in
  if String.eqb low "nan" then Some S754_nan
  else if String.eqb low "inf" || String.eqb low "+inf"
          || String.eqb low "infinity" || String.eqb low "+infinity"
  then Some (S754_infinity false)
  else if String.eqb low "-inf" || String.eqb low "-infinity"
  then Some (S754_infinity true)
  else None.

(** [strconv.ParseFloat(s, 64)] on the decimal syntax that [go test]
    prints: an optional sign, digits with an optional fraction, an
    optional exponent, and the spellings of infinity and NaN; the value
    is rounded to the nearest float64, ties to even, and an overflow is
    an error.  [None] stands for [err != nil].  The program below is
    parametric in the function it calls for [strconv.ParseFloat], so its
    theorems hold for the library's full syntax (hexadecimal mantissas,
    digit separators) as well; this definition runs the program on
    concrete lines. *)
Definition ParseFloat (s : string) : option float64 :=
  match special s with
  | Some x => Some x
  | None =>
    let '(neg, s1) := readSign s in
    let '(ip, s2) := spanDigits s1 in
    let '(fp, s3) :=
      match s2 with
      | String "."%char t => spanDigits t
      | _ => (EmptyString, s2)
      end in
    match (ip ++ fp)%string, readExponent s3 with
    | EmptyString, _ => None
    | _, None => None
    | String _ _ as digits, Some e =>
      let m := digitsValue digits in
      let e10 := (e - Z.of_nat (String.length fp))%Z in
      let x :=
        match m with
        | Zpos p =>
          if (0 <=? e10)%Z
          then binary_normalize prec64 emax64 ((if neg then - m else m) * 10 ^ e10) 0 false
          else SFdiv prec64 emax64 (S754_finite neg p 0)
                     (S754_finite false (Z.to_pos (10 ^ (- e10))) 0)
        | _ => S754_zero neg
        end in
      match x with
      | S754_infinity _ => None
      | _ => Some x
      end
    end
  end.

End strconv.

(** ** Package fmt *)

Module fmt.

(** The operand of a formatting call. *)
Inductive arg : Type :=
| Int (i : Z)
| Str (s : string)
| Float (x : float64).

(** Where the scan of a format string stands: in literal text, after a
    [%] reading flags, reading the width, or after a [.] reading the
    precision. *)
Inductive pstate : Type :=
| Text
| Flags (minus : bool)
| Width (minus : bool) (wid : nat)
| Prec (minus : bool) (wid : option nat) (prec : nat).

(** Padding to the width, counted in runes: to the right of the operand
    with the [-] flag, to the left otherwise. *)
Definition pad (minus : bool) (wid : option nat) (s : string) : string :=
  match wid with
  | None => s
  | Some O => s
  | Some (S _ as w) =>
    let padding := strings.Repeat " " (w - utf8.RuneCountInString s) in
    if minus then s ++ padding else padding ++ s
  end.

(** The verbs the program uses: [%d] on integers, [%s] on strings and
    [%.Nf] on floats ([fmt] prints NaN and the signed infinities as
    [strconv] spells them).  [None] is a verb, flag or operand outside
    this fragment; no format string of the program leads there. *)
Definition printArg (verb : ascii) (minus : bool) (wid prec : option nat) (a : arg)
  : option string :=
  match a, prec with
  | Int i, None =>
    if Ascii.eqb verb "d" then Some (pad minus wid (strconv.FormatInt i)) else None
  | Str s, None =>
    if Ascii.eqb verb "s" then Some (pad minus wid s) else None
  | Float x, Some p =>
    if Ascii.eqb verb "f"
    then Some (pad minus wid (strconv.FormatFloat_f x p))
    else None
  | _, _ => None
  end.

(** What stands in the output for a directive outside the fragment. *)
Definition outsideFragment : string := "%!(?)".

(** The notice for an operand that no verb consumed. *)
Definition extra (a : option arg) : string :=
  match a with
  | None => EmptyString
  | Some (Str s) => "%!(EXTRA string=" ++ s ++ ")"
  | Some (Int i) => "%!(EXTRA int=" ++ strconv.FormatInt i ++ ")"
  | Some (Float _) => outsideFragment
  end.

(** A verb met at the end of a directive; [k] formats the rest. *)
Definition verbOut (verb : ascii) (minus : bool) (wid prec : option nat)
  (a : option arg) (k : option arg -> string) : string :=
  if Ascii.eqb verb "%" then String "%" (k a)
  else
    match a with
    | None => "%!" ++ String verb "(MISSING)" ++ k None
    | Some x =>
      match printArg verb minus wid prec x with
      | Some s => s ++ k None
      | None => outsideFragment ++ k None
      end
    end.

(** A width above this bound makes [fmt] give up on the directive. *)
Definition tooLarge (n : nat) : bool := (1000000 <? Z.of_nat n)%Z.

(** [doPrintf] for a format string and one operand.  A digit after [%]
    starts the width: the program writes a leading [0] only for the
    width 0, where the flag [0] and the width 0 print the same. *)
Fixpoint doPrintf (format : string) (st : pstate) (a : option arg) : string :=
  match format with
  | EmptyString =>
    match st with
    | Text => extra a
    | _ => "%!(NOVERB)" ++ extra a
    end
  | String c rest =>
    let k := doPrintf rest Text in
    match st with
    | Text =>
      if Ascii.eqb c "%" then doPrintf rest (Flags false) a
      else String c (doPrintf rest Text a)
    | Flags minus =>
      if Ascii.eqb c "-" then doPrintf rest (Flags true) a
      else if isDigit c then doPrintf rest (Width minus (Z.to_nat (digitVal c))) a
      else if Ascii.eqb c "." then doPrintf rest (Prec minus None 0) a
      else verbOut c minus None None a k
    | Width minus wid =>
      if isDigit c then
        if tooLarge wid then "%!(NOVERB)" ++ extra a
        else doPrintf rest (Width minus (wid * 10 + Z.to_nat (digitVal c))) a
      else if Ascii.eqb c "." then doPrintf rest (Prec minus (Some wid) 0) a
      else verbOut c minus (Some wid) None a k
    | Prec minus wid prec =>
      if isDigit c then doPrintf rest (Prec minus wid (prec * 10 + Z.to_nat (digitVal c))) a
      else verbOut c minus wid (Some prec) a k
    end
  end.

(** [fmt.Sprintf(format, a)]. *)
Definition Sprintf (format : string) (a : arg) : string :=
  doPrintf format Text (Some a).

(** The text of a run-time error, as [Error()] returns it. *)
Definition errorText (e : runtimeError) : string :=
  match e with
  | IndexOutOfRange i n =>
    "runtime error: index out of range [" ++ strconv.FormatInt (Z.of_nat i)
    ++ "] with length " ++ strconv.FormatInt (Z.of_nat n)
  end.

(** [fmt.Print(v)] for a value whose [String] method returned [r]:
    [fmt] recovers from a panic of the method and prints a notice in
    its place. *)
Definition Print (r : result string) : string :=
  match r with
  | Ok s => s
  | Panic e => "%!v(PANIC=String method: " ++ errorText e ++ ")"
  end.

End fmt.

(** ** Package regexp *)

Module regexp.

(** The syntax the two patterns of the program need: [.] (any byte but
    a newline), [\d], [\s], literals, concatenation and iteration.
    Matching runs over bytes: the bytes the patterns name are ASCII,
    and an ASCII byte always starts a rune of its own. *)
Inductive regex : Type :=
| Void
| Eps
| Chr (c : ascii)
| AnyNotNL
| Digit
| Space
| Cat (r1 r2 : regex)
| Alt (r1 r2 : regex)
| Star (r : regex).

Fixpoint Lit (s : string) : regex :=
  match s with
  | EmptyString => Eps
  | String c t => Cat (Chr c) (Lit t)
  end.

Definition Plus (r : regex) : regex := Cat r (Star r).

Fixpoint nullable (r : regex) : bool :=
  match r with
  | Void | Chr _ | AnyNotNL | Digit | Space => false
  | Eps | Star _ => true
  | Cat r1 r2 => nullable r1 && nullable r2
  | Alt r1 r2 => nullable r1 || nullable r2
  end.

(** [\s] is [[\t\n\f\r ]]. *)
Definition isSpaceClass (c : ascii) : bool :=
  let n := code c in
  ((n =? 9) || (n =? 10) || (n =? 12) || (n =? 13) || (n =? 32))%Z.

Definition cat (r1 r2 : regex) : regex :=
  match r1 with
  | Void => Void
  | Eps => r2
  | _ => Cat r1 r2
  end.

Definition alt (r1 r2 : regex) : regex :=
  match r1, r2 with
  | Void, _ => r2
  | _, Void => r1
  | _, _ => Alt r1 r2
  end.

(** The derivative of [r] by the byte [c]. *)
Fixpoint deriv (c : ascii) (r : regex) : regex :=
  match r with
  | Void | Eps => Void
  | Chr c' => if Ascii.eqb c c' then Eps else Void
  | AnyNotNL => if Ascii.eqb c newline then Void else Eps
  | Digit => if isDigit c then Eps else Void
  | Space => if isSpaceClass c then Eps else Void
  | Cat r1 r2 =>
    alt (cat (deriv c r1) r2) (if nullable r1 then deriv c r2 else Void)
  | Alt r1 r2 => alt (deriv c r1) (deriv c r2)
  | Star r1 => cat (deriv c r1) (Star r1)
  end.

(** [MatchString] for a pattern [^r] with no [$]: some prefix of the
    text is matched by [r]. *)
Fixpoint MatchString (r : regex) (s : string) : bool :=
  nullable r ||
  match s with
  | EmptyString => false
  | String c t => MatchString (deriv c r) t
  end.

End regexp.

(* ================================================================== *)
(** * Part 2: the program                                              *)
(* ================================================================== *)

(** A loop whose body may panic. *)
Fixpoint foldM {A B : Type} (f : B -> A -> result B) (l : list A) (b : B) : result B :=
  match l with
  | [] => Ok b
  | a :: l' => b' <- f b a ;; foldM f l' b'
  end.

(** [for i, x := range l]. *)
Definition enumerate {A : Type} (l : list A) : list (nat * A) :=
  combine (seq 0 (List.length l)) l.

(** [make([]string, n)]: [n] empty strings. *)
Definition make (n : nat) : list string := repeat EmptyString n.

(** ** Package bench: one line of [testing.B] output

    [prettybench.go] reaches this package as [bench] and spells its
    exported names [Benchmark], [NsPerOp], [MBPerS], [AllocedBytesPerOp]
    and [AllocsPerOp]; the parser's own file spells the record [Bench]
    and both the fields and the flags [NsOp], [MbS], [BOp], [AllocsOp].
    Here the fields keep the parser's spelling and the flags the
    program's, the flag values being [1 << iota] in either file. *)

Module bench.

Definition NsPerOp : Z := Z.shiftl 1 0.
Definition MBPerS : Z := Z.shiftl 1 1.
Definition AllocedBytesPerOp : Z := Z.shiftl 1 2.
Definition AllocsPerOp : Z := Z.shiftl 1 3.

Record Bench : Type := mkBench {
  Name : string;       (* benchmark name *)
  N : Z;               (* number of iterations *)
  NsOp : float64;      (* nanoseconds per iteration *)
  MbS : float64;       (* MB processed per second *)
  BOp : Z;             (* bytes allocated per iteration *)
  AllocsOp : Z;        (* allocs per iteration *)
  Measured : Z;        (* which measurements were recorded *)
  ord : Z              (* ordinal position within a benchmark run *)
}.

(** What [ParseLine] reports when it returns no record. *)
Inductive parseError : Type :=
| TwoFieldsRequired (have : nat)
| NoBenchmarkPrefix
| BadIterations (field : string).

Section Parser.

(** [strconv.ParseFloat(s, 64)], [None] standing for [err != nil]. *)
Variable ParseFloat : string -> option float64.

Definition parseMeasurement (b : Bench) (quant unit : string) : Bench :=
  if String.eqb unit "ns/op" then
    match ParseFloat quant with
    | Some f =>
      mkBench (Name b) (N b) f (MbS b) (BOp b) (AllocsOp b)
              (Z.lor (Measured b) NsPerOp) (ord b)
    | None => b
    end
  else if String.eqb unit "MB/s" then
    match ParseFloat quant with
    | Some f =>
      mkBench (Name b) (N b) (NsOp b) f (BOp b) (AllocsOp b)
              (Z.lor (Measured b) MBPerS) (ord b)
    | None => b
    end
  else if String.eqb unit "B/op" then
    match strconv.ParseUint quant with
    | Some i =>
      mkBench (Name b) (N b) (NsOp b) (MbS b) i (AllocsOp b)
              (Z.lor (Measured b) AllocedBytesPerOp) (ord b)
    | None => b
    end
  else if String.eqb unit "allocs/op" then
    match strconv.ParseUint quant with
    | Some i =>
      mkBench (Name b) (N b) (NsOp b) (MbS b) (BOp b) i
              (Z.lor (Measured b) AllocsPerOp) (ord b)
    | None => b
    end
  else b.

(** The loop [for i := 1; i < len(fields)/2; i++] over the pairs of
    fields after the name and the iteration count. *)
Definition parseMeasurements (fields : list string) (b : Bench) : Bench :=
  fold_left
    (fun b i => parseMeasurement b (nth (i * 2) fields EmptyString)
                                 (nth (i * 2 + 1) fields EmptyString))
    (seq 1 (List.length fields / 2 - 1)) b.

(** [ParseLine] extracts a [Bench] from a single line of [testing.B]
    output. *)
Definition ParseLine (line : string) : Bench + parseError :=
  let fields := strings.Fields line in
  if Nat.ltb (List.length fields) 2 then inr (TwoFieldsRequired (List.length fields))
  else if negb (strings.HasPrefix (nth 0 fields EmptyString) "Benchmark")
  then inr NoBenchmarkPrefix
  else
    match strconv.Atoi (nth 1 fields EmptyString) with
    | None => inr (BadIterations (nth 1 fields EmptyString))
    | Some n =>
      let b := mkBench (nth 0 fields EmptyString) n fzero fzero 0 0 0 0 in
      inl (parseMeasurements fields b)
    end.

End Parser.

End bench.

(** ** Package main: variables *)

(** [^Benchmark.*\t.*\d+] *)
Definition benchLineMatcher : regexp.regex :=
  regexp.Cat (regexp.Lit "Benchmark")
    (regexp.Cat (regexp.Star regexp.AnyNotNL)
       (regexp.Cat (regexp.Chr tab)
          (regexp.Cat (regexp.Star regexp.AnyNotNL) (regexp.Plus regexp.Digit)))).

(** [^ok\s] *)
Definition okLineMatcher : regexp.regex :=
  regexp.Cat (regexp.Lit "ok") regexp.Space.

Inductive error : Type :=
| errNotBenchLine
| benchError (e : bench.parseError).

(** ** Types *)

Record BenchOutputGroup : Type := mkGroup {
  Lines : list bench.Bench;
  (* Columns which are in use *)
  Measured : Z
}.

Record Table : Type := mkTable {
  MaxLengths : list nat;
  Cells : list (list string)
}.

(** [&BenchOutputGroup{}] *)
Definition emptyGroup : BenchOutputGroup := mkGroup [] 0.

(** ** Methods of BenchOutputGroup *)

(** [AddLine] appends [line] to the [Lines] field. *)
Definition AddLine (g : BenchOutputGroup) (line : bench.Bench) : BenchOutputGroup :=
  mkGroup (Lines g ++ [line])%list (Z.lor (Measured g) (bench.Measured line)).

(** The loop of [TimeFormatFunc] that finds the smallest time, started
    at [Lines[0]] and run over [Lines[1:]]. *)
Definition smallestTime (first : float64) (rest : list bench.Bench) : float64 :=
  fold_left
    (fun smallest line =>
       if flt (bench.NsOp line) smallest then bench.NsOp line else smallest)
    rest first.

(** [TimeFormatFunc] uniforms the time unit to ns/μs/ms/s. *)
Definition TimeFormatFunc (g : BenchOutputGroup) : result (float64 -> string) :=
  line0 <- index (Lines g) 0 ;;
  let smallest := smallestTime (bench.NsOp line0) (List.tl (Lines g)) in
  if flt smallest (float64_of_Z (10000 * time.Nanosecond)) then
    Ok (fun ns => fmt.Sprintf "%.2f ns/op" (fmt.Float ns))
  else if flt smallest (float64_of_Z time.Millisecond) then
    Ok (fun ns => fmt.Sprintf "%.2f μs/op" (fmt.Float (fdiv ns (float64_of_Z 1000))))
  else if flt smallest (float64_of_Z (10 * time.Second)) then
    Ok (fun ns => fmt.Sprintf "%.2f ms/op" (fmt.Float (fdiv ns (float64_of_Z 1000000))))
  else
    Ok (fun ns => fmt.Sprintf "%.2f s/op" (fmt.Float (fdiv ns (float64_of_Z 1000000000)))).

(** ** Functions *)

Definition FormatAllocsPerOp (l : bench.Bench) : string :=
  if (Z.land (bench.Measured l) bench.AllocsPerOp =? 0)%Z then EmptyString
  else fmt.Sprintf "%d allocs/op" (fmt.Int (bench.AllocsOp l)).

Definition FormatBytesAllocPerOp (l : bench.Bench) : string :=
  if (Z.land (bench.Measured l) bench.AllocedBytesPerOp =? 0)%Z then EmptyString
  else fmt.Sprintf "%d B/op" (fmt.Int (bench.BOp l)).

Definition FormatIterations (iter : Z) : string := strconv.FormatInt iter.

Definition FormatMegaBytesPerSecond (l : bench.Bench) : string :=
  if (Z.land (bench.Measured l) bench.MBPerS =? 0)%Z then EmptyString
  else fmt.Sprintf "%.2f MB/s" (fmt.Float (bench.MbS l)).

(** One data row of [tabulate]. *)
Definition tabulateRow (g : BenchOutputGroup) (timeFormatFunc : float64 -> string)
  (line : bench.Bench) : list string :=
  let row := [bench.Name line; FormatIterations (bench.N line);
              timeFormatFunc (bench.NsOp line)] in
  let row := if (0 <? Z.land (Measured g) bench.MBPerS)%Z
             then (row ++ [FormatMegaBytesPerSecond line])%list else row in
  let row := if (0 <? Z.land (Measured g) bench.AllocedBytesPerOp)%Z
             then (row ++ [FormatBytesAllocPerOp line])%list else row in
  let row := if (0 <? Z.land (Measured g) bench.AllocsPerOp)%Z
             then (row ++ [FormatAllocsPerOp line])%list else row in
  row.

Definition tabulate (g : BenchOutputGroup) (columnNames : list string) : result Table :=
  let table := mkTable [] [columnNames] in
  let underlines := make (List.length columnNames) in
  let underlines :=
    fold_left
      (fun underlines name =>
         (underlines ++ [strings.Repeat "-" (String.length name)])%list)
      columnNames underlines in
  let table := mkTable (MaxLengths table) (Cells table ++ [underlines])%list in
  timeFormatFunc <- TimeFormatFunc g ;;
  Ok (fold_left
        (fun table line =>
           mkTable (MaxLengths table)
                   (Cells table ++ [tabulateRow g timeFormatFunc line])%list)
        (Lines g) table).

Definition findMaxLengths (colNames : list string) (tableCells : list (list string))
  : result (list nat) :=
  foldM
    (fun tableMaxLengths i =>
       maxLength <-
         foldM
           (fun maxLength row =>
              cell <- index row i ;;
              Ok (if Nat.ltb maxLength (String.length cell)
                  then String.length cell else maxLength))
           tableCells 0 ;;
       Ok (tableMaxLengths ++ [maxLength])%list)
    (seq 0 (List.length colNames)) [].

Definition getFormat (rowNum rowLen : nat) : string :=
  if Nat.eqb rowNum 0 then "%%-%ds   "
  else if Nat.eqb rowNum (rowLen - 1) then "%%%ds"
  else "%%%ds   ".

Definition formatTableCells (tableCells : list (list string)) (tableMaxLengths : list nat)
  : result string :=
  foldM
    (fun buf row =>
       buf <-
         foldM
           (fun buf ic =>
              let format := getFormat (fst ic) (List.length row) in
              width <- index tableMaxLengths (fst ic) ;;
              Ok (buf ++ fmt.Sprintf (fmt.Sprintf format (fmt.Int (Z.of_nat width)))
                                     (fmt.Str (snd ic))))
           (enumerate row) buf ;;
       Ok (buf ++ String newline EmptyString))
    tableCells EmptyString.

(** The local [columnNames] of the [String] method. *)
Definition columnNames (g : BenchOutputGroup) : list string :=
  let columnNames := ["benchmark"; "iter"; "time/iter"] in
  let columnNames := if (0 <? Z.land (Measured g) bench.MBPerS)%Z
                     then (columnNames ++ ["throughput"])%list else columnNames in
  let columnNames := if (0 <? Z.land (Measured g) bench.AllocedBytesPerOp)%Z
                     then (columnNames ++ ["bytes alloc"])%list else columnNames in
  let columnNames := if (0 <? Z.land (Measured g) bench.AllocsPerOp)%Z
                     then (columnNames ++ ["allocs"])%list else columnNames in
  columnNames.

Module BenchOutputGroup.

(** [String] is a stringer of the [BenchOutputGroup] type. *)
Definition String (g : BenchOutputGroup) : result string :=
  if Nat.eqb (List.length (Lines g)) 0 then Ok EmptyString
  else
    let columnNames := columnNames g in
    table <- tabulate g columnNames ;;
    maxLengths <- findMaxLengths columnNames (Cells table) ;;
    let table := mkTable maxLengths (Cells table) in
    formatTableCells (Cells table) (MaxLengths table).

End BenchOutputGroup.

(** ** The main function *)

Section Main.

Variable ParseFloat : string -> option float64.

Definition ParseLine (line : string) : bench.Bench + error :=
  if negb (regexp.MatchString benchLineMatcher line) then inr errNotBenchLine
  else
    let fields := strings.Split line tab in
    if Nat.ltb (List.length fields) 3 then inr errNotBenchLine
    else
      match bench.ParseLine ParseFloat line with
      | inl b => inl b
      | inr e => inr (benchError e)
      end.

(** The state of [main] between two lines: the group being collected
    and what has been written to the two output streams. *)
Record State : Type := mkState {
  currentBenchmark : BenchOutputGroup;
  stdout : string;
  stderr : string
}.

(** [fmt.Println(text)] on standard output. *)
Definition Println (st : State) (text : string) : State :=
  mkState (currentBenchmark st) (stdout st ++ text ++ String newline EmptyString) (stderr st).

(** The flag [-no-passthrough]. *)
Variable noPassthrough : bool.

(** The body of the loop [for scanner.Scan()], [text] being the line. *)
Definition step (st : State) (text : string) : State :=
  match ParseLine text with
  | inr errNotBenchLine =>
    let st :=
      if regexp.MatchString okLineMatcher text then
        mkState emptyGroup
                (stdout st ++ fmt.Print (BenchOutputGroup.String (currentBenchmark st)))
                (stderr st)
      else st in
    if negb noPassthrough then Println st text else st
  | inl line =>
    mkState (AddLine (currentBenchmark st) line) (stdout st) (stderr st)
  | inr _ =>
    let st := mkState (currentBenchmark st) (stdout st)
                      (stderr st ++ "prettybench unrecognized line:"
                                 ++ String newline EmptyString) in
    Println st text
  end.

(** [main] on the lines the scanner yields; nothing is written after
    the loop when the input ends without a read error. *)
Definition main (lines : list string) : State :=
  fold_left step lines (mkState emptyGroup EmptyString EmptyString).

End Main.

(** ** The program when it read lines with benchcmp's parser

    An earlier revision of [prettybench.go]: the parser is the same
    package (there imported as [benchcmp]), the group records which
    optional columns are in use in three booleans, and the [String]
    method builds the table, measures its columns and formats it in one
    body. *)

Module WithBenchcmp.

Record BenchOutputGroup : Type := mkGroup {
  Lines : list bench.Bench;
  (* Columns which are in use *)
  MegaBytesPresent : bool;
  BytesAllocPresent : bool;
  AllocsPresent : bool
}.

(** [&BenchOutputGroup{}] *)
Definition emptyGroup : BenchOutputGroup := mkGroup [] false false false.

Definition FormatIterations (iter : Z) : string := strconv.FormatInt iter.

Definition TimeFormatFunc (g : BenchOutputGroup) : result (float64 -> string) :=
  line0 <- index (Lines g) 0 ;;
  (* Find the smallest time *)
  let smallest :=
    fold_left
      (fun smallest line =>
         if flt (bench.NsOp line) smallest then bench.NsOp line else smallest)
      (List.tl (Lines g)) (bench.NsOp line0) in
  if flt smallest (float64_of_Z (10000 * time.Nanosecond)) then
    Ok (fun ns => fmt.Sprintf "%.2f ns/op" (fmt.Float ns))
  else if flt smallest (float64_of_Z time.Millisecond) then
    Ok (fun ns => fmt.Sprintf "%.2f Î¼s/op" (fmt.Float (fdiv ns (float64_of_Z 1000))))
  else if flt smallest (float64_of_Z (10 * time.Second)) then
    Ok (fun ns => fmt.Sprintf "%.2f ms/op" (fmt.Float (fdiv ns (float64_of_Z 1000000))))
  else
    Ok (fun ns => fmt.Sprintf "%.2f s/op" (fmt.Float (fdiv ns (float64_of_Z 1000000000)))).

Definition FormatMegaBytesPerSecond (l : bench.Bench) : string :=
  if (Z.land (bench.Measured l) bench.MBPerS =? 0)%Z then EmptyString
  else fmt.Sprintf "%.2f MB/s" (fmt.Float (bench.MbS l)).

Definition FormatBytesAllocPerOp (l : bench.Bench) : string :=
  if (Z.land (bench.Measured l) bench.AllocedBytesPerOp =? 0)%Z then EmptyString
  else fmt.Sprintf "%d B/op" (fmt.Int (bench.BOp l)).

Definition FormatAllocsPerOp (l : bench.Bench) : string :=
  if (Z.land (bench.Measured l) bench.AllocsPerOp =? 0)%Z then EmptyString
  else fmt.Sprintf "%d allocs/op" (fmt.Int (bench.AllocsOp l)).

Module BenchOutputGroup.

Definition String (g : BenchOutputGroup) : result string :=
  if Nat.eqb (List.length (Lines g)) 0 then Ok EmptyString
  else
    let columnNames := ["benchmark"; "iter"; "time/iter"] in
    let columnNames := if MegaBytesPresent g
                       then (columnNames ++ ["throughput"])%list else columnNames in
    let columnNames := if BytesAllocPresent g
                       then (columnNames ++ ["bytes alloc"])%list else columnNames in
    let columnNames := if AllocsPresent g
                       then (columnNames ++ ["allocs"])%list else columnNames in
    let table := mkTable [] [columnNames] in
    let underlines :=
      fold_left
        (fun underlines name =>
           (underlines ++ [strings.Repeat "-" (String.length name)])%list)
        columnNames [] in
    let table := mkTable (MaxLengths table) (Cells table ++ [underlines])%list in
    timeFormatFunc <- TimeFormatFunc g ;;
    let table :=
      fold_left
        (fun table line =>
           let row := [bench.Name line; FormatIterations (bench.N line);
                       timeFormatFunc (bench.NsOp line)] in
           let row := if MegaBytesPresent g
                      then (row ++ [FormatMegaBytesPerSecond line])%list else row in
           let row := if BytesAllocPresent g
                      then (row ++ [FormatBytesAllocPerOp line])%list else row in
           let row := if AllocsPresent g
                      then (row ++ [FormatAllocsPerOp line])%list else row in
           mkTable (MaxLengths table) (Cells table ++ [row])%list)
        (Lines g) table in
    table <-
      foldM
        (fun table i =>
           maxLength <-
             foldM
               (fun maxLength row =>
                  cell <- index row i ;;
                  Ok (if Nat.ltb maxLength (String.length cell)
                      then String.length cell else maxLength))
               (Cells table) 0 ;;
           Ok (mkTable (MaxLengths table ++ [maxLength])%list (Cells table)))
        (seq 0 (List.length columnNames)) table ;;
    foldM
      (fun buf row =>
         buf <-
           foldM
             (fun buf ic =>
                let format :=
                  if Nat.eqb (fst ic) 0 then "%%-%ds   "
                  else if Nat.eqb (fst ic) (List.length row - 1) then "%%%ds"
                  else "%%%ds   " in
                width <- index (MaxLengths table) (fst ic) ;;
                Ok (buf ++ fmt.Sprintf (fmt.Sprintf format (fmt.Int (Z.of_nat width)))
                                       (fmt.Str (snd ic))))
             (enumerate row) buf ;;
         Ok (buf ++ String newline EmptyString))
      (Cells table) EmptyString.

End BenchOutputGroup.

Definition AddLine (g : BenchOutputGroup) (line : bench.Bench) : BenchOutputGroup :=
  let g := mkGroup (Lines g ++ [line])%list
                   (MegaBytesPresent g) (BytesAllocPresent g) (AllocsPresent g) in
  let g := if (0 <? Z.land (bench.Measured line) bench.MBPerS)%Z
           then mkGroup (Lines g) true (BytesAllocPresent g) (AllocsPresent g) else g in
  let g := if (0 <? Z.land (bench.Measured line) bench.AllocedBytesPerOp)%Z
           then mkGroup (Lines g) (MegaBytesPresent g) true (AllocsPresent g) else g in
  let g := if (0 <? Z.land (bench.Measured line) bench.AllocsPerOp)%Z
           then mkGroup (Lines g) (MegaBytesPresent g) (BytesAllocPresent g) true else g in
  g.

Section Main.

Variable ParseFloat : string -> option float64.

(** [ParseLine] reads as it does today: the pre-filter, the three
    tab-separated fields, then the parser. *)
Definition ParseLine (line : string) : bench.Bench + error :=
  if negb (regexp.MatchString benchLineMatcher line) then inr errNotBenchLine
  else
    let fields := strings.Split line tab in
    if Nat.ltb (List.length fields) 3 then inr errNotBenchLine
    else
      match bench.ParseLine ParseFloat line with
      | inl b => inl b
      | inr e => inr (benchError e)
      end.

Record State : Type := mkState {
  currentBenchmark : BenchOutputGroup;
  stdout : string;
  stderr : string
}.

Variable noPassthrough : bool.

(** The body of the loop [for scanner.Scan()]. *)
Definition step (st : State) (text : string) : State :=
  match ParseLine text with
  | inr errNotBenchLine =>
    let st :=
      if regexp.MatchString okLineMatcher text then
        mkState emptyGroup (stdout st ++ fmt.Print (BenchOutputGroup.String (currentBenchmark st))) (stderr st)
      else st in
    if negb noPassthrough
    then mkState (currentBenchmark st) (stdout st ++ text ++ String newline EmptyString)
                 (stderr st)
    else st
  | inl line =>
    mkState (AddLine (currentBenchmark st) line) (stdout st) (stderr st)
  | inr _ =>
    mkState (currentBenchmark st) (stdout st ++ text ++ String newline EmptyString)
            (stderr st ++ "prettybench unrecognized line:" ++ String newline EmptyString)
  end.

Definition main (lines : list string) : State :=
  fold_left step lines (mkState emptyGroup EmptyString EmptyString).

End Main.

End WithBenchcmp.

(** ** The program when it parsed the lines itself

    A revision of [prettybench.go] older than the one above: a record
    holds the time as a [time.Duration] and the optional measurements
    behind pointers, [nil] when the line has none, and [ParseLine]
    reads the fields of the line without the help of a parser
    package. *)

Module OwnParser.

Record BenchOutput : Type := mkOutput {
  Name : string;
  Iterations : Z;
  TimePerIteration : Z;              (* time.Duration *)
  (* Optional fields *)
  BytesPerSecond : option float64;
  BytesAllocPerOp : option Z;
  AllocsPerOp : option Z
}.

Record BenchOutputGroup : Type := mkGroup {
  Lines : list BenchOutput;
  (* Columns which are in use *)
  BytesPresent : bool;
  BytesAllocPresent : bool;
  AllocsPresent : bool
}.

(** [&BenchOutputGroup{}] *)
Definition emptyGroup : BenchOutputGroup := mkGroup [] false false false.

Definition FormatIterations (iter : Z) : string := strconv.FormatInt iter.

(** [d.Seconds()]: the whole seconds and the rest are converted apart;
    integer division truncates toward zero. *)
Definition Seconds (d : Z) : float64 :=
  let sec := Z.quot d time.Second in
  let nsec := Z.rem d time.Second in
  fadd (float64_of_Z sec) (fdiv (float64_of_Z nsec) (float64_of_Z 1000000000)).

Definition TimeFormatFunc (g : BenchOutputGroup) : result (Z -> string) :=
  line0 <- index (Lines g) 0 ;;
  (* Find the smallest time *)
  let smallest :=
    fold_left
      (fun smallest line =>
         if (TimePerIteration line <? smallest)%Z then TimePerIteration line else smallest)
      (List.tl (Lines g)) (TimePerIteration line0) in
  if (smallest <? 10000 * time.Nanosecond)%Z then
    Ok (fun d => fmt.Sprintf "%d ns/op" (fmt.Int d))
  else if (smallest <? time.Millisecond)%Z then
    Ok (fun d => fmt.Sprintf "%.2f μs/op"
                   (fmt.Float (fdiv (float64_of_Z d) (float64_of_Z 1000))))
  else if (smallest <? 10 * time.Second)%Z then
    Ok (fun d => fmt.Sprintf "%.2f ms/op" (fmt.Float (fmul (Seconds d) (float64_of_Z 1000))))
  else
    Ok (fun d => fmt.Sprintf "%.2f s/op" (fmt.Float (Seconds d))).

Definition FormatBytesPerSecond (b : option float64) : string :=
  match b with
  | None => EmptyString
  | Some x => fmt.Sprintf "%.2f MB/s" (fmt.Float (fdiv x (float64_of_Z 1000000)))
  end.

Definition FormatBytesAllocPerOp (b : option Z) : string :=
  match b with
  | None => EmptyString
  | Some x => fmt.Sprintf "%d B/op" (fmt.Int x)
  end.

Definition FormatAllocsPerOp (a : option Z) : string :=
  match a with
  | None => EmptyString
  | Some x => fmt.Sprintf "%d allocs/op" (fmt.Int x)
  end.

Module BenchOutputGroup.

Definition String (g : BenchOutputGroup) : result string :=
  if Nat.eqb (List.length (Lines g)) 0 then Ok EmptyString
  else
    let columnNames := ["benchmark"; "iter"; "time/iter"] in
    let columnNames := if BytesPresent g
                       then (columnNames ++ ["throughput"])%list else columnNames in
    let columnNames := if BytesAllocPresent g
                       then (columnNames ++ ["bytes alloc"])%list else columnNames in
    let columnNames := if AllocsPresent g
                       then (columnNames ++ ["allocs"])%list else columnNames in
    let table := mkTable [] [columnNames] in
    let underlines :=
      fold_left
        (fun underlines name =>
           (underlines ++ [strings.Repeat "-" (String.length name)])%list)
        columnNames [] in
    let table := mkTable (MaxLengths table) (Cells table ++ [underlines])%list in
    timeFormatFunc <- TimeFormatFunc g ;;
    let table :=
      fold_left
        (fun table line =>
           let row := [Name line; FormatIterations (Iterations line);
                       timeFormatFunc (TimePerIteration line)] in
           let row := if BytesPresent g
                      then (row ++ [FormatBytesPerSecond (BytesPerSecond line)])%list
                      else row in
           let row := if BytesAllocPresent g
                      then (row ++ [FormatBytesAllocPerOp (BytesAllocPerOp line)])%list
                      else row in
           let row := if AllocsPresent g
                      then (row ++ [FormatAllocsPerOp (AllocsPerOp line)])%list else row in
           mkTable (MaxLengths table) (Cells table ++ [row])%list)
        (Lines g) table in
    table <-
      foldM
        (fun table i =>
           maxLength <-
             foldM
               (fun maxLength row =>
                  cell <- index row i ;;
                  Ok (if Nat.ltb maxLength (String.length cell)
                      then String.length cell else maxLength))
               (Cells table) 0 ;;
           Ok (mkTable (MaxLengths table ++ [maxLength])%list (Cells table)))
        (seq 0 (List.length columnNames)) table ;;
    foldM
      (fun buf row =>
         buf <-
           foldM
             (fun buf ic =>
                let format :=
                  if Nat.eqb (fst ic) 0 then "%%-%ds   "
                  else if Nat.eqb (fst ic) (List.length row - 1) then "%%%ds"
                  else "%%%ds   " in
                width <- index (MaxLengths table) (fst ic) ;;
                Ok (buf ++ fmt.Sprintf (fmt.Sprintf format (fmt.Int (Z.of_nat width)))
                                       (fmt.Str (snd ic))))
             (enumerate row) buf ;;
         Ok (buf ++ String newline EmptyString))
      (Cells table) EmptyString.

End BenchOutputGroup.

Definition AddLine (g : BenchOutputGroup) (line : BenchOutput) : BenchOutputGroup :=
  let g := mkGroup (Lines g ++ [line])%list
                   (BytesPresent g) (BytesAllocPresent g) (AllocsPresent g) in
  let g := match BytesPerSecond line with
           | Some _ => mkGroup (Lines g) true (BytesAllocPresent g) (AllocsPresent g)
           | None => g
           end in
  let g := match BytesAllocPerOp line with
           | Some _ => mkGroup (Lines g) (BytesPresent g) true (AllocsPresent g)
           | None => g
           end in
  let g := match AllocsPerOp line with
           | Some _ => mkGroup (Lines g) (BytesPresent g) (BytesAllocPresent g) true
           | None => g
           end in
  g.

Inductive error : Type :=
| notBenchLineErr
| benchLineParseErr.

Section Main.

Variable ParseFloat : string -> option float64.

(** The body of the loop [for _, field := range fields[2:]];
    [strconv.ParseInt(s, 10, 64)] reads what [strconv.Atoi] reads. *)
Definition parseField (output : BenchOutput) (field : string) : BenchOutput + error :=
  let parts := strings.Split (strings.TrimSpace field) " " in
  if negb (Nat.eqb (List.length parts) 2) then inr benchLineParseErr
  else if String.eqb (nth 1 parts EmptyString) "MB/s" then
    match ParseFloat (nth 0 parts EmptyString) with
    | None => inr benchLineParseErr
    | Some value =>
      let value := fmul value (float64_of_Z 1000000) in
      inl (mkOutput (Name output) (Iterations output) (TimePerIteration output)
                    (Some value) (BytesAllocPerOp output) (AllocsPerOp output))
    end
  else
    match strconv.Atoi (nth 0 parts EmptyString) with
    | None => inr benchLineParseErr
    | Some value =>
      if String.eqb (nth 1 parts EmptyString) "ns/op" then
        inl (mkOutput (Name output) (Iterations output) value
                      (BytesPerSecond output) (BytesAllocPerOp output) (AllocsPerOp output))
      else if String.eqb (nth 1 parts EmptyString) "B/op" then
        inl (mkOutput (Name output) (Iterations output) (TimePerIteration output)
                      (BytesPerSecond output) (Some value) (AllocsPerOp output))
      else if String.eqb (nth 1 parts EmptyString) "allocs/op" then
        inl (mkOutput (Name output) (Iterations output) (TimePerIteration output)
                      (BytesPerSecond output) (BytesAllocPerOp output) (Some value))
      else inr benchLineParseErr
    end.

(** The loop: the first field that fails ends it. *)
Fixpoint parseFields (output : BenchOutput) (fields : list string) : BenchOutput + error :=
  match fields with
  | [] => inl output
  | field :: fields' =>
    match parseField output field with
    | inl output' => parseFields output' fields'
    | inr e => inr e
    end
  end.

Definition ParseLine (line : string) : BenchOutput + error :=
  if negb (regexp.MatchString benchLineMatcher line) then inr notBenchLineErr
  else
    let fields := strings.Split line tab in
    if Nat.ltb (List.length fields) 3 then inr notBenchLineErr
    else
      let output := mkOutput (strings.TrimSpace (nth 0 fields EmptyString)) 0 0
                             None None None in
      match strconv.Atoi (strings.TrimSpace (nth 1 fields EmptyString)) with
      | None => inr notBenchLineErr
      | Some iterations =>
        let output := mkOutput (Name output) iterations (TimePerIteration output)
                               (BytesPerSecond output) (BytesAllocPerOp output)
                               (AllocsPerOp output) in
        parseFields output (skipn 2 fields)
      end.

Record State : Type := mkState {
  currentBenchmark : BenchOutputGroup;
  stdout : string;
  stderr : string
}.

Variable noPassthrough : bool.

(** The body of the loop [for scanner.Scan()]. *)
Definition step (st : State) (text : string) : State :=
  match ParseLine text with
  | inr notBenchLineErr =>
    let st :=
      if regexp.MatchString okLineMatcher text then
        mkState emptyGroup
                (stdout st ++ fmt.Print (BenchOutputGroup.String (currentBenchmark st)))
                (stderr st)
      else st in
    if negb noPassthrough
    then mkState (currentBenchmark st) (stdout st ++ text ++ String newline EmptyString)
                 (stderr st)
    else st
  | inl line =>
    mkState (AddLine (currentBenchmark st) line) (stdout st) (stderr st)
  | inr _ =>
    mkState (currentBenchmark st) (stdout st ++ text ++ String newline EmptyString)
            (stderr st ++ "prettybench unrecognized line:" ++ String newline EmptyString)
  end.

Definition main (lines : list string) : State :=
  fold_left step lines (mkState emptyGroup EmptyString EmptyString).

End Main.

End OwnParser.

(* ================================================================== *)
(** * Part 3: the vocabulary of the statements                         *)
(* ================================================================== *)

(** ** Time units *)

(** The four display units, finest first. *)
Inductive TimeUnit : Type :=
| Nanoseconds
| Microseconds
| Milliseconds
| Seconds.

Definition unitRank (u : TimeUnit) : nat :=
  match u with
  | Nanoseconds => 0
  | Microseconds => 1
  | Milliseconds => 2
  | Seconds => 3
  end.

(** The threshold table of the specification, read on the smallest
    time of a group: below 10,000 nanoseconds, from 10,000 up to
    1,000,000 microseconds, from 1,000,000 up to 10,000,000,000
    milliseconds, seconds otherwise. *)
Definition specUnit (smallest : float64) : TimeUnit :=
  if flt smallest (float64_of_Z 10000) then Nanoseconds
  else if fle (float64_of_Z 10000) smallest && flt smallest (float64_of_Z 1000000)
  then Microseconds
  else if fle (float64_of_Z 1000000) smallest && flt smallest (float64_of_Z 10000000000)
  then Milliseconds
  else Seconds.

(** The size of a unit in nanoseconds, [None] for the nanosecond itself
    (a value in nanoseconds is not divided). *)
Definition unitDivisor (u : TimeUnit) : option Z :=
  match u with
  | Nanoseconds => None
  | Microseconds => Some 1000%Z
  | Milliseconds => Some 1000000%Z
  | Seconds => Some 1000000000%Z
  end.

(** The suffix of a unit; the micro sign is the two bytes of its UTF-8
    encoding. *)
Definition unitSuffix (u : TimeUnit) : string :=
  match u with
  | Nanoseconds => " ns/op"
  | Microseconds => " μs/op"
  | Milliseconds => " ms/op"
  | Seconds => " s/op"
  end.

(** The formatting function of each unit, in the words of the
    specification: the value divided by the size of the unit, written
    with two decimal places, then the suffix of the unit. *)
Definition specFormat (u : TimeUnit) : float64 -> string :=
  fun ns =>
    strconv.FormatFloat_f
      (match unitDivisor u with
       | None => ns
       | Some size => fdiv ns (float64_of_Z size)
       end) 2
    ++ unitSuffix u.

(** The smallest time of a group, as [TimeFormatFunc] computes it. *)
Definition smallestOf (g : BenchOutputGroup) : option float64 :=
  match Lines g with
  | [] => None
  | line0 :: rest => Some (smallestTime (bench.NsOp line0) rest)
  end.

(** [m] is a minimum of the times of [g]: the time of one of its
    records, and no record has a time below it. *)
Definition isMinimum (m : float64) (g : BenchOutputGroup) : Prop :=
  In m (map bench.NsOp (Lines g)) /\
  forall line, In line (Lines g) -> flt (bench.NsOp line) m = false.

(** The record [b] with its time set to [v]. *)
Definition withNsOp (b : bench.Bench) (v : float64) : bench.Bench :=
  bench.mkBench (bench.Name b) (bench.N b) v (bench.MbS b) (bench.BOp b)
                (bench.AllocsOp b) (bench.Measured b) (bench.ord b).

Fixpoint replaceNth {A : Type} (l : list A) (i : nat) (a : A) : list A :=
  match l, i with
  | [], _ => []
  | _ :: t, O => a :: t
  | x :: t, S j => x :: replaceNth t j a
  end.

(** The group [g] with the time of its [i]-th record replaced by [v]. *)
Definition replaceTime (g : BenchOutputGroup) (i : nat) (v : float64) : BenchOutputGroup :=
  match nth_error (Lines g) i with
  | Some b => mkGroup (replaceNth (Lines g) i (withNsOp b v)) (Measured g)
  | None => g
  end.

(** ** Concrete inputs *)

(** [Name<TAB>Iterations<TAB>field...], as [go test -bench] prints it. *)
Definition benchLine (name iterations : string) (fields : list string) : string :=
  name ++ String tab iterations
  ++ fold_right (fun f rest => String tab f ++ rest) EmptyString fields.

(** A record as [ParseLine] builds it, with a time of [ns] nanoseconds
    and no other measurement. *)
Definition timed (name : string) (n ns : Z) : bench.Bench :=
  bench.mkBench name n (float64_of_Z ns) fzero 0 0 bench.NsPerOp 0.

(** Two benchmarks of 120 ns and 25 μs. *)
Definition groupFast : BenchOutputGroup :=
  AddLine (AddLine emptyGroup (timed "BenchmarkA" 1000000 120))
          (timed "BenchmarkB" 50000 25000).

(** One benchmark of 120 μs. *)
Definition groupSlow : BenchOutputGroup :=
  AddLine emptyGroup (timed "BenchmarkC" 10000 120000).

(** One benchmark with a time only, as parsed from
    [BenchmarkFoo-8<TAB>1000000<TAB>120 ns/op]. *)
Definition groupOne : BenchOutputGroup :=
  AddLine emptyGroup (timed "BenchmarkFoo-8" 1000000 120).

(** ** Columns *)

(** [if cond then [x] else []] *)
Definition optionalCell (cond : bool) (x : string) : list string :=
  if cond then [x] else [].

(** The bitwise OR of the flags of a list of records. *)
Definition unionMeasured (records : list bench.Bench) : Z :=
  fold_left Z.lor (map bench.Measured records) 0%Z.

(** ** Rows *)

(** The second row as the code builds it: one empty string per column
    from [make], then the runs of dashes that [append] adds. *)
Definition underlineRow (columnNames : list string) : list string :=
  (make (List.length columnNames)
   ++ map (fun name => strings.Repeat "-" (String.length name)) columnNames)%list.

(** The body of the inner loop of [formatTableCells], for a row of
    [rowLen] cells. *)
Definition formatCell (tableMaxLengths : list nat) (rowLen : nat) (buf : string)
  (ic : nat * string) : result string :=
  let format := getFormat (fst ic) rowLen in
  width <- index tableMaxLengths (fst ic) ;;
  Ok (buf ++ fmt.Sprintf (fmt.Sprintf format (fmt.Int (Z.of_nat width)))
                         (fmt.Str (snd ic))).

(** The body of its outer loop. *)
Definition formatRow (tableMaxLengths : list nat) (buf : string) (row : list string)
  : result string :=
  buf <- foldM (formatCell tableMaxLengths (List.length row)) (enumerate row) buf ;;
  Ok (buf ++ String newline EmptyString).

(** The failing input of the rendering claims: one benchmark line and
    the terminator line that follows it. *)
Definition lineFoo : string := benchLine "BenchmarkFoo-8" "1000000" ["120 ns/op"].

Definition okLine : string := "ok  pkg/example  0.120s".

(** A benchmark line with a throughput, its record, and the group that
    holds that record. *)
Definition lineThroughput : string :=
  benchLine "BenchmarkFoo-8" "1000000" ["120 ns/op"; "12.50 MB/s"].

Definition throughputRecord : bench.Bench :=
  bench.mkBench "BenchmarkFoo-8" 1000000
    (float64_of_Z 120) (fdiv (float64_of_Z 25) (float64_of_Z 2)) 0 0 3 0.

Definition groupThroughput : BenchOutputGroup := AddLine emptyGroup throughputRecord.

(** Whether [sub] occurs in [s]. *)
Fixpoint occursIn (sub s : string) : bool :=
  String.prefix sub s
  || match s with
     | EmptyString => false
     | String _ rest => occursIn sub rest
     end.

(** ** Tabs *)

(** Whether a tab byte occurs in [s]. *)
Fixpoint hasTab (s : string) : bool :=
  match s with
  | EmptyString => false
  | String c t => Ascii.eqb c tab || hasTab t
  end.

Definition noTab (s : string) : Prop := hasTab s = false.

(** Every text a pattern matches holds a tab (a sufficient syntactic
    test). *)
Fixpoint needsTab (r : regexp.regex) : bool :=
  match r with
  | regexp.Void => true
  | regexp.Chr c => Ascii.eqb c tab
  | regexp.Cat r1 r2 => needsTab r1 || needsTab r2
  | regexp.Alt r1 r2 => needsTab r1 && needsTab r2
  | regexp.Eps | regexp.AnyNotNL | regexp.Digit | regexp.Space | regexp.Star _ => false
  end.

(** No operand to format, or one without a tab. *)
Definition argNoTab (a : option fmt.arg) : Prop :=
  match a with
  | Some (fmt.Str s) => noTab s
  | _ => True
  end.

(** The names of the records of a group hold no tab. *)
Definition namesNoTab (g : BenchOutputGroup) : Prop :=
  Forall (fun b => noTab (bench.Name b)) (Lines g).

(** ** What the loop of [main] writes *)

(** What [main] writes on standard output for a line that is not a
    terminator line: nothing for a benchmark line, the line itself for
    a line that fails to parse, and for any other line the line itself
    unless pass-through is suppressed. *)
Definition echo (ParseFloat : string -> option float64) (noPassthrough : bool)
  (text : string) : string :=
  match ParseLine ParseFloat text with
  | inl _ => EmptyString
  | inr errNotBenchLine =>
    if noPassthrough then EmptyString else text ++ String newline EmptyString
  | inr (benchError _) => text ++ String newline EmptyString
  end.

(** The records [main] collects from a list of lines. *)
Definition collected (ParseFloat : string -> option float64) (lines : list string)
  : list bench.Bench :=
  flat_map (fun text => match ParseLine ParseFloat text with
                        | inl b => [b]
                        | inr _ => []
                        end) lines.

Definition joined (texts : list string) : string :=
  fold_right append EmptyString texts.

(** ** Metrics *)

(** The four measurements of a benchmark line. *)
Inductive metric : Type :=
| TimePerOp
| Throughput
| BytesAlloc
| Allocs.

Definition unitLabel (m : metric) : string :=
  match m with
  | TimePerOp => "ns/op"
  | Throughput => "MB/s"
  | BytesAlloc => "B/op"
  | Allocs => "allocs/op"
  end.

Definition flagOf (m : metric) : Z :=
  match m with
  | TimePerOp => bench.NsPerOp
  | Throughput => bench.MBPerS
  | BytesAlloc => bench.AllocedBytesPerOp
  | Allocs => bench.AllocsPerOp
  end.

(** Whether the quantity of a field parses as the number its unit
    calls for: a float for [ns/op] and [MB/s], an unsigned integer for
    [B/op] and [allocs/op]. *)
Definition quantityParses (ParseFloat : string -> option float64) (m : metric)
  (quant : string) : bool :=
  match m with
  | TimePerOp | Throughput =>
    match ParseFloat quant with Some _ => true | None => false end
  | BytesAlloc | Allocs =>
    match strconv.ParseUint quant with Some _ => true | None => false end
  end.

(** The record carries nothing for the metric: flag unset, value zero. *)
Definition unmeasured (m : metric) (b : bench.Bench) : Prop :=
  Z.land (bench.Measured b) (flagOf m) = 0%Z /\
  match m with
  | TimePerOp => bench.NsOp b = fzero
  | Throughput => bench.MbS b = fzero
  | BytesAlloc => bench.BOp b = 0%Z
  | Allocs => bench.AllocsOp b = 0%Z
  end.

(** The unit label is one of the four that [parseMeasurement] knows. *)
Definition knownUnit (unit : string) : bool :=
  String.eqb unit "ns/op" || String.eqb unit "MB/s"
  || String.eqb unit "B/op" || String.eqb unit "allocs/op".

(** The record [ParseLine] starts from: name and iteration count. *)
Definition freshBench (name : string) (n : Z) : bench.Bench :=
  bench.mkBench name n fzero fzero 0 0 0 0.

(** More concrete lines. *)
Definition lineWidgets : string := benchLine "BenchmarkFoo" "10" ["5 widgets/op"].

Definition lineTwoFields : string := benchLine "Benchmark" "1" [].

Definition lineBadQuantity : string := benchLine "BenchmarkFoo" "10" ["abc ns/op"].

(** The same with a space where the second tab was:
    [BenchmarkFoo<TAB>10 abc ns/op]. *)
Definition lineBadQuantityOneTab : string :=
  "BenchmarkFoo" ++ String tab "10 abc ns/op".

(** ** The texts a pattern matches *)

(** [lang r w]: the pattern [r] matches the whole of [w]. *)
Inductive lang : regexp.regex -> string -> Prop :=
| langEps : lang regexp.Eps EmptyString
| langChr (c : ascii) : lang (regexp.Chr c) (String c EmptyString)
| langAny (c : ascii) :
    Ascii.eqb c newline = false -> lang regexp.AnyNotNL (String c EmptyString)
| langDigit (c : ascii) :
    isDigit c = true -> lang regexp.Digit (String c EmptyString)
| langSpace (c : ascii) :
    regexp.isSpaceClass c = true -> lang regexp.Space (String c EmptyString)
| langCat (r1 r2 : regexp.regex) (w1 w2 : string) :
    lang r1 w1 -> lang r2 w2 -> lang (regexp.Cat r1 r2) (w1 ++ w2)
| langAltL (r1 r2 : regexp.regex) (w : string) :
    lang r1 w -> lang (regexp.Alt r1 r2) w
| langAltR (r1 r2 : regexp.regex) (w : string) :
    lang r2 w -> lang (regexp.Alt r1 r2) w
| langStarNil (r : regexp.regex) : lang (regexp.Star r) EmptyString
| langStarApp (r : regexp.regex) (w1 w2 : string) :
    lang r w1 -> lang (regexp.Star r) w2 -> lang (regexp.Star r) (w1 ++ w2).

(** ** The text of a table *)

(** What [formatTableCells] writes for the cell [cell] of column [i] in
    a row of [rowLen] cells, the width of the column being [w]: the cell
    padded with spaces to [w] runes, on its right in the first column
    and on its left in the others, and three spaces after it unless the
    column is the last one of the row and not the first. *)
Definition cellText (w i rowLen : nat) (cell : string) : string :=
  let padding := strings.Repeat " " (w - utf8.RuneCountInString cell) in
  if Nat.eqb i 0 then cell ++ padding ++ "   "
  else if Nat.eqb i (rowLen - 1) then padding ++ cell
  else padding ++ cell ++ "   ".

Definition renderCells (widths : list nat) (row : list string) : list string :=
  map (fun ic => cellText (nth (fst ic) widths 0) (fst ic) (List.length row) (snd ic))
      (enumerate row).

Definition renderRow (widths : list nat) (row : list string) : string :=
  joined (renderCells widths row) ++ String newline EmptyString.

Definition renderTable (widths : list nat) (cells : list (list string)) : string :=
  joined (map (renderRow widths) cells).

(** The runes a column takes in a rendered row beyond its width: the
    three spaces that separate it from the next column. *)
Definition gap (i rowLen : nat) : nat :=
  if Nat.eqb i 0 then 3 else if Nat.eqb i (rowLen - 1) then 0 else 3.

(** The number of runes before column [k] in a rendered row. *)
Definition columnStart (widths : list nat) (k : nat) : nat :=
  list_sum (firstn k (map (fun i => nth i widths 0 + gap i (List.length widths))
                          (seq 0 (List.length widths)))).

(** The cell fits the width, counted in runes. *)
Definition fits (cell : string) (w : nat) : Prop := utf8.RuneCountInString cell <= w.

(** The longest cell of column [i], in bytes. *)
Definition columnMax (i : nat) (cells : list (list string)) : nat :=
  list_max (map (fun row => String.length (nth i row EmptyString)) cells).

(** ** Times that are not numbers *)

Definition isNaN (x : float64) : bool :=
  match x with
  | S754_nan => true
  | _ => false
  end.

(** A record whose time is not a number, as parsed from
    [BenchmarkN<TAB>1<TAB>NaN ns/op]. *)
Definition nanRecord : bench.Bench :=
  bench.mkBench "BenchmarkN" 1 S754_nan fzero 0 0 bench.NsPerOp 0.

(** ** Concrete tables *)

(** A table of two columns and three rows. *)
Definition smallTable : list (list string) :=
  [ ["benchmark"; "iter"]; ["---------"; "----"]; ["BenchmarkA-8"; "10"] ].

(** The same with a row that lacks its second cell. *)
Definition raggedTable : list (list string) :=
  [ ["benchmark"; "iter"]; ["BenchmarkA-8"]; ["BenchmarkB-8"; "10"] ].

(** ** What the loop of [main] writes on the diagnostic stream *)

(** The notice for a line that passes the checks of [ParseLine] and
    that the parser then rejects; nothing for any other line. *)
Definition diagnostic (ParseFloat : string -> option float64) (text : string) : string :=
  match ParseLine ParseFloat text with
  | inr (benchError _) => "prettybench unrecognized line:" ++ String newline EmptyString
  | _ => EmptyString
  end.

(** What [fmt.Print] writes for a group at a terminator line: nothing
    for the group without records, the notice of the panic of [String]
    for any other, [n] being the number of columns of the group. *)
Definition printed (g : BenchOutputGroup) : string :=
  match Lines g with
  | [] => EmptyString
  | _ :: _ =>
    "%!v(PANIC=String method: runtime error: index out of range ["
    ++ strconv.FormatInt (Z.of_nat (List.length (columnNames g)))
    ++ "] with length " ++ strconv.FormatInt (Z.of_nat (List.length (columnNames g))) ++ ")"
  end.

(** More concrete lines. *)
Definition lineBadCount : string := benchLine "BenchmarkFoo" "many" ["120 ns/op"].

(** ** Records as the parser builds them *)

(** What every step of the parser keeps: the flags are among the four
    known ones and the two counts are unsigned 64-bit numbers. *)
Definition wellFormed (b : bench.Bench) : Prop :=
  (0 <= bench.Measured b < 16)%Z /\
  (0 <= bench.BOp b < 2 ^ 64)%Z /\
  (0 <= bench.AllocsOp b < 2 ^ 64)%Z /\
  bench.ord b = 0%Z.

(** ** What a record holds for a metric *)

(** The position of the flag of a metric in [Measured]. *)
Definition bitOf (m : metric) : Z :=
  match m with
  | TimePerOp => 0
  | Throughput => 1
  | BytesAlloc => 2
  | Allocs => 3
  end.

(** A quantity as the parser reads it: a float64 for a time or a
    throughput, an unsigned integer for a count. *)
Inductive quantity : Type :=
| Number (x : float64)
| Count (n : Z).

Definition parseQuantity (ParseFloat : string -> option float64) (m : metric)
  (quant : string) : option quantity :=
  match m with
  | TimePerOp | Throughput => option_map Number (ParseFloat quant)
  | BytesAlloc | Allocs => option_map Count (strconv.ParseUint quant)
  end.

(** The field of the record that holds the metric. *)
Definition reading (m : metric) (b : bench.Bench) : quantity :=
  match m with
  | TimePerOp => Number (bench.NsOp b)
  | Throughput => Number (bench.MbS b)
  | BytesAlloc => Count (bench.BOp b)
  | Allocs => Count (bench.AllocsOp b)
  end.

(** The fields of a line: a name, an iteration count, and the pairs of
    a quantity and a unit that follow. *)
Definition fieldsTwice : list string :=
  ["BenchmarkFoo"; "10"; "5"; "ns/op"; "7"; "ns/op"; "16"; "B/op"].

(** The test of the parser on a pair of fields for a metric: the unit
    is the label of the metric and the quantity parses. *)
Definition carries (ParseFloat : string -> option float64) (m : metric)
  (fields : list string) (i : nat) : bool :=
  String.eqb (nth (i * 2 + 1) fields EmptyString) (unitLabel m)
  && quantityParses ParseFloat m (nth (i * 2) fields EmptyString).

(** ** The table of the earlier revision *)

(** One run of dashes per column, as long as the name of the column. *)
Definition dashes (columnNames : list string) : list string :=
  map (fun name => strings.Repeat "-" (String.length name)) columnNames.

(** The columns in use in a group of the earlier revision. *)
Definition presentColumns (g : WithBenchcmp.BenchOutputGroup) : list string :=
  (["benchmark"; "iter"; "time/iter"]
   ++ optionalCell (WithBenchcmp.MegaBytesPresent g) "throughput"
   ++ optionalCell (WithBenchcmp.BytesAllocPresent g) "bytes alloc"
   ++ optionalCell (WithBenchcmp.AllocsPresent g) "allocs")%list.

(** The row of a record. *)
Definition presentRow (g : WithBenchcmp.BenchOutputGroup) (timeFormatFunc : float64 -> string)
  (line : bench.Bench) : list string :=
  ([bench.Name line; WithBenchcmp.FormatIterations (bench.N line);
    timeFormatFunc (bench.NsOp line)]
   ++ optionalCell (WithBenchcmp.MegaBytesPresent g) (WithBenchcmp.FormatMegaBytesPerSecond line)
   ++ optionalCell (WithBenchcmp.BytesAllocPresent g) (WithBenchcmp.FormatBytesAllocPerOp line)
   ++ optionalCell (WithBenchcmp.AllocsPresent g) (WithBenchcmp.FormatAllocsPerOp line))%list.

(** The suffix of each unit as the earlier revision writes it: its
    micro sign is four bytes, the two of [unitSuffix] read as Latin-1
    and encoded once more. *)
Definition earlierSuffix (u : TimeUnit) : string :=
  match u with
  | Microseconds => " Î¼s/op"
  | _ => unitSuffix u
  end.

(** The formatting function of each unit in the earlier revision. *)
Definition earlierFormat (u : TimeUnit) : float64 -> string :=
  fun ns =>
    strconv.FormatFloat_f
      (match unitDivisor u with
       | None => ns
       | Some size => fdiv ns (float64_of_Z size)
       end) 2
    ++ earlierSuffix u.

(** The header, the dashes under it, then the records in order. *)
Definition presentTable (g : WithBenchcmp.BenchOutputGroup) (timeFormatFunc : float64 -> string)
  : list (list string) :=
  presentColumns g :: dashes (presentColumns g)
  :: map (presentRow g timeFormatFunc) (WithBenchcmp.Lines g).

(** The widths of the columns of a table of [n] columns. *)
Definition columnWidths (n : nat) (cells : list (list string)) : list nat :=
  map (fun i => columnMax i cells) (seq 0 n).

(** Every row has [n] cells. *)
Definition rectangular (n : nat) (cells : list (list string)) : Prop :=
  forall row, In row cells -> List.length row = n.

(** No cell is longer than a million bytes, the largest width that [fmt]
    reads in a format. *)
Definition cellsBelowLimit (cells : list (list string)) : Prop :=
  forall row cell, In row cells -> In cell row -> (Z.of_nat (String.length cell) <= 1000000)%Z.

(** The group of the earlier revision that holds the one record parsed
    from [BenchmarkFoo-8<TAB>1000000<TAB>120 ns/op]. *)
Definition earlierOne : WithBenchcmp.BenchOutputGroup :=
  WithBenchcmp.AddLine WithBenchcmp.emptyGroup (timed "BenchmarkFoo-8" 1000000 120).

(** ** The revision with a parser of its own *)

(** A field of a line reads as a measurement: trimmed and split at its
    spaces it is a quantity and a unit, the unit is one of the four, and
    the quantity parses as the unit calls for, a float for [MB/s] and
    an integer for the others. *)
Definition fieldReads (ParseFloat : string -> option float64) (field : string) : bool :=
  match strings.Split (strings.TrimSpace field) " " with
  | [quant; unit] =>
    if String.eqb unit "MB/s"
    then match ParseFloat quant with Some _ => true | None => false end
    else match strconv.Atoi quant with Some _ => true | None => false end
         && (String.eqb unit "ns/op" || String.eqb unit "B/op" || String.eqb unit "allocs/op")
  | _ => false
  end.

(** The unit for a smallest time of [smallest] nanoseconds. *)
Definition durationUnit (smallest : Z) : TimeUnit :=
  if (smallest <? 10000)%Z then Nanoseconds
  else if (smallest <? 1000000)%Z then Microseconds
  else if (smallest <? 10000000000)%Z then Milliseconds
  else Seconds.

(** How a time of [d] nanoseconds is written in each unit: a whole
    number of nanoseconds, two decimal places in the other units. *)
Definition durationFormat (u : TimeUnit) (d : Z) : string :=
  match u with
  | Nanoseconds => strconv.FormatInt d ++ " ns/op"
  | Microseconds =>
    strconv.FormatFloat_f (fdiv (float64_of_Z d) (float64_of_Z 1000)) 2 ++ " μs/op"
  | Milliseconds =>
    strconv.FormatFloat_f (fmul (OwnParser.Seconds d) (float64_of_Z 1000)) 2 ++ " ms/op"
  | Seconds => strconv.FormatFloat_f (OwnParser.Seconds d) 2 ++ " s/op"
  end.

(** The least of the times of a list of records, [first] if there is
    none below it. *)
Definition leastDuration (first : Z) (rest : list OwnParser.BenchOutput) : Z :=
  fold_left Z.min (map OwnParser.TimePerIteration rest) first.

Definition isSome {A : Type} (o : option A) : bool :=
  match o with
  | Some _ => true
  | None => false
  end.

(** The columns in use, the row of a record and the table of a group. *)
Definition ownColumns (g : OwnParser.BenchOutputGroup) : list string :=
  (["benchmark"; "iter"; "time/iter"]
   ++ optionalCell (OwnParser.BytesPresent g) "throughput"
   ++ optionalCell (OwnParser.BytesAllocPresent g) "bytes alloc"
   ++ optionalCell (OwnParser.AllocsPresent g) "allocs")%list.

Definition ownRow (g : OwnParser.BenchOutputGroup) (timeFormatFunc : Z -> string)
  (line : OwnParser.BenchOutput) : list string :=
  ([OwnParser.Name line; OwnParser.FormatIterations (OwnParser.Iterations line);
    timeFormatFunc (OwnParser.TimePerIteration line)]
   ++ optionalCell (OwnParser.BytesPresent g)
        (OwnParser.FormatBytesPerSecond (OwnParser.BytesPerSecond line))
   ++ optionalCell (OwnParser.BytesAllocPresent g)
        (OwnParser.FormatBytesAllocPerOp (OwnParser.BytesAllocPerOp line))
   ++ optionalCell (OwnParser.AllocsPresent g)
        (OwnParser.FormatAllocsPerOp (OwnParser.AllocsPerOp line)))%list.

Definition ownTable (g : OwnParser.BenchOutputGroup) (timeFormatFunc : Z -> string)
  : list (list string) :=
  ownColumns g :: dashes (ownColumns g) :: map (ownRow g timeFormatFunc) (OwnParser.Lines g).

(** Concrete lines and records. *)
Definition lineFraction : string := benchLine "BenchmarkFoo" "10" ["3.884 ns/op"].

Definition lineFull : string :=
  benchLine "BenchmarkFoo-8" " 1000000"
    ["      1234 ns/op"; "  12.50 MB/s"; "      16 B/op"; "       1 allocs/op"].

Definition ownOne : OwnParser.BenchOutputGroup :=
  OwnParser.AddLine OwnParser.emptyGroup
    (OwnParser.mkOutput "BenchmarkFoo-8" 1000000 120 None None None).

(* ================================================================== *)
(** * Part 4: lemmas and theorems                                      *)
(* ================================================================== *)

(** ** The run-time model on concrete inputs *)

Example Fields_ascii :
  strings.Fields (" a" ++ String tab "b  c" ++ String newline EmptyString) = ["a"; "b"; "c"].
Proof. reflexivity. Qed.

(** U+00A0, encoded as the bytes C2 A0, is a space for [strings.Fields];
    the lone byte A0 is not. *)
Example Fields_no_break_space :
  strings.Fields ("a" ++ String (ascii_of_nat 194) (String (ascii_of_nat 160) "b")) = ["a"; "b"]
  /\ List.length (strings.Fields ("a" ++ String (ascii_of_nat 160) "b")) = 1.
Proof. split; reflexivity. Qed.

Example RuneCount_micro :
  String.length " μs/op" = 7 /\ utf8.RuneCountInString " μs/op" = 6.
Proof. split; reflexivity. Qed.

Example Atoi_examples :
  strconv.Atoi "1000000" = Some 1000000%Z /\
  strconv.Atoi "+12" = Some 12%Z /\
  strconv.Atoi "-12" = Some (-12)%Z /\
  strconv.Atoi "1_0" = None /\
  strconv.Atoi "12x" = None /\
  strconv.Atoi "-" = None /\
  strconv.Atoi "9223372036854775807" = Some 9223372036854775807%Z /\
  strconv.Atoi "9223372036854775808" = None.
Proof. repeat split. Qed.

Example ParseUint_examples :
  strconv.ParseUint "16" = Some 16%Z /\
  strconv.ParseUint "+16" = None /\
  strconv.ParseUint "" = None /\
  strconv.ParseUint "18446744073709551616" = None.
Proof. repeat split. Qed.

Example ParseFloat_examples :
  strconv.ParseFloat "120" = Some (float64_of_Z 120) /\
  strconv.ParseFloat "1e3" = Some (float64_of_Z 1000) /\
  strconv.ParseFloat "0.1" = Some (S754_finite false 7205759403792794 (-56)) /\
  strconv.ParseFloat "NaN" = Some S754_nan /\
  strconv.ParseFloat "abc" = None /\
  strconv.ParseFloat "1e400" = None.
Proof. repeat split. Qed.

(** Two decimal places, ties to even on the exact value: 0.125 and
    0.375 are exact in binary, 0.005 and 2.675 are not. *)
Example FormatFloat_examples :
  option_map (fun x => strconv.FormatFloat_f x 2) (strconv.ParseFloat "0.125") = Some "0.12" /\
  option_map (fun x => strconv.FormatFloat_f x 2) (strconv.ParseFloat "0.375") = Some "0.38" /\
  option_map (fun x => strconv.FormatFloat_f x 2) (strconv.ParseFloat "0.005") = Some "0.01" /\
  option_map (fun x => strconv.FormatFloat_f x 2) (strconv.ParseFloat "2.675") = Some "2.67" /\
  option_map (fun x => strconv.FormatFloat_f x 2) (strconv.ParseFloat "-0.001") = Some "-0.00" /\
  option_map (fun x => strconv.FormatFloat_f x 2) (strconv.ParseFloat "1234.5678")
  = Some "1234.57".
Proof. repeat split. Qed.

Example Sprintf_examples :
  fmt.Sprintf "%%-%ds   " (fmt.Int 14) = "%-14s   " /\
  fmt.Sprintf "%-14s   " (fmt.Str "benchmark") = "benchmark        " /\
  fmt.Sprintf "%6s" (fmt.Str "iter") = "  iter" /\
  fmt.Sprintf "%2s" (fmt.Str "iter") = "iter" /\
  fmt.Sprintf "%d B/op" (fmt.Int 16) = "16 B/op" /\
  fmt.Sprintf "%.2f MB/s" (fmt.Float (float64_of_Z 800)) = "800.00 MB/s".
Proof. repeat split. Qed.

Example benchLineMatcher_examples :
  regexp.MatchString benchLineMatcher lineFoo = true /\
  regexp.MatchString benchLineMatcher "BenchmarkFoo-8 1000000 120 ns/op" = false /\
  regexp.MatchString benchLineMatcher ("Foo" ++ String tab "10") = false /\
  regexp.MatchString benchLineMatcher ("Benchmark" ++ String tab "x") = false.
Proof. repeat split. Qed.

Example okLineMatcher_examples :
  regexp.MatchString okLineMatcher okLine = true /\
  regexp.MatchString okLineMatcher "okay" = false /\
  regexp.MatchString okLineMatcher "ok" = false /\
  regexp.MatchString okLineMatcher " ok " = false.
Proof. repeat split. Qed.

(** ** Order on float64 *)

Lemma flt_Lt (x y : float64) : flt x y = true <-> SFcompare x y = Some Lt.
Proof.
  unfold flt, SFltb. destruct (SFcompare x y) as [[ | | ] | ]; split; congruence.
Qed.

Lemma fle_not_Gt (x y : float64) :
  fle x y = true <-> (SFcompare x y = Some Lt \/ SFcompare x y = Some Eq).
Proof.
  unfold fle, SFleb. destruct (SFcompare x y) as [[ | | ] | ]; split;
    intros; try tauto; try congruence; destruct H; congruence.
Qed.

Ltac float_cases :=
  repeat match goal with
         | b : bool |- _ => destruct b
         end;
  simpl; try congruence;
  repeat match goal with
         | |- context [Z.compare ?a ?b] => destruct (Z.compare_spec a b)
         | |- context [Pos.compare_cont Eq ?a ?b] =>
           change (Pos.compare_cont Eq a b) with (Pos.compare a b);
           destruct (Pos.compare_spec a b)
         end;
  simpl; try congruence; try lia.

Lemma SFcompare_antisym (x y : float64) :
  SFcompare y x = option_map CompOpp (SFcompare x y).
Proof.
  destruct x as [sx | sx | | sx mx ex], y as [sy | sy | | sy my ey]; simpl;
    try reflexivity; float_cases.
Qed.

Lemma SFcompare_Lt_trans (x y z : float64) :
  SFcompare x y = Some Lt -> SFcompare y z = Some Lt -> SFcompare x z = Some Lt.
Proof.
  destruct x as [sx | sx | | sx mx ex], y as [sy | sy | | sy my ey],
           z as [sz | sz | | sz mz ez]; simpl; try congruence; float_cases.
Qed.

Lemma SFcompare_Eq_Lt_trans (x y z : float64) :
  SFcompare x y = Some Eq -> SFcompare y z = Some Lt -> SFcompare x z = Some Lt.
Proof.
  destruct x as [sx | sx | | sx mx ex], y as [sy | sy | | sy my ey],
           z as [sz | sz | | sz mz ez]; simpl; try congruence; float_cases.
Qed.

Lemma flt_irrefl (x : float64) : flt x x = false.
Proof.
  destruct (flt x x) eqn:E; [ | reflexivity ].
  apply flt_Lt in E. pose proof (SFcompare_antisym x x) as H.
  rewrite E in H. discriminate H.
Qed.

Lemma flt_trans (x y z : float64) :
  flt x y = true -> flt y z = true -> flt x z = true.
Proof.
  rewrite !flt_Lt. apply SFcompare_Lt_trans.
Qed.

Lemma fle_flt_trans (x y z : float64) :
  fle x y = true -> flt y z = true -> flt x z = true.
Proof.
  rewrite fle_not_Gt, !flt_Lt. intros [H | H] Hyz.
  - eapply SFcompare_Lt_trans; eassumption.
  - eapply SFcompare_Eq_Lt_trans; eassumption.
Qed.

Lemma flt_not_nan_l (x y : float64) : flt x y = true -> x <> S754_nan.
Proof. intros H ->. discriminate H. Qed.

Lemma flt_not_nan_r (x y : float64) : flt x y = true -> y <> S754_nan.
Proof. intros H ->. destruct x; discriminate H. Qed.

Lemma SFcompare_defined (x y : float64) :
  x <> S754_nan -> y <> S754_nan -> exists c, SFcompare x y = Some c.
Proof.
  destruct x, y; simpl; intros Hx Hy; try congruence; eexists; reflexivity.
Qed.

(** On numbers the order is total: what is not below is above or equal. *)
Lemma not_flt_fle (x y : float64) :
  x <> S754_nan -> y <> S754_nan -> flt x y = false -> fle y x = true.
Proof.
  intros Hx Hy H. destruct (SFcompare_defined x y Hx Hy) as [c Hc].
  apply fle_not_Gt. rewrite (SFcompare_antisym x y), Hc.
  unfold flt, SFltb in H. rewrite Hc in H.
  destruct c; simpl; auto; discriminate H.
Qed.

Lemma fle_not_flt (x y : float64) : fle x y = true -> flt y x = false.
Proof.
  rewrite fle_not_Gt. unfold flt, SFltb. rewrite (SFcompare_antisym x y).
  intros [-> | ->]; reflexivity.
Qed.

(** ** The smallest time of a group *)

Lemma smallestTime_spec (rest : list bench.Bench) :
  forall first : float64,
    let m := smallestTime first rest in
    (m = first \/ (In m (map bench.NsOp rest) /\ flt m first = true)) /\
    flt first m = false /\
    (forall line, In line rest -> flt (bench.NsOp line) m = false).
Proof.
  induction rest as [ | l rest IH]; intros first; cbn zeta.
  - simpl. repeat split; auto using flt_irrefl. intros line [].
  - unfold smallestTime; simpl; fold (smallestTime
      (if flt (bench.NsOp l) first then bench.NsOp l else first) rest).
    destruct (flt (bench.NsOp l) first) eqn:El.
    + destruct (IH (bench.NsOp l)) as (Hm & Hl & Hrest). cbn zeta in *.
      set (m := smallestTime (bench.NsOp l) rest) in *.
      split; [ | split ].
      * right. destruct Hm as [-> | [Hin Hlt]].
        -- split; [ left; reflexivity | exact El ].
        -- split; [ right; exact Hin | eapply flt_trans; eassumption ].
      * destruct (flt first m) eqn:Ef; [ | reflexivity ].
        rewrite (flt_trans _ _ _ El Ef) in Hl. discriminate Hl.
      * intros line [<- | Hin]; auto.
    + destruct (IH first) as (Hm & Hf & Hrest). cbn zeta in *.
      set (m := smallestTime first rest) in *.
      split; [ | split ].
      * destruct Hm as [-> | [Hin Hlt]]; [ left; reflexivity | right ].
        split; [ right; exact Hin | exact Hlt ].
      * exact Hf.
      * intros line [<- | Hin]; auto.
        destruct Hm as [Hm | [Hin Hlt]]; [ rewrite Hm; exact El | ].
        destruct (flt (bench.NsOp l) m) eqn:Elm; [ | reflexivity ].
        rewrite (flt_trans _ _ _ Elm Hlt) in El. discriminate El.
Qed.

Lemma smallestOf_isMinimum (g : BenchOutputGroup) (m : float64) :
  smallestOf g = Some m -> isMinimum m g.
Proof.
  unfold smallestOf, isMinimum. destruct (Lines g) as [ | line0 rest]; [ discriminate | ].
  intros [= <-]. destruct (smallestTime_spec rest (bench.NsOp line0)) as (Hm & Hf & Hrest).
  cbn zeta in *. split.
  - simpl. destruct Hm as [-> | [Hin _]]; auto.
  - intros line [<- | Hin]; auto.
Qed.

(** The cascade of comparisons in [TimeFormatFunc] reads the table of
    the specification. *)
Lemma cascade_specUnit (A : Type) (smallest : float64) (a1 a2 a3 a4 : A) :
  (if flt smallest (float64_of_Z (10000 * time.Nanosecond)) then a1
   else if flt smallest (float64_of_Z time.Millisecond) then a2
   else if flt smallest (float64_of_Z (10 * time.Second)) then a3
   else a4)
  = match specUnit smallest with
    | Nanoseconds => a1
    | Microseconds => a2
    | Milliseconds => a3
    | Seconds => a4
    end.
Proof.
  unfold specUnit.
  change (float64_of_Z (10000 * time.Nanosecond)) with (float64_of_Z 10000).
  change (float64_of_Z time.Millisecond) with (float64_of_Z 1000000).
  change (float64_of_Z (10 * time.Second)) with (float64_of_Z 10000000000).
  destruct (flt smallest (float64_of_Z 10000)) eqn:E1; [ reflexivity | ].
  destruct (flt smallest (float64_of_Z 1000000)) eqn:E2.
  - rewrite (not_flt_fle smallest (float64_of_Z 10000)); auto.
    + eapply flt_not_nan_l; eassumption.
    + discriminate.
  - rewrite andb_false_r.
    destruct (flt smallest (float64_of_Z 10000000000)) eqn:E3.
    + rewrite (not_flt_fle smallest (float64_of_Z 1000000)); auto.
      * eapply flt_not_nan_l; eassumption.
      * discriminate.
    + rewrite andb_false_r. reflexivity.
Qed.

Lemma TimeFormatFunc_spec (g : BenchOutputGroup) (smallest : float64) :
  smallestOf g = Some smallest ->
  TimeFormatFunc g = Ok (specFormat (specUnit smallest)).
Proof.
  unfold smallestOf, TimeFormatFunc. destruct (Lines g) as [ | line0 rest]; [ discriminate | ].
  intros [= <-]. cbn [index nth_error bind List.tl].
  rewrite (cascade_specUnit _ (smallestTime (bench.NsOp line0) rest)).
  destruct (specUnit (smallestTime (bench.NsOp line0) rest)); reflexivity.
Qed.

(** ** The table that [tabulate] builds *)

Lemma fold_left_snoc (A B : Type) (f : A -> B) (l : list A) (acc : list B) :
  fold_left (fun acc a => (acc ++ [f a])%list) l acc = (acc ++ map f l)%list.
Proof.
  revert acc. induction l as [ | a l IH]; intros acc; simpl.
  - now rewrite app_nil_r.
  - rewrite IH, <- app_assoc. reflexivity.
Qed.

Lemma fold_left_rows (f : bench.Bench -> list string) (l : list bench.Bench) (t : Table) :
  fold_left (fun table line => mkTable (MaxLengths table) (Cells table ++ [f line])%list) l t
  = mkTable (MaxLengths t) (Cells t ++ map f l)%list.
Proof.
  revert t. induction l as [ | a l IH]; intros t; simpl.
  - rewrite app_nil_r. destruct t; reflexivity.
  - rewrite IH. simpl. rewrite <- app_assoc. reflexivity.
Qed.

Lemma tabulate_cells (g : BenchOutputGroup) (cols : list string) (f : float64 -> string) :
  TimeFormatFunc g = Ok f ->
  tabulate g cols
  = Ok (mkTable [] (cols :: underlineRow cols :: map (tabulateRow g f) (Lines g))).
Proof.
  intros Hf. unfold tabulate. rewrite Hf. cbn [bind].
  rewrite fold_left_rows, (fold_left_snoc _ _ (fun name => strings.Repeat "-" (String.length name))).
  reflexivity.
Qed.

Lemma tabulateRow_time (g : BenchOutputGroup) (f : float64 -> string) (line : bench.Bench) :
  nth_error (tabulateRow g f line) 2 = Some (f (bench.NsOp line)).
Proof.
  unfold tabulateRow.
  destruct (0 <? Z.land (Measured g) bench.MBPerS)%Z,
           (0 <? Z.land (Measured g) bench.AllocedBytesPerOp)%Z,
           (0 <? Z.land (Measured g) bench.AllocsPerOp)%Z; reflexivity.
Qed.

Lemma smallestOf_nonempty (g : BenchOutputGroup) :
  Lines g <> [] -> exists smallest, smallestOf g = Some smallest.
Proof.
  unfold smallestOf. destruct (Lines g); [ congruence | eexists; reflexivity ].
Qed.

(** C1. For every non-empty group, the smallest time [TimeFormatFunc]
    finds is a minimum of the times of the group (the time of one of its
    records, no record below it); the formatting function it returns is
    the one the threshold table gives for that minimum (nanoseconds
    below 10,000, microseconds from 10,000 up to 1,000,000, milliseconds
    from 1,000,000 up to 10,000,000,000, seconds otherwise, each with
    two decimal places, its divisor and its suffix); and [tabulate]
    puts in the time cell of every record's row that same function
    applied to the record's time. *)
Theorem C1_time_unit_by_thresholds (g : BenchOutputGroup) :
  Lines g <> [] ->
  exists smallest : float64,
    smallestOf g = Some smallest /\
    isMinimum smallest g /\
    TimeFormatFunc g = Ok (specFormat (specUnit smallest)) /\
    forall columnNames : list string,
    exists table : Table,
      tabulate g columnNames = Ok table /\
      forall (i : nat) (line : bench.Bench),
        nth_error (Lines g) i = Some line ->
        exists row : list string,
          nth_error (Cells table) (2 + i) = Some row /\
          nth_error row 2 = Some (specFormat (specUnit smallest) (bench.NsOp line)).
Proof.
  intros Hne. destruct (smallestOf_nonempty g Hne) as [smallest Hs].
  exists smallest. split; [ exact Hs | ].
  split; [ apply smallestOf_isMinimum; exact Hs | ].
  pose proof (TimeFormatFunc_spec g smallest Hs) as Hf.
  split; [ exact Hf | ].
  intros cols. eexists. split; [ apply tabulate_cells; exact Hf | ].
  intros i line Hi. exists (tabulateRow g (specFormat (specUnit smallest)) line).
  split.
  - cbn [Cells Nat.add nth_error]. now apply map_nth_error.
  - apply tabulateRow_time.
Qed.

(** C1 on two benchmarks of 120 ns and 25 μs. *)
Lemma C1_witness :
  Lines groupFast <> [] /\
  exists smallest : float64,
    smallestOf groupFast = Some smallest /\
    isMinimum smallest groupFast /\
    TimeFormatFunc groupFast = Ok (specFormat (specUnit smallest)) /\
    forall columnNames : list string,
    exists table : Table,
      tabulate groupFast columnNames = Ok table /\
      forall (i : nat) (line : bench.Bench),
        nth_error (Lines groupFast) i = Some line ->
        exists row : list string,
          nth_error (Cells table) (2 + i) = Some row /\
          nth_error row 2 = Some (specFormat (specUnit smallest) (bench.NsOp line)).
Proof.
  split; [ discriminate | apply (C1_time_unit_by_thresholds groupFast); discriminate ].
Defined.

(** What C1 gives on the two benchmarks: nanoseconds for both rows. *)
Example groupFast_rows :
  exists f : float64 -> string,
    TimeFormatFunc groupFast = Ok f /\
    map f (map bench.NsOp (Lines groupFast)) = ["120.00 ns/op"; "25000.00 ns/op"].
Proof. eexists. split; reflexivity. Qed.

Example groupSlow_rows :
  exists f : float64 -> string,
    TimeFormatFunc groupSlow = Ok f /\
    map f (map bench.NsOp (Lines groupSlow))
    = ["120.00 " ++ String (ascii_of_nat 206) (String (ascii_of_nat 188) "s/op")].
Proof. eexists. split; reflexivity. Qed.

(** ** Unit selection is monotonic *)

Lemma specUnit_cascade (x : float64) :
  specUnit x
  = if flt x (float64_of_Z 10000) then Nanoseconds
    else if flt x (float64_of_Z 1000000) then Microseconds
    else if flt x (float64_of_Z 10000000000) then Milliseconds
    else Seconds.
Proof.
  pose proof (cascade_specUnit TimeUnit x Nanoseconds Microseconds Milliseconds Seconds) as H.
  destruct (specUnit x); exact (eq_sym H).
Qed.

Lemma specUnit_mono (x y : float64) :
  flt x y = true -> unitRank (specUnit x) <= unitRank (specUnit y).
Proof.
  intros Hxy. rewrite !specUnit_cascade.
  destruct (flt y (float64_of_Z 10000)) eqn:E1.
  { rewrite (flt_trans _ _ _ Hxy E1). apply le_n. }
  destruct (flt y (float64_of_Z 1000000)) eqn:E2.
  { rewrite (flt_trans _ _ _ Hxy E2).
    destruct (flt x (float64_of_Z 10000)); simpl; lia. }
  destruct (flt y (float64_of_Z 10000000000)) eqn:E3.
  { rewrite (flt_trans _ _ _ Hxy E3).
    destruct (flt x (float64_of_Z 10000)), (flt x (float64_of_Z 1000000)); simpl; lia. }
  destruct (flt x (float64_of_Z 10000)), (flt x (float64_of_Z 1000000)),
           (flt x (float64_of_Z 10000000000)); simpl; lia.
Qed.

(** The four formatting functions differ, so the function returned by
    [TimeFormatFunc] names its unit. *)
Lemma specFormat_inj (u u' : TimeUnit) : specFormat u = specFormat u' -> u = u'.
Proof.
  intros H. apply (f_equal (fun f => f fzero)) in H.
  destruct u, u'; try reflexivity; vm_compute in H; discriminate H.
Qed.

Lemma smallestTime_nan_iff (first : float64) (rest : list bench.Bench) :
  smallestTime first rest = S754_nan <-> first = S754_nan.
Proof.
  destruct (smallestTime_spec rest first) as (Hm & _ & _). cbn zeta in Hm. split.
  - intros E. destruct Hm as [Hm | [_ Hlt]]; [ congruence | ].
    rewrite E in Hlt. discriminate Hlt.
  - intros E. destruct Hm as [Hm | [_ Hlt]]; [ congruence | ].
    apply flt_not_nan_r in Hlt. contradiction.
Qed.

Lemma nth_error_replaceNth (A : Type) (l : list A) (i : nat) (a b : A) :
  nth_error l i = Some b -> nth_error (replaceNth l i a) i = Some a.
Proof.
  revert i. induction l as [ | x l IH]; intros [ | i]; simpl; try discriminate; auto.
Qed.

Lemma hd_replaceNth (A : Type) (l : list A) (i : nat) (a b : A) :
  nth_error l i = Some b ->
  exists first rest,
    replaceNth l i a = first :: rest /\
    (first = a \/ exists rest0, l = first :: rest0).
Proof.
  destruct l as [ | x l]; destruct i as [ | i]; simpl; try discriminate; intros _.
  - exists a, l. auto.
  - exists x, (replaceNth l i a). split; [ reflexivity | right; eexists; reflexivity ].
Qed.

(** C6. Unit selection is monotonic: in a non-empty group, replacing
    the smallest time by a strictly smaller non-negative value never
    moves the chosen display unit to a coarser one (the units ranked
    ns, μs, ms, s from finest to coarsest). *)
Theorem C6_unit_selection_monotonic
  (g : BenchOutputGroup) (i : nat) (line : bench.Bench) (smallest v : float64) :
  smallestOf g = Some smallest ->
  nth_error (Lines g) i = Some line ->
  bench.NsOp line = smallest ->
  fle fzero v = true ->
  flt v smallest = true ->
  exists smallest' : float64,
    smallestOf (replaceTime g i v) = Some smallest' /\
    TimeFormatFunc g = Ok (specFormat (specUnit smallest)) /\
    TimeFormatFunc (replaceTime g i v) = Ok (specFormat (specUnit smallest')) /\
    unitRank (specUnit smallest') <= unitRank (specUnit smallest).
Proof.
  intros Hs Hi _ _ Hv.
  assert (Hvn : v <> S754_nan) by (eapply flt_not_nan_l; eassumption).
  assert (Hsn : smallest <> S754_nan) by (eapply flt_not_nan_r; eassumption).
  unfold replaceTime. rewrite Hi.
  set (g' := mkGroup (replaceNth (Lines g) i (withNsOp line v)) (Measured g)).
  destruct (hd_replaceNth _ (Lines g) i (withNsOp line v) line Hi)
    as (first & rest & Hlines & Hfirst).
  assert (Hs' : smallestOf g' = Some (smallestTime (bench.NsOp first) rest)).
  { unfold smallestOf, g'. cbn [Lines]. rewrite Hlines. reflexivity. }
  exists (smallestTime (bench.NsOp first) rest).
  split; [ exact Hs' | ].
  split; [ apply TimeFormatFunc_spec; exact Hs | ].
  split; [ apply TimeFormatFunc_spec; exact Hs' | ].
  apply specUnit_mono.
  apply (fle_flt_trans _ v); [ | exact Hv ].
  apply not_flt_fle; [ exact Hvn | | ].
  - rewrite smallestTime_nan_iff.
    destruct Hfirst as [-> | [rest0 Hl]]; [ exact Hvn | ].
    unfold smallestOf in Hs. rewrite Hl in Hs. injection Hs as Hs.
    intros E. apply Hsn. rewrite <- Hs. apply smallestTime_nan_iff. exact E.
  - destruct (smallestOf_isMinimum g' _ Hs') as [_ Hmin].
    apply (Hmin (withNsOp line v)).
    apply nth_error_In with (n := i). unfold g'. cbn [Lines].
    eapply nth_error_replaceNth. exact Hi.
Qed.

(** C6 on one benchmark of 120 μs whose time drops to 50 ns. *)
Lemma C6_witness :
  exists smallest' : float64,
    smallestOf (replaceTime groupSlow 0 (float64_of_Z 50)) = Some smallest' /\
    TimeFormatFunc groupSlow = Ok (specFormat (specUnit (float64_of_Z 120000))) /\
    TimeFormatFunc (replaceTime groupSlow 0 (float64_of_Z 50))
    = Ok (specFormat (specUnit smallest')) /\
    unitRank (specUnit smallest') <= unitRank (specUnit (float64_of_Z 120000)).
Proof.
  apply (C6_unit_selection_monotonic groupSlow 0 (timed "BenchmarkC" 10000 120000)
           (float64_of_Z 120000) (float64_of_Z 50)); reflexivity.
Defined.

Example groupSlow_units :
  specUnit (float64_of_Z 120000) = Microseconds /\
  smallestOf (replaceTime groupSlow 0 (float64_of_Z 50)) = Some (float64_of_Z 50) /\
  specUnit (float64_of_Z 50) = Nanoseconds.
Proof. repeat split. Qed.

(** ** The flags of a group and its columns *)

Lemma land_flag_testbit (m : Z) (k : Z) :
  (0 <= k)%Z -> (0 <? Z.land m (Z.shiftl 1 k))%Z = Z.testbit m k.
Proof.
  intros Hk. rewrite Z.shiftl_1_l.
  assert (E : Z.land m (2 ^ k) = if Z.testbit m k then (2 ^ k)%Z else 0%Z).
  { apply Z.bits_inj'. intros n Hn. rewrite Z.land_spec, Z.pow2_bits_eqb by exact Hk.
    destruct (Z.eqb_spec k n) as [-> | Hne].
    - rewrite andb_true_r. destruct (Z.testbit m n) eqn:E.
      + rewrite Z.pow2_bits_eqb, Z.eqb_refl by exact Hn. reflexivity.
      + now rewrite Z.bits_0.
    - rewrite andb_false_r. destruct (Z.testbit m k).
      + rewrite Z.pow2_bits_eqb by exact Hk. symmetry. now apply Z.eqb_neq.
      + now rewrite Z.bits_0. }
  rewrite E. destruct (Z.testbit m k); [ | reflexivity ].
  apply Z.ltb_lt. apply Z.pow_pos_nonneg; lia.
Qed.

Lemma columnNames_flags (g : BenchOutputGroup) :
  columnNames g
  = (["benchmark"; "iter"; "time/iter"]
     ++ optionalCell (Z.testbit (Measured g) 1) "throughput"
     ++ optionalCell (Z.testbit (Measured g) 2) "bytes alloc"
     ++ optionalCell (Z.testbit (Measured g) 3) "allocs")%list.
Proof.
  unfold columnNames, bench.MBPerS, bench.AllocedBytesPerOp, bench.AllocsPerOp.
  rewrite !land_flag_testbit by lia.
  destruct (Z.testbit (Measured g) 1), (Z.testbit (Measured g) 2),
           (Z.testbit (Measured g) 3); reflexivity.
Qed.

Lemma tabulateRow_flags (g : BenchOutputGroup) (f : float64 -> string) (line : bench.Bench) :
  tabulateRow g f line
  = ([bench.Name line; FormatIterations (bench.N line); f (bench.NsOp line)]
     ++ optionalCell (Z.testbit (Measured g) 1) (FormatMegaBytesPerSecond line)
     ++ optionalCell (Z.testbit (Measured g) 2) (FormatBytesAllocPerOp line)
     ++ optionalCell (Z.testbit (Measured g) 3) (FormatAllocsPerOp line))%list.
Proof.
  unfold tabulateRow, bench.MBPerS, bench.AllocedBytesPerOp, bench.AllocsPerOp.
  rewrite !land_flag_testbit by lia.
  destruct (Z.testbit (Measured g) 1), (Z.testbit (Measured g) 2),
           (Z.testbit (Measured g) 3); reflexivity.
Qed.

Lemma tabulateRow_length (g : BenchOutputGroup) (f : float64 -> string) (line : bench.Bench) :
  List.length (tabulateRow g f line) = List.length (columnNames g).
Proof.
  rewrite tabulateRow_flags, columnNames_flags.
  destruct (Z.testbit (Measured g) 1), (Z.testbit (Measured g) 2),
           (Z.testbit (Measured g) 3); reflexivity.
Qed.

Lemma fold_AddLine (records : list bench.Bench) (g : BenchOutputGroup) :
  fold_left AddLine records g
  = mkGroup (Lines g ++ records)%list
            (fold_left Z.lor (map bench.Measured records) (Measured g)).
Proof.
  revert g. induction records as [ | b records IH]; intros g; simpl.
  - rewrite app_nil_r. destruct g; reflexivity.
  - rewrite IH. unfold AddLine at 1 2; cbn [Lines Measured].
    rewrite <- app_assoc. reflexivity.
Qed.

Lemma testbit_fold_lor (ms : list Z) (m : Z) (n : Z) :
  Z.testbit (fold_left Z.lor ms m) n
  = Z.testbit m n || existsb (fun x => Z.testbit x n) ms.
Proof.
  revert m. induction ms as [ | x ms IH]; intros m; simpl.
  - now rewrite orb_false_r.
  - rewrite IH, Z.lor_spec, orb_assoc. reflexivity.
Qed.

Lemma In_optionalCell (c : bool) (x y : string) :
  In y (optionalCell c x) <-> c = true /\ y = x.
Proof.
  destruct c; simpl; split.
  - intros [H | []]. auto.
  - intros [_ ->]. left. reflexivity.
  - intros [].
  - intros [H _]. discriminate H.
Qed.

Lemma column_iff (g : BenchOutputGroup) (name : string) :
  In name (columnNames g) <->
  In name ["benchmark"; "iter"; "time/iter"]
  \/ (Z.testbit (Measured g) 1 = true /\ name = "throughput")
  \/ (Z.testbit (Measured g) 2 = true /\ name = "bytes alloc")
  \/ (Z.testbit (Measured g) 3 = true /\ name = "allocs").
Proof.
  rewrite columnNames_flags, !in_app_iff, !In_optionalCell. tauto.
Qed.

(** For the group reached from the empty group by appending the
    records of any list, in order: [Lines] is that list and [Measured]
    is the bitwise OR of the [Measured] flags of all its records, so a
    bit is set in it exactly when some record has it; appending one more
    record never clears a bit; and the optional columns of the table
    that [tabulate] returns (its header row, and cell by cell every data
    row) are those whose bit is set in [Measured]: "throughput" for
    bit 1, "bytes alloc" for bit 2, "allocs" for bit 3. *)
Lemma Measured_is_union_and_selects_columns (records : list bench.Bench) :
  let g := fold_left AddLine records emptyGroup in
  Lines g = records /\
  Measured g = unionMeasured records /\
  (forall n : Z,
      Z.testbit (Measured g) n = true <->
      exists b, In b records /\ Z.testbit (bench.Measured b) n = true) /\
  (forall (b : bench.Bench) (n : Z),
      Z.testbit (Measured g) n = true -> Z.testbit (Measured (AddLine g b)) n = true) /\
  (In "throughput" (columnNames g) <-> Z.testbit (Measured g) 1 = true) /\
  (In "bytes alloc" (columnNames g) <-> Z.testbit (Measured g) 2 = true) /\
  (In "allocs" (columnNames g) <-> Z.testbit (Measured g) 3 = true) /\
  (forall table : Table,
      tabulate g (columnNames g) = Ok table ->
      nth_error (Cells table) 0 = Some (columnNames g) /\
      forall (i : nat) (line : bench.Bench),
        nth_error (Lines g) i = Some line ->
        exists (row : list string) (time : string),
          nth_error (Cells table) (2 + i) = Some row /\
          row = ([bench.Name line; FormatIterations (bench.N line); time]
                 ++ optionalCell (Z.testbit (Measured g) 1) (FormatMegaBytesPerSecond line)
                 ++ optionalCell (Z.testbit (Measured g) 2) (FormatBytesAllocPerOp line)
                 ++ optionalCell (Z.testbit (Measured g) 3) (FormatAllocsPerOp line))%list).
Proof.
  cbn zeta. rewrite fold_AddLine. cbn [Lines Measured emptyGroup app].
  set (g := mkGroup records (fold_left Z.lor (map bench.Measured records) 0%Z)).
  split; [ reflexivity | ]. split; [ reflexivity | ].
  split.
  { intros n. rewrite testbit_fold_lor, Z.bits_0, orb_false_l, existsb_exists. split.
    - intros (x & Hx & Hbit). apply in_map_iff in Hx. destruct Hx as (b & <- & Hb). eauto.
    - intros (b & Hb & Hbit). exists (bench.Measured b). split; [ now apply in_map | exact Hbit ]. }
  split.
  { intros b n H. unfold g. cbn [AddLine Measured]. rewrite Z.lor_spec, H. reflexivity. }
  split; [ | split; [ | split ] ].
  - rewrite column_iff. simpl. intuition congruence.
  - rewrite column_iff. simpl. intuition congruence.
  - rewrite column_iff. simpl. intuition congruence.
  - intros table Ht. destruct (TimeFormatFunc g) as [f | e] eqn:Hf.
    + rewrite (tabulate_cells g _ f Hf) in Ht. injection Ht as <-.
      split; [ reflexivity | ].
      intros i line Hi. exists (tabulateRow g f line), (f (bench.NsOp line)).
      split; [ cbn [Cells Nat.add nth_error]; now apply map_nth_error | ].
      apply tabulateRow_flags.
    + unfold tabulate in Ht. rewrite Hf in Ht. discriminate Ht.
Qed.

(** ** Rendering a non-empty group *)

Lemma formatTableCells_rows (cells : list (list string)) (widths : list nat) :
  formatTableCells cells widths = foldM (formatRow widths) cells EmptyString.
Proof. reflexivity. Qed.

(** A row no longer than the list of widths is formatted; a longer row
    panics at the first cell past the widths. *)
Lemma formatCells_from (widths : list nat) (rowLen : nat) (row : list string) :
  forall (k : nat) (buf : string),
    k <= List.length widths ->
    (k + List.length row <= List.length widths ->
     exists out, foldM (formatCell widths rowLen)
                       (combine (seq k (List.length row)) row) buf = Ok out) /\
    (List.length widths < k + List.length row ->
     foldM (formatCell widths rowLen) (combine (seq k (List.length row)) row) buf
     = Panic (IndexOutOfRange (List.length widths) (List.length widths))).
Proof.
  induction row as [ | cell row IH]; intros k buf Hk; simpl.
  - split; [ eauto | lia ].
  - unfold formatCell at 1 3. cbn [fst snd]. unfold index.
    destruct (nth_error widths k) as [w | ] eqn:Ew.
    + assert (k < List.length widths) by (apply nth_error_Some; congruence).
      cbn [bind].
      destruct (IH (S k) (buf ++ fmt.Sprintf
                            (fmt.Sprintf (getFormat k rowLen) (fmt.Int (Z.of_nat w)))
                            (fmt.Str cell)) ltac:(lia)) as [IHok IHpanic].
      split; intros Hlen; [ apply IHok | apply IHpanic ]; lia.
    + apply nth_error_None in Ew. assert (k = List.length widths) by lia. subst k.
      cbn [bind]. split; [ lia | reflexivity ].
Qed.

Lemma formatRow_ok (widths : list nat) (buf : string) (row : list string) :
  List.length row <= List.length widths ->
  exists out, formatRow widths buf row = Ok out.
Proof.
  intros H. unfold formatRow, enumerate.
  destruct (formatCells_from widths (List.length row) row 0 buf ltac:(lia)) as [Hok _].
  destruct (Hok H) as [out ->]. cbn [bind]. eauto.
Qed.

Lemma formatRow_panic (widths : list nat) (buf : string) (row : list string) :
  List.length widths < List.length row ->
  formatRow widths buf row
  = Panic (IndexOutOfRange (List.length widths) (List.length widths)).
Proof.
  intros H. unfold formatRow, enumerate.
  destruct (formatCells_from widths (List.length row) row 0 buf ltac:(lia)) as [_ Hpanic].
  rewrite (Hpanic H). reflexivity.
Qed.

(** [findMaxLengths] returns one width per column when every row has a
    cell in every column. *)
Lemma maxLength_ok (i : nat) (cells : list (list string)) :
  (forall row, In row cells -> i < List.length row) ->
  forall m0 : nat,
  exists m,
    foldM (fun maxLength row =>
             cell <- index row i ;;
             Ok (if Nat.ltb maxLength (String.length cell)
                 then String.length cell else maxLength)) cells m0 = Ok m.
Proof.
  induction cells as [ | row cells IH]; intros Hrows m0; simpl.
  - eauto.
  - unfold index. destruct (nth_error row i) as [cell | ] eqn:E.
    + cbn [bind]. apply IH. intros r Hr. apply Hrows. now right.
    + apply nth_error_None in E. specialize (Hrows row (or_introl eq_refl)). lia.
Qed.

Lemma findMaxLengths_from (colNames : list string) (cells : list (list string))
  (columns : list nat) :
  (forall i row, In i columns -> In row cells -> i < List.length row) ->
  forall acc : list nat,
  exists widths,
    foldM (fun tableMaxLengths i =>
             maxLength <-
               foldM (fun maxLength row =>
                        cell <- index row i ;;
                        Ok (if Nat.ltb maxLength (String.length cell)
                            then String.length cell else maxLength)) cells 0 ;;
             Ok (tableMaxLengths ++ [maxLength])%list) columns acc = Ok widths /\
    List.length widths = List.length acc + List.length columns.
Proof.
  induction columns as [ | i columns IH]; intros Hrows acc; simpl.
  - exists acc. split; [ reflexivity | lia ].
  - destruct (maxLength_ok i cells (fun row Hr => Hrows i row (or_introl eq_refl) Hr) 0)
      as [m ->].
    cbn [bind].
    destruct (IH (fun j row Hj Hr => Hrows j row (or_intror Hj) Hr) (acc ++ [m])%list)
      as (widths & -> & Hlen).
    exists widths. split; [ reflexivity | ]. rewrite Hlen, length_app. simpl. lia.
Qed.

Lemma findMaxLengths_ok (colNames : list string) (cells : list (list string)) :
  (forall row, In row cells -> List.length colNames <= List.length row) ->
  exists widths,
    findMaxLengths colNames cells = Ok widths /\
    List.length widths = List.length colNames.
Proof.
  intros Hrows. unfold findMaxLengths.
  destruct (findMaxLengths_from colNames cells (seq 0 (List.length colNames))) with (acc := @nil nat)
    as (widths & Hw & Hlen).
  - intros i row Hi Hr. apply in_seq in Hi. specialize (Hrows row Hr). lia.
  - exists widths. split; [ exact Hw | ]. rewrite Hlen, length_seq. reflexivity.
Qed.

Lemma underlineRow_length (cols : list string) :
  List.length (underlineRow cols) = 2 * List.length cols.
Proof.
  unfold underlineRow, make. rewrite length_app, repeat_length, length_map. lia.
Qed.

Lemma columnNames_length (g : BenchOutputGroup) : 3 <= List.length (columnNames g).
Proof.
  rewrite columnNames_flags, length_app. simpl. lia.
Qed.

(** On every non-empty group the [String] method panics: the second row
    of the table has twice as many cells as there are widths. *)
Lemma String_panics_on_nonempty (g : BenchOutputGroup) :
  Lines g <> [] ->
  BenchOutputGroup.String g
  = Panic (IndexOutOfRange (List.length (columnNames g)) (List.length (columnNames g))).
Proof.
  intros Hne. unfold BenchOutputGroup.String.
  destruct (Lines g) as [ | line0 rest] eqn:El; [ congruence | ].
  cbn [List.length Nat.eqb].
  destruct (smallestOf_nonempty g) as [smallest Hs]; [ congruence | ].
  rewrite (tabulate_cells g _ _ (TimeFormatFunc_spec g smallest Hs)). cbn [bind Cells].
  set (cols := columnNames g).
  set (rows := map (tabulateRow g (specFormat (specUnit smallest))) (Lines g)).
  destruct (findMaxLengths_ok cols (cols :: underlineRow cols :: rows)) as (widths & -> & Hlen).
  { intros row [<- | [<- | Hr]].
    - apply le_n.
    - rewrite underlineRow_length. lia.
    - unfold rows in Hr. apply in_map_iff in Hr. destruct Hr as (line & <- & _).
      rewrite tabulateRow_length. apply le_n. }
  cbn [bind Cells MaxLengths]. rewrite formatTableCells_rows. cbn [foldM].
  destruct (formatRow_ok widths EmptyString cols) as [out ->]; [ lia | ].
  cbn [bind]. rewrite formatRow_panic.
  - rewrite Hlen. reflexivity.
  - rewrite underlineRow_length, Hlen. pose proof (columnNames_length g). fold cols in H. lia.
Qed.

Lemma String_empty (g : BenchOutputGroup) :
  Lines g = [] -> BenchOutputGroup.String g = Ok EmptyString.
Proof.
  intros H. unfold BenchOutputGroup.String. rewrite H. reflexivity.
Qed.

(** C2 (defect). On the group parsed from
    [BenchmarkFoo-8<TAB>1000000<TAB>120 ns/op] the second row that
    [tabulate] builds has six cells for three columns: the three empty
    strings of [make([]string, len(columnNames))], then the three runs
    of dashes that [append] adds after them.  The data row follows. *)
Theorem C2_underline_row_has_stray_cells :
  ParseLine strconv.ParseFloat lineFoo = inl (timed "BenchmarkFoo-8" 1000000 120) /\
  tabulate groupOne (columnNames groupOne)
  = Ok (mkTable []
          [ ["benchmark"; "iter"; "time/iter"];
            [""; ""; ""; "---------"; "----"; "---------"];
            ["BenchmarkFoo-8"; "1000000"; "120.00 ns/op"] ]).
Proof. split; reflexivity. Qed.

(** The same on every group: the second row is [underlineRow], twice as
    long as the header, and the rows of the records follow in the order
    of [Lines]. *)
Lemma tabulate_second_row (g : BenchOutputGroup) (cols : list string) (table : Table) :
  tabulate g cols = Ok table ->
  nth_error (Cells table) 0 = Some cols /\
  nth_error (Cells table) 1 = Some (underlineRow cols) /\
  List.length (underlineRow cols) = 2 * List.length cols /\
  exists f, skipn 2 (Cells table) = map (tabulateRow g f) (Lines g).
Proof.
  intros Ht. destruct (TimeFormatFunc g) as [f | e] eqn:Hf.
  - rewrite (tabulate_cells g cols f Hf) in Ht. injection Ht as <-.
    repeat split; try apply underlineRow_length. exists f. reflexivity.
  - unfold tabulate in Ht. rewrite Hf in Ht. discriminate Ht.
Qed.

(** C8 (defect). The empty group renders as the empty string; the group
    of one record parsed from [BenchmarkFoo-8<TAB>1000000<TAB>120 ns/op]
    renders as no text at all: [String] panics with an index out of
    range, and [main], at the terminator line, prints the notice of
    [fmt] for that panic, with no newline, before it echoes the line. *)
Theorem C8_nonempty_group_renders_no_table :
  BenchOutputGroup.String emptyGroup = Ok EmptyString /\
  BenchOutputGroup.String groupOne = Panic (IndexOutOfRange 3 3) /\
  stdout (main strconv.ParseFloat false [lineFoo; okLine])
  = "%!v(PANIC=String method: runtime error: index out of range [3] with length 3)"
    ++ okLine ++ String newline EmptyString.
Proof. repeat split. Qed.

(** C5 (defect). For the group reached from the empty group by
    appending the records of any list, [Measured] is the bitwise OR of
    the flags of the records, appending one more record never clears a
    bit, and the name of an optional column is among the columns that
    [String] asks for, and its cell in the rows that [tabulate] builds,
    exactly when its bit is set.  No such column is rendered, though: as soon as there is a record, [String] panics, and
    the notice that [fmt.Print] writes in place of the table holds the
    name of no column.  On
    [BenchmarkFoo-8<TAB>1000000<TAB>120 ns/op<TAB>12.50 MB/s], followed
    by a terminator line, bit 1 is set and "throughput" is among the
    columns, the output of [main] is the notice and the echoed
    terminator, without "throughput"; the earlier revision of the
    program prints, from the same lines, a table where it occurs. *)
Theorem C5_column_in_use_is_not_rendered (records : list bench.Bench) :
  let g := fold_left AddLine records emptyGroup in
  (Lines g = records /\
   Measured g = unionMeasured records /\
   (forall n : Z,
       Z.testbit (Measured g) n = true <->
       exists b, In b records /\ Z.testbit (bench.Measured b) n = true) /\
   (forall (b : bench.Bench) (n : Z),
       Z.testbit (Measured g) n = true -> Z.testbit (Measured (AddLine g b)) n = true) /\
   (In "throughput" (columnNames g) <-> Z.testbit (Measured g) 1 = true) /\
   (In "bytes alloc" (columnNames g) <-> Z.testbit (Measured g) 2 = true) /\
   (In "allocs" (columnNames g) <-> Z.testbit (Measured g) 3 = true) /\
   (forall table : Table,
       tabulate g (columnNames g) = Ok table ->
       nth_error (Cells table) 0 = Some (columnNames g) /\
       forall (i : nat) (line : bench.Bench),
         nth_error (Lines g) i = Some line ->
         exists (row : list string) (time : string),
           nth_error (Cells table) (2 + i) = Some row /\
           row = ([bench.Name line; FormatIterations (bench.N line); time]
                  ++ optionalCell (Z.testbit (Measured g) 1) (FormatMegaBytesPerSecond line)
                  ++ optionalCell (Z.testbit (Measured g) 2) (FormatBytesAllocPerOp line)
                  ++ optionalCell (Z.testbit (Measured g) 3) (FormatAllocsPerOp line))%list)) /\
  (records <> [] ->
   BenchOutputGroup.String g
   = Panic (IndexOutOfRange (List.length (columnNames g)) (List.length (columnNames g))) /\
   forall name : string,
     In name (columnNames g) -> occursIn name (fmt.Print (BenchOutputGroup.String g)) = false) /\
  (ParseLine strconv.ParseFloat lineThroughput = inl throughputRecord /\
   Z.testbit (Measured groupThroughput) 1 = true /\
   In "throughput" (columnNames groupThroughput) /\
   BenchOutputGroup.String groupThroughput = Panic (IndexOutOfRange 4 4) /\
   stdout (main strconv.ParseFloat false [lineThroughput; okLine])
   = "%!v(PANIC=String method: runtime error: index out of range [4] with length 4)"
     ++ okLine ++ String newline EmptyString /\
   occursIn "throughput" (stdout (main strconv.ParseFloat false [lineThroughput; okLine]))
   = false /\
   occursIn "throughput"
     (WithBenchcmp.stdout (WithBenchcmp.main strconv.ParseFloat false [lineThroughput; okLine]))
   = true).
Proof.
  cbn zeta. split; [ | split ].
  - apply Measured_is_union_and_selects_columns.
  - intros Hne.
    assert (Hlines : Lines (fold_left AddLine records emptyGroup) <> []).
    { rewrite fold_AddLine. cbn [Lines emptyGroup app]. exact Hne. }
    rewrite (String_panics_on_nonempty _ Hlines). split; [ reflexivity | ].
    intros name. rewrite columnNames_flags.
    destruct (Z.testbit (Measured (fold_left AddLine records emptyGroup)) 1),
             (Z.testbit (Measured (fold_left AddLine records emptyGroup)) 2),
             (Z.testbit (Measured (fold_left AddLine records emptyGroup)) 3);
      cbn [optionalCell app List.length In]; intros Hin;
      repeat (destruct Hin as [<- | Hin]; [ vm_compute; reflexivity | ]);
      destruct Hin.
  - repeat split; try (vm_compute; reflexivity). simpl. tauto.
Qed.

(** ** Texts without a tab *)

Lemma hasTab_app (a b : string) : hasTab (a ++ b) = hasTab a || hasTab b.
Proof.
  induction a as [ | c a IH]; simpl; [ reflexivity | ].
  now rewrite IH, orb_assoc.
Qed.

Lemma noTab_app (a b : string) : noTab a -> noTab b -> noTab (a ++ b).
Proof. unfold noTab. intros Ha Hb. now rewrite hasTab_app, Ha, Hb. Qed.

Lemma noTab_cons (c : ascii) (s : string) :
  noTab (String c s) <-> Ascii.eqb c tab = false /\ noTab s.
Proof. unfold noTab. simpl. apply orb_false_iff. Qed.

Lemma noTab_Repeat (s : string) (n : nat) : noTab s -> noTab (strings.Repeat s n).
Proof.
  intros Hs. induction n as [ | n IH]; simpl; [ reflexivity | now apply noTab_app ].
Qed.

Lemma noTab_string_of_uint (d : Decimal.uint) : noTab (NilEmpty.string_of_uint d).
Proof. induction d; simpl; try reflexivity; exact IHd. Qed.

Lemma noTab_FormatInt (i : Z) : noTab (strconv.FormatInt i).
Proof.
  unfold strconv.FormatInt, NilEmpty.string_of_int.
  destruct (Z.to_int i); [ | apply noTab_cons; split; [ reflexivity | ] ];
    apply noTab_string_of_uint.
Qed.

Lemma noTab_FormatFloat_f (x : float64) (prec : nat) : noTab (strconv.FormatFloat_f x prec).
Proof.
  assert (Hd : forall q,
             noTab (strconv.FormatInt (q / 10 ^ Z.of_nat prec)
                    ++ match prec with
                       | O => EmptyString
                       | S _ =>
                         "." ++ strings.Repeat "0"
                                  (prec - String.length
                                            (strconv.FormatInt (q mod 10 ^ Z.of_nat prec)))
                         ++ strconv.FormatInt (q mod 10 ^ Z.of_nat prec)
                       end)).
  { intros q. apply noTab_app; [ apply noTab_FormatInt | ].
    destruct prec; [ reflexivity | ].
    apply noTab_app; [ reflexivity | ].
    apply noTab_app; [ now apply noTab_Repeat | apply noTab_FormatInt ]. }
  unfold strconv.FormatFloat_f.
  destruct x as [s | s | | s m e]; try reflexivity; try (destruct s; reflexivity).
  - apply noTab_app; [ destruct s; reflexivity | apply Hd ].
  - apply noTab_app; [ destruct s; reflexivity | apply Hd ].
Qed.

Lemma noTab_pad (minus : bool) (wid : option nat) (s : string) :
  noTab s -> noTab (fmt.pad minus wid s).
Proof.
  intros Hs. unfold fmt.pad. destruct wid as [[ | w] | ]; try exact Hs.
  destruct minus; apply noTab_app; auto; now apply noTab_Repeat.
Qed.

Lemma noTab_printArg (verb : ascii) (minus : bool) (wid prec : option nat)
  (a : fmt.arg) (s : string) :
  argNoTab (Some a) -> fmt.printArg verb minus wid prec a = Some s -> noTab s.
Proof.
  unfold fmt.printArg. intros Ha.
  destruct a as [i | str | x], prec as [p | ]; try discriminate;
    match goal with |- context [Ascii.eqb ?v ?c] => destruct (Ascii.eqb v c) end;
    try discriminate; intros [= <-]; apply noTab_pad.
  - apply noTab_FormatInt.
  - exact Ha.
  - apply noTab_FormatFloat_f.
Qed.

Lemma noTab_extra (a : option fmt.arg) : argNoTab a -> noTab (fmt.extra a).
Proof.
  destruct a as [[i | s | x] | ]; simpl; intros Ha; try reflexivity.
  - apply (noTab_app "%!(EXTRA int="). { reflexivity. }
    apply noTab_app; [ apply noTab_FormatInt | reflexivity ].
  - apply (noTab_app "%!(EXTRA string="). { reflexivity. }
    apply noTab_app; [ exact Ha | reflexivity ].
Qed.

Lemma noTab_verbOut (verb : ascii) (minus : bool) (wid prec : option nat)
  (a : option fmt.arg) (k : option fmt.arg -> string) :
  Ascii.eqb verb tab = false ->
  argNoTab a ->
  (forall a', argNoTab a' -> noTab (k a')) ->
  noTab (fmt.verbOut verb minus wid prec a k).
Proof.
  intros Hv Ha Hk. unfold fmt.verbOut.
  destruct (Ascii.eqb verb "%").
  - apply noTab_cons. split; [ reflexivity | now apply Hk ].
  - destruct a as [x | ].
    + destruct (fmt.printArg verb minus wid prec x) as [s | ] eqn:E.
      * apply noTab_app; [ eapply noTab_printArg; eassumption | now apply Hk ].
      * apply noTab_app; [ reflexivity | now apply Hk ].
    + apply (noTab_app "%!"). { reflexivity. }
      apply noTab_cons. split; [ exact Hv | ].
      apply (noTab_app "(MISSING)"); [ reflexivity | now apply Hk ].
Qed.

Lemma noTab_doPrintf (format : string) :
  forall (st : fmt.pstate) (a : option fmt.arg),
    noTab format -> argNoTab a -> noTab (fmt.doPrintf format st a).
Proof.
  induction format as [ | c rest IH]; intros st a Hf Ha.
  - simpl. destruct st; try (apply (noTab_app "%!(NOVERB)"); [ reflexivity | ]);
      now apply noTab_extra.
  - apply noTab_cons in Hf. destruct Hf as [Hc Hrest].
    assert (Hk : forall a', argNoTab a' -> noTab (fmt.doPrintf rest fmt.Text a'))
      by (intros a' Ha'; now apply IH).
    assert (Hno : noTab ("%!(NOVERB)" ++ fmt.extra a))
      by (apply (noTab_app "%!(NOVERB)"); [ reflexivity | now apply noTab_extra ]).
    cbn [fmt.doPrintf]. destruct st as [ | minus | minus wid | minus wid prec].
    + destruct (Ascii.eqb c "%"); [ now apply IH | ].
      apply noTab_cons. split; [ exact Hc | now apply IH ].
    + destruct (Ascii.eqb c "-"); [ now apply IH | ].
      destruct (isDigit c); [ now apply IH | ].
      destruct (Ascii.eqb c "."); [ now apply IH | ].
      now apply noTab_verbOut.
    + destruct (isDigit c).
      * destruct (fmt.tooLarge wid); [ exact Hno | now apply IH ].
      * destruct (Ascii.eqb c "."); [ now apply IH | ].
        now apply noTab_verbOut.
    + destruct (isDigit c); [ now apply IH | ].
      now apply noTab_verbOut.
Qed.

Lemma noTab_Sprintf (format : string) (a : fmt.arg) :
  noTab format -> argNoTab (Some a) -> noTab (fmt.Sprintf format a).
Proof. intros. now apply noTab_doPrintf. Qed.

Lemma noTab_Print (r : result string) :
  (forall s, r = Ok s -> noTab s) -> noTab (fmt.Print r).
Proof.
  intros H. destruct r as [s | [i n]]; simpl; [ now apply H | ].
  apply (noTab_app "%!v(PANIC=String method: ").  { reflexivity. }
  apply noTab_app; [ | reflexivity ].
  apply (noTab_app "runtime error: index out of range ["). { reflexivity. }
  apply noTab_app; [ apply noTab_FormatInt | ].
  apply (noTab_app "] with length "); [ reflexivity | apply noTab_FormatInt ].
Qed.

(** ** Fields hold no tab *)

Lemma code_tab : code tab = 9%Z.
Proof. reflexivity. Qed.

Lemma eqb_tab_code (c : ascii) : Ascii.eqb c tab = true -> code c = 9%Z.
Proof. intros H. apply Ascii.eqb_eq in H. now subst. Qed.

Lemma high_byte_not_tab (c : ascii) (lo : Z) :
  (128 <= lo)%Z -> (code c <? lo)%Z = false -> Ascii.eqb c tab = false.
Proof.
  intros Hlo Hc. apply Z.ltb_ge in Hc.
  destruct (Ascii.eqb c tab) eqn:E; [ | reflexivity ].
  apply eqb_tab_code in E. lia.
Qed.

Lemma first_lo (s0 : Z) (sz : nat) (lo hi : Z) :
  utf8.first s0 = Some (sz, (lo, hi)) -> (128 <= lo)%Z.
Proof.
  unfold utf8.first, utf8.locb.
  repeat match goal with
         | |- context [if ?b then _ else _] => destruct b
         end; intros [= <- <- <-]; lia.
Qed.

(** A rune whose encoding holds a tab is the tab itself, a space. *)
Lemma decode_tab (s : string) (r : Z) (size : nat) :
  utf8.DecodeRuneInString s = (r, size) ->
  hasTab (take size s) = true ->
  unicode.IsSpace r = true.
Proof.
  destruct s as [ | c0 t0]; [ intros [= <- <-]; discriminate | ].
  unfold utf8.DecodeRuneInString.
  destruct (code c0 <? utf8.RuneSelf)%Z eqn:E0.
  { intros [= <- <-]. simpl. rewrite orb_false_r. intros H.
    apply eqb_tab_code in H. rewrite H. reflexivity. }
  pose proof (high_byte_not_tab c0 128 ltac:(lia) E0) as H0.
  destruct (utf8.first (code c0)) as [[sz [lo hi]] | ] eqn:Ef;
    [ | intros [= <- <-]; simpl; rewrite H0; discriminate ].
  pose proof (first_lo _ _ _ _ Ef) as Hlo.
  destruct (Nat.ltb (String.length (String c0 t0)) sz);
    [ intros [= <- <-]; simpl; rewrite H0; discriminate | ].
  destruct t0 as [ | c1 t1]; [ intros [= <- <-]; simpl; rewrite H0; discriminate | ].
  destruct ((code c1 <? lo) || (hi <? code c1))%Z eqn:E1;
    [ intros [= <- <-]; simpl; rewrite H0; discriminate | ].
  apply orb_false_iff in E1. destruct E1 as [E1 _].
  pose proof (high_byte_not_tab c1 lo Hlo E1) as H1.
  destruct (Nat.leb sz 2); [ intros [= <- <-]; simpl; rewrite H0, H1; discriminate | ].
  destruct t1 as [ | c2 t2]; [ intros [= <- <-]; simpl; rewrite H0; discriminate | ].
  destruct ((code c2 <? utf8.locb) || (utf8.hicb <? code c2))%Z eqn:E2;
    [ intros [= <- <-]; simpl; rewrite H0; discriminate | ].
  apply orb_false_iff in E2. destruct E2 as [E2 _].
  pose proof (high_byte_not_tab c2 128 ltac:(lia) E2) as H2.
  destruct (Nat.leb sz 3); [ intros [= <- <-]; simpl; rewrite H0, H1, H2; discriminate | ].
  destruct t2 as [ | c3 t3]; [ intros [= <- <-]; simpl; rewrite H0; discriminate | ].
  destruct ((code c3 <? utf8.locb) || (utf8.hicb <? code c3))%Z eqn:E3;
    [ intros [= <- <-]; simpl; rewrite H0; discriminate | ].
  apply orb_false_iff in E3. destruct E3 as [E3 _].
  pose proof (high_byte_not_tab c3 128 ltac:(lia) E3) as H3.
  intros [= <- <-]. simpl. rewrite H0, H1, H2, H3. discriminate.
Qed.

Lemma rangeLoop_tab (fuel : nat) :
  forall (s : string) (r : Z) (bytes : string),
    In (r, bytes) (utf8.rangeLoop fuel s) ->
    hasTab bytes = true -> unicode.IsSpace r = true.
Proof.
  induction fuel as [ | fuel IH]; intros s r bytes; simpl; [ intros [] | ].
  destruct s as [ | c t]; [ intros [] | ].
  destruct (utf8.DecodeRuneInString (String c t)) as [r0 size] eqn:E.
  intros [[= <- <-] | Hin] Htab.
  - eapply decode_tab; eassumption.
  - eapply IH; eassumption.
Qed.

Lemma fieldsLoop_noTab (f : Z -> bool) (rs : list (Z * string)) :
  (forall r bytes, In (r, bytes) rs -> hasTab bytes = true -> f r = true) ->
  forall start : option string,
    (forall field, start = Some field -> noTab field) ->
    Forall noTab (strings.fieldsLoop f rs start).
Proof.
  induction rs as [ | [r bytes] rs IH]; intros Hrs start Hstart; simpl.
  - destruct start as [field | ]; auto.
  - assert (Hrs' : forall r0 b0, In (r0, b0) rs -> hasTab b0 = true -> f r0 = true)
      by (intros r0 b0 Hin; apply Hrs; now right).
    destruct (f r) eqn:Er.
    + destruct start as [field | ].
      * constructor; [ now apply Hstart | ]. apply IH; [ exact Hrs' | discriminate ].
      * apply IH; [ exact Hrs' | discriminate ].
    + assert (Hb : noTab bytes).
      { unfold noTab. destruct (hasTab bytes) eqn:Eb; [ | reflexivity ].
        rewrite (Hrs r bytes (or_introl eq_refl) Eb) in Er. discriminate Er. }
      destruct start as [field | ]; apply IH; try exact Hrs'; intros fld [= <-]; auto.
      apply noTab_app; auto.
Qed.

Lemma Fields_noTab (s : string) : Forall noTab (strings.Fields s).
Proof.
  unfold strings.Fields, strings.FieldsFunc, utf8.runes.
  apply fieldsLoop_noTab; [ apply rangeLoop_tab | discriminate ].
Qed.

Lemma nth_noTab (l : list string) (i : nat) :
  Forall noTab l -> noTab (nth i l EmptyString).
Proof.
  intros H. destruct (Nat.lt_ge_cases i (List.length l)) as [Hi | Hi].
  - rewrite Forall_forall in H. apply H. now apply nth_In.
  - rewrite nth_overflow by exact Hi. reflexivity.
Qed.

(** ** Lines without a tab are not benchmark lines *)

Lemma needsTab_nullable (r : regexp.regex) :
  needsTab r = true -> regexp.nullable r = false.
Proof.
  induction r; simpl; intros H; try reflexivity; try discriminate.
  - apply orb_true_iff in H. apply andb_false_iff. destruct H; auto.
  - apply andb_true_iff in H. destruct H. apply orb_false_iff. auto.
Qed.

Lemma needsTab_cat (r1 r2 : regexp.regex) :
  needsTab r1 || needsTab r2 = true -> needsTab (regexp.cat r1 r2) = true.
Proof. destruct r1; simpl; auto. Qed.

Lemma needsTab_alt (r1 r2 : regexp.regex) :
  needsTab r1 = true -> needsTab r2 = true -> needsTab (regexp.alt r1 r2) = true.
Proof.
  intros H1 H2. destruct r1, r2; simpl in *; auto; try discriminate;
    rewrite ?H1, ?H2; auto.
Qed.

Lemma needsTab_deriv (c : ascii) (r : regexp.regex) :
  Ascii.eqb c tab = false -> needsTab r = true -> needsTab (regexp.deriv c r) = true.
Proof.
  intros Hc. induction r; simpl; intros H; try reflexivity; try discriminate.
  - apply Ascii.eqb_eq in H. subst c0. now rewrite Hc.
  - apply needsTab_alt.
    + apply needsTab_cat. apply orb_true_iff in H. apply orb_true_iff.
      destruct H; auto.
    + destruct (regexp.nullable r1) eqn:En; [ | reflexivity ].
      apply orb_true_iff in H. destruct H as [H | H]; auto.
      apply needsTab_nullable in H. congruence.
  - apply andb_true_iff in H. destruct H. apply needsTab_alt; auto.
Qed.

Lemma needsTab_no_match (s : string) :
  forall r : regexp.regex,
    needsTab r = true -> noTab s -> regexp.MatchString r s = false.
Proof.
  induction s as [ | c s IH]; intros r Hr Hs; simpl.
  - now rewrite needsTab_nullable.
  - apply noTab_cons in Hs. destruct Hs as [Hc Hs].
    rewrite needsTab_nullable by exact Hr. simpl.
    apply IH; [ now apply needsTab_deriv | exact Hs ].
Qed.

Lemma noTab_not_benchLine (line : string) :
  noTab line -> regexp.MatchString benchLineMatcher line = false.
Proof. apply needsTab_no_match. reflexivity. Qed.

Lemma Split_noTab (s : string) (sep : ascii) :
  noTab s -> Forall noTab (strings.Split s sep).
Proof.
  induction s as [ | c s IH]; simpl; intros Hs.
  - constructor; [ reflexivity | constructor ].
  - apply noTab_cons in Hs. destruct Hs as [Hc Hs]. specialize (IH Hs).
    destruct (Ascii.eqb c sep).
    + constructor; [ reflexivity | exact IH ].
    + destruct (strings.Split s sep) as [ | f fs].
      * constructor; [ | constructor ]. apply noTab_cons. split; [ exact Hc | reflexivity ].
      * inversion IH; subst. constructor; [ | assumption ].
        apply noTab_cons. split; assumption.
Qed.

(** ** The groups that [main] collects *)

Section Collected.

Variable ParseFloat : string -> option float64.
Variable noPassthrough : bool.

Lemma parseMeasurement_Name (b : bench.Bench) (quant unit : string) :
  bench.Name (bench.parseMeasurement ParseFloat b quant unit) = bench.Name b.
Proof.
  unfold bench.parseMeasurement.
  repeat match goal with
         | |- context [if ?c then _ else _] => destruct c
         | |- context [match ?o with Some _ => _ | None => _ end] => destruct o
         end; reflexivity.
Qed.

Lemma parseMeasurements_Name (fields : list string) (b : bench.Bench) :
  bench.Name (bench.parseMeasurements ParseFloat fields b) = bench.Name b.
Proof.
  unfold bench.parseMeasurements.
  generalize (seq 1 (List.length fields / 2 - 1)). intros l. revert b.
  induction l as [ | i l IH]; intros b; simpl; [ reflexivity | ].
  rewrite IH. apply parseMeasurement_Name.
Qed.

Lemma bench_ParseLine_Name (line : string) (b : bench.Bench) :
  bench.ParseLine ParseFloat line = inl b ->
  bench.Name b = nth 0 (strings.Fields line) EmptyString.
Proof.
  unfold bench.ParseLine.
  destruct (Nat.ltb (List.length (strings.Fields line)) 2); [ discriminate | ].
  destruct (negb (strings.HasPrefix (nth 0 (strings.Fields line) EmptyString) "Benchmark"));
    [ discriminate | ].
  destruct (strconv.Atoi (nth 1 (strings.Fields line) EmptyString)); [ | discriminate ].
  intros [= <-]. apply parseMeasurements_Name.
Qed.

Lemma ParseLine_inl (line : string) (b : bench.Bench) :
  ParseLine ParseFloat line = inl b -> bench.ParseLine ParseFloat line = inl b.
Proof.
  unfold ParseLine.
  destruct (negb (regexp.MatchString benchLineMatcher line)); [ discriminate | ].
  destruct (Nat.ltb (List.length (strings.Split line tab)) 3); [ discriminate | ].
  destruct (bench.ParseLine ParseFloat line); [ congruence | discriminate ].
Qed.

Lemma ParseLine_Name_noTab (line : string) (b : bench.Bench) :
  ParseLine ParseFloat line = inl b -> noTab (bench.Name b).
Proof.
  intros H. rewrite (bench_ParseLine_Name line b (ParseLine_inl line b H)).
  apply nth_noTab, Fields_noTab.
Qed.

Lemma step_namesNoTab (st : State) (text : string) :
  namesNoTab (currentBenchmark st) ->
  namesNoTab (currentBenchmark (step ParseFloat noPassthrough st text)).
Proof.
  intros H. unfold step.
  destruct (ParseLine ParseFloat text) as [line | [ | e]] eqn:E.
  - cbn [currentBenchmark]. unfold namesNoTab, AddLine. cbn [Lines].
    apply Forall_app. split; [ exact H | ].
    constructor; [ eapply ParseLine_Name_noTab; eassumption | constructor ].
  - destruct (regexp.MatchString okLineMatcher text), (negb noPassthrough);
      cbn [currentBenchmark Println]; try exact H; constructor.
  - exact H.
Qed.

Lemma fold_step_namesNoTab (lines : list string) :
  forall st : State,
    namesNoTab (currentBenchmark st) ->
    namesNoTab (currentBenchmark (fold_left (step ParseFloat noPassthrough) lines st)).
Proof.
  induction lines as [ | text lines IH]; intros st H; simpl; [ exact H | ].
  apply IH, step_namesNoTab, H.
Qed.

Lemma main_namesNoTab (lines : list string) :
  namesNoTab (currentBenchmark (main ParseFloat noPassthrough lines)).
Proof. apply fold_step_namesNoTab. constructor. Qed.

End Collected.

(** ** The cells and the text of a table hold no tab *)

Lemma foldM_invariant (A B : Type) (P : B -> Prop) (Q : A -> Prop)
  (f : B -> A -> result B) (l : list A) :
  (forall b a b', P b -> Q a -> f b a = Ok b' -> P b') ->
  Forall Q l ->
  forall b r, P b -> foldM f l b = Ok r -> P r.
Proof.
  intros Hf. induction l as [ | a l IH]; intros Hl b r Hb; simpl.
  - intros [= <-]. exact Hb.
  - inversion Hl; subst. destruct (f b a) as [b' | e] eqn:E; cbn [bind]; [ | discriminate ].
    apply IH; [ assumption | ]. eapply Hf; eassumption.
Qed.

Lemma noTab_getFormat (rowNum rowLen : nat) : noTab (getFormat rowNum rowLen).
Proof.
  unfold getFormat. destruct (Nat.eqb rowNum 0); [ reflexivity | ].
  destruct (Nat.eqb rowNum (rowLen - 1)); reflexivity.
Qed.

Lemma formatCell_noTab (widths : list nat) (rowLen : nat) (buf : string)
  (ic : nat * string) (out : string) :
  noTab buf -> noTab (snd ic) -> formatCell widths rowLen buf ic = Ok out -> noTab out.
Proof.
  intros Hb Hc. unfold formatCell.
  destruct (index widths (fst ic)) as [w | e]; cbn [bind]; [ | discriminate ].
  intros [= <-]. apply noTab_app; [ exact Hb | ].
  apply noTab_Sprintf; [ | exact Hc ].
  apply noTab_Sprintf; [ apply noTab_getFormat | exact I ].
Qed.

Lemma enumerate_noTab (row : list string) :
  Forall noTab row -> Forall (fun ic : nat * string => noTab (snd ic)) (enumerate row).
Proof.
  intros H. apply Forall_forall. intros [i c] Hin. cbn [snd].
  apply in_combine_r in Hin. rewrite Forall_forall in H. now apply H.
Qed.

Lemma formatRow_noTab (widths : list nat) (buf : string) (row : list string) (out : string) :
  noTab buf -> Forall noTab row -> formatRow widths buf row = Ok out -> noTab out.
Proof.
  intros Hb Hr. unfold formatRow.
  destruct (foldM (formatCell widths (List.length row)) (enumerate row) buf)
    as [buf' | e] eqn:E; cbn [bind]; [ | discriminate ].
  intros [= <-]. apply noTab_app; [ | reflexivity ].
  eapply (foldM_invariant _ _ noTab (fun ic => noTab (snd ic))); [ | | exact Hb | exact E ].
  - intros b a b'. apply formatCell_noTab.
  - now apply enumerate_noTab.
Qed.

Lemma formatTableCells_noTab (cells : list (list string)) (widths : list nat) (text : string) :
  Forall (Forall noTab) cells -> formatTableCells cells widths = Ok text -> noTab text.
Proof.
  intros Hc. rewrite formatTableCells_rows. intros H.
  eapply (foldM_invariant _ _ noTab (Forall noTab)); [ | exact Hc | | exact H ].
  - intros b a b'. apply formatRow_noTab.
  - reflexivity.
Qed.

Lemma noTab_specFormat (u : TimeUnit) (ns : float64) : noTab (specFormat u ns).
Proof.
  unfold specFormat. apply noTab_app; [ apply noTab_FormatFloat_f | destruct u; reflexivity ].
Qed.

Lemma noTab_optionalCell (c : bool) (s : string) :
  noTab s -> Forall noTab (optionalCell c s).
Proof. destruct c; simpl; auto. Qed.

Lemma columnNames_noTab (g : BenchOutputGroup) : Forall noTab (columnNames g).
Proof.
  rewrite columnNames_flags.
  repeat (apply Forall_app; split); try (apply noTab_optionalCell; reflexivity).
  repeat constructor.
Qed.

Lemma underlineRow_noTab (cols : list string) : Forall noTab (underlineRow cols).
Proof.
  unfold underlineRow, make. apply Forall_app. split.
  - apply Forall_forall. intros s Hs. apply repeat_spec in Hs. now subst.
  - apply Forall_forall. intros s Hs. apply in_map_iff in Hs.
    destruct Hs as (name & <- & _). now apply noTab_Repeat.
Qed.

Lemma tabulateRow_noTab (g : BenchOutputGroup) (u : TimeUnit) (line : bench.Bench) :
  noTab (bench.Name line) -> Forall noTab (tabulateRow g (specFormat u) line).
Proof.
  intros Hn. rewrite tabulateRow_flags.
  repeat (apply Forall_app; split).
  - repeat constructor; [ exact Hn | apply noTab_FormatInt | apply noTab_specFormat ].
  - apply noTab_optionalCell. unfold FormatMegaBytesPerSecond.
    destruct (_ =? 0)%Z; [ reflexivity | now apply noTab_Sprintf ].
  - apply noTab_optionalCell. unfold FormatBytesAllocPerOp.
    destruct (_ =? 0)%Z; [ reflexivity | now apply noTab_Sprintf ].
  - apply noTab_optionalCell. unfold FormatAllocsPerOp.
    destruct (_ =? 0)%Z; [ reflexivity | now apply noTab_Sprintf ].
Qed.

Lemma tabulate_noTab (g : BenchOutputGroup) (table : Table) :
  namesNoTab g -> tabulate g (columnNames g) = Ok table -> Forall (Forall noTab) (Cells table).
Proof.
  intros Hg Ht. destruct (Lines g) as [ | line0 rest] eqn:El.
  { unfold tabulate, TimeFormatFunc in Ht. rewrite El in Ht. discriminate Ht. }
  destruct (smallestOf_nonempty g) as [smallest Hs]; [ congruence | ].
  rewrite (tabulate_cells g _ _ (TimeFormatFunc_spec g smallest Hs)) in Ht.
  injection Ht as <-. cbn [Cells].
  constructor; [ apply columnNames_noTab | ].
  constructor; [ apply underlineRow_noTab | ].
  apply Forall_forall. intros row Hr. apply in_map_iff in Hr.
  destruct Hr as (line & <- & Hl). apply tabulateRow_noTab.
  unfold namesNoTab in Hg. rewrite Forall_forall in Hg. now apply Hg.
Qed.

Lemma String_noTab (g : BenchOutputGroup) (text : string) :
  namesNoTab g -> BenchOutputGroup.String g = Ok text -> noTab text.
Proof.
  intros Hg. unfold BenchOutputGroup.String.
  destruct (Nat.eqb (List.length (Lines g)) 0); [ intros [= <-]; reflexivity | ].
  destruct (tabulate g (columnNames g)) as [table | e] eqn:Et; cbn [bind]; [ | discriminate ].
  destruct (findMaxLengths (columnNames g) (Cells table)) as [widths | e];
    cbn [bind Cells MaxLengths]; [ | discriminate ].
  apply formatTableCells_noTab. now apply (tabulate_noTab g).
Qed.

Lemma not_benchLine_ParseLine (ParseFloat : string -> option float64) (line : string) :
  regexp.MatchString benchLineMatcher line = false ->
  ParseLine ParseFloat line = inr errNotBenchLine.
Proof. intros H. unfold ParseLine. rewrite H. reflexivity. Qed.

(** C7. Feeding a rendered table back through the line classifier
    finds no benchmark line.  For the group [main] has collected after
    any input: no line of the text that [fmt.Print] writes for the group
    matches [benchLineMatcher], and neither does any line of the text
    that [formatTableCells] makes of the group's table, whatever the
    column widths; [ParseLine] answers [errNotBenchLine] on each. *)
Theorem C7_rendered_rows_are_not_benchmark_lines
  (ParseFloat : string -> option float64) (noPassthrough : bool) (lines : list string) :
  let g := currentBenchmark (main ParseFloat noPassthrough lines) in
  (forall line : string,
      In line (strings.Split (fmt.Print (BenchOutputGroup.String g)) newline) ->
      regexp.MatchString benchLineMatcher line = false /\
      ParseLine ParseFloat line = inr errNotBenchLine) /\
  (forall (table : Table) (widths : list nat) (text line : string),
      tabulate g (columnNames g) = Ok table ->
      formatTableCells (Cells table) widths = Ok text ->
      In line (strings.Split text newline) ->
      regexp.MatchString benchLineMatcher line = false /\
      ParseLine ParseFloat line = inr errNotBenchLine).
Proof.
  cbn zeta. pose proof (main_namesNoTab ParseFloat noPassthrough lines) as Hg.
  set (g := currentBenchmark (main ParseFloat noPassthrough lines)) in *.
  assert (Hlines : forall text line,
             noTab text -> In line (strings.Split text newline) ->
             regexp.MatchString benchLineMatcher line = false /\
             ParseLine ParseFloat line = inr errNotBenchLine).
  { intros text line Ht Hin.
    pose proof (Split_noTab text newline Ht) as Hs. rewrite Forall_forall in Hs.
    pose proof (noTab_not_benchLine line (Hs line Hin)) as Hm.
    split; [ exact Hm | now apply not_benchLine_ParseLine ]. }
  split.
  - intros line. apply Hlines. apply noTab_Print. intros s. now apply String_noTab.
  - intros table widths text line Ht Hf. apply Hlines.
    eapply formatTableCells_noTab; [ | exact Hf ]. now apply (tabulate_noTab g).
Qed.

(** C7 on the group of one record, rendered with columns of width 14. *)
Lemma C7_witness :
  exists (table : Table) (text : string),
    tabulate groupOne (columnNames groupOne) = Ok table /\
    formatTableCells (Cells table) (repeat 14 6) = Ok text /\
    forall line : string,
      In line (strings.Split text newline) ->
      regexp.MatchString benchLineMatcher line = false /\
      ParseLine strconv.ParseFloat line = inr errNotBenchLine.
Proof.
  pose proof (proj2 (C7_rendered_rows_are_not_benchmark_lines
                       strconv.ParseFloat false [lineFoo])) as H.
  cbn zeta in H.
  change (currentBenchmark (main strconv.ParseFloat false [lineFoo])) with groupOne in H.
  set (table := match tabulate groupOne (columnNames groupOne) with
                | Ok t => t
                | Panic _ => mkTable [] []
                end).
  set (text := match formatTableCells (Cells table) (repeat 14 6) with
               | Ok s => s
               | Panic _ => EmptyString
               end).
  exists table, text.
  split; [ vm_compute; reflexivity | ]. split; [ vm_compute; reflexivity | ].
  intros line Hin.
  apply (H table (repeat 14 6) text line); [ vm_compute; reflexivity | | exact Hin ].
  vm_compute; reflexivity.
Defined.

(** ** End of input *)

Lemma append_assoc (a b c : string) : (a ++ b) ++ c = a ++ (b ++ c).
Proof. induction a as [ | x a IH]; simpl; [ reflexivity | now rewrite IH ]. Qed.

Lemma append_empty_r (a : string) : a ++ EmptyString = a.
Proof. induction a as [ | x a IH]; simpl; [ reflexivity | now rewrite IH ]. Qed.

Lemma MatchString_Void (s : string) : regexp.MatchString regexp.Void s = false.
Proof. induction s as [ | c s IH]; simpl; auto. Qed.

(** A benchmark line starts with [B], a terminator line with [o]. *)
Lemma benchLine_not_okLine (text : string) :
  regexp.MatchString benchLineMatcher text = true ->
  regexp.MatchString okLineMatcher text = false.
Proof.
  destruct text as [ | c text]; [ discriminate | ].
  cbn [regexp.MatchString benchLineMatcher okLineMatcher regexp.nullable regexp.Lit
       regexp.deriv regexp.Plus andb orb].
  destruct (Ascii.eqb c "B") eqn:EB.
  - apply Ascii.eqb_eq in EB. subst c. intros _. cbn. apply MatchString_Void.
  - cbn. now rewrite MatchString_Void.
Qed.

Section EndOfInput.

Variable ParseFloat : string -> option float64.
Variable noPassthrough : bool.

Lemma ParseLine_inl_not_okLine (text : string) (b : bench.Bench) :
  ParseLine ParseFloat text = inl b -> regexp.MatchString okLineMatcher text = false.
Proof.
  unfold ParseLine. intros H. apply benchLine_not_okLine.
  destruct (regexp.MatchString benchLineMatcher text); [ reflexivity | discriminate H ].
Qed.

(** One turn of the loop on a line that is not a terminator line. *)
Lemma step_not_terminator (st : State) (text : string) :
  regexp.MatchString okLineMatcher text = false ->
  stdout (step ParseFloat noPassthrough st text)
  = stdout st ++ echo ParseFloat noPassthrough text /\
  currentBenchmark (step ParseFloat noPassthrough st text)
  = fold_left AddLine (collected ParseFloat [text]) (currentBenchmark st).
Proof.
  intros Hok. unfold step, echo, collected. cbn [flat_map].
  destruct (ParseLine ParseFloat text) as [b | [ | e]]; cbn [app fold_left].
  - cbn [stdout currentBenchmark]. now rewrite append_empty_r.
  - rewrite Hok. destruct noPassthrough; cbn [negb Println stdout currentBenchmark].
    + now rewrite append_empty_r.
    + split; reflexivity.
  - cbn [Println stdout currentBenchmark]. split; reflexivity.
Qed.

Lemma loop_not_terminator (tail : list string) :
  (forall text, In text tail -> regexp.MatchString okLineMatcher text = false) ->
  forall st : State,
    stdout (fold_left (step ParseFloat noPassthrough) tail st)
    = stdout st ++ joined (map (echo ParseFloat noPassthrough) tail) /\
    currentBenchmark (fold_left (step ParseFloat noPassthrough) tail st)
    = fold_left AddLine (collected ParseFloat tail) (currentBenchmark st).
Proof.
  induction tail as [ | text tail IH]; intros Hok st; cbn [fold_left map joined fold_right].
  - split; [ now rewrite append_empty_r | reflexivity ].
  - destruct (step_not_terminator st text (Hok text (or_introl eq_refl))) as [Hout Hgroup].
    destruct (IH (fun t Ht => Hok t (or_intror Ht)) (step ParseFloat noPassthrough st text))
      as [IHout IHgroup].
    split.
    + rewrite IHout, Hout, append_assoc. reflexivity.
    + rewrite IHgroup, Hgroup. unfold collected. cbn [flat_map].
      rewrite !fold_left_app. reflexivity.
Qed.

End EndOfInput.

(** C9. When the input ends with lines none of which is a terminator
    line, [main] writes for them only the lines it echoes: whatever
    records they add to the current group, and whatever the group held
    before, no table text is written for it; the records stay in the
    group that [main] holds when the input ends. *)
Theorem C9_trailing_group_is_never_rendered
  (ParseFloat : string -> option float64) (noPassthrough : bool)
  (lines tail : list string) :
  (forall text, In text tail -> regexp.MatchString okLineMatcher text = false) ->
  stdout (main ParseFloat noPassthrough (lines ++ tail))
  = stdout (main ParseFloat noPassthrough lines)
    ++ joined (map (echo ParseFloat noPassthrough) tail) /\
  currentBenchmark (main ParseFloat noPassthrough (lines ++ tail))
  = fold_left AddLine (collected ParseFloat tail)
              (currentBenchmark (main ParseFloat noPassthrough lines)) /\
  (forall text b, In text tail -> ParseLine ParseFloat text = inl b ->
                  echo ParseFloat noPassthrough text = EmptyString).
Proof.
  intros Hok. unfold main. rewrite fold_left_app.
  destruct (loop_not_terminator ParseFloat noPassthrough tail Hok
              (fold_left (step ParseFloat noPassthrough) lines
                         (mkState emptyGroup EmptyString EmptyString))) as [Hout Hgroup].
  split; [ exact Hout | ]. split; [ exact Hgroup | ].
  intros text b _ Hb. unfold echo. now rewrite Hb.
Qed.

(** C9 on two benchmark lines that no terminator line follows. *)
Lemma C9_witness :
  stdout (main strconv.ParseFloat false ([okLine] ++ [lineFoo; lineWidgets]))
  = stdout (main strconv.ParseFloat false [okLine]) ++ EmptyString /\
  List.length (Lines (currentBenchmark
                        (main strconv.ParseFloat false ([okLine] ++ [lineFoo; lineWidgets]))))
  = 2.
Proof.
  destruct (C9_trailing_group_is_never_rendered strconv.ParseFloat false
              [okLine] [lineFoo; lineWidgets]) as (Hout & Hgroup & _).
  - intros text [<- | [<- | []]]; reflexivity.
  - split; [ exact Hout | rewrite Hgroup; reflexivity ].
Defined.

(** ** What the pre-filter says of a line *)

Lemma nullable_lang (r : regexp.regex) : regexp.nullable r = true -> lang r EmptyString.
Proof.
  induction r; simpl; intros H; try discriminate.
  - constructor.
  - apply andb_true_iff in H. destruct H as [H1 H2].
    apply (langCat r1 r2 EmptyString EmptyString); auto.
  - apply orb_true_iff in H. destruct H; [ apply langAltL | apply langAltR ]; auto.
  - constructor.
Qed.

Lemma cat_lang (r1 r2 : regexp.regex) (w : string) :
  lang (regexp.cat r1 r2) w -> lang (regexp.Cat r1 r2) w.
Proof.
  destruct r1; simpl; intros H; try exact H.
  - inversion H.
  - apply (langCat regexp.Eps r2 EmptyString w); [ constructor | exact H ].
Qed.

Lemma alt_lang (r1 r2 : regexp.regex) (w : string) :
  lang (regexp.alt r1 r2) w -> lang (regexp.Alt r1 r2) w.
Proof.
  destruct r1, r2; simpl; intros H; try exact H;
    try (now apply langAltL); try (now apply langAltR).
Qed.

Lemma deriv_lang (c : ascii) (r : regexp.regex) :
  forall w : string, lang (regexp.deriv c r) w -> lang r (String c w).
Proof.
  induction r; simpl; intros w H.
  - inversion H.
  - inversion H.
  - destruct (Ascii.eqb c c0) eqn:E; inversion H; subst.
    apply Ascii.eqb_eq in E. subst. constructor.
  - destruct (Ascii.eqb c newline) eqn:E; inversion H; subst. now constructor.
  - destruct (isDigit c) eqn:E; inversion H; subst. now constructor.
  - destruct (regexp.isSpaceClass c) eqn:E; inversion H; subst. now constructor.
  - apply alt_lang in H. inversion H; subst.
    + apply cat_lang in H3. inversion H3; subst.
      apply (langCat r1 r2 (String c w1) w2); auto.
    + destruct (regexp.nullable r1) eqn:E; [ | inversion H3 ].
      apply (langCat r1 r2 EmptyString (String c w)); auto using nullable_lang.
  - apply alt_lang in H. inversion H; subst; [ apply langAltL | apply langAltR ]; auto.
  - apply cat_lang in H. inversion H; subst.
    apply (langStarApp r (String c w1) w2); auto.
Qed.

Lemma MatchString_lang (s : string) :
  forall r : regexp.regex,
    regexp.MatchString r s = true -> exists w rest, s = w ++ rest /\ lang r w.
Proof.
  induction s as [ | c s IH]; intros r; simpl; intros H.
  - rewrite orb_false_r in H. exists EmptyString, EmptyString.
    split; [ reflexivity | now apply nullable_lang ].
  - apply orb_true_iff in H. destruct H as [H | H].
    + exists EmptyString, (String c s). split; [ reflexivity | now apply nullable_lang ].
    + destruct (IH _ H) as (w & rest & -> & Hw).
      exists (String c w), rest. split; [ reflexivity | now apply deriv_lang ].
Qed.

Lemma nullable_MatchString (r : regexp.regex) (s : string) :
  regexp.nullable r = true -> regexp.MatchString r s = true.
Proof. intros H. destruct s; simpl; now rewrite H. Qed.

Lemma lang_nullable (r : regexp.regex) (w : string) :
  lang r w -> w = EmptyString -> regexp.nullable r = true.
Proof.
  induction 1; simpl; intros E; try discriminate E; try reflexivity.
  - destruct w1; [ | discriminate E ]. simpl in E. now rewrite IHlang1, IHlang2.
  - now rewrite IHlang.
  - rewrite IHlang by exact E. apply orb_true_r.
Qed.

Lemma lang_cat (r1 r2 : regexp.regex) (w : string) :
  lang (regexp.Cat r1 r2) w -> lang (regexp.cat r1 r2) w.
Proof.
  intros H. destruct r1; simpl; try exact H; inversion H; subst.
  - match goal with H1 : lang regexp.Void _ |- _ => inversion H1 end.
  - match goal with H1 : lang regexp.Eps _ |- _ => inversion H1; subst end. assumption.
Qed.

Lemma lang_alt (r1 r2 : regexp.regex) (w : string) :
  lang (regexp.Alt r1 r2) w -> lang (regexp.alt r1 r2) w.
Proof.
  intros H. inversion H; subst.
  - destruct r1; try (now inversion H3); destruct r2; simpl; try assumption;
      now apply langAltL.
  - destruct r2; try (now inversion H3); destruct r1; simpl; try assumption;
      now apply langAltR.
Qed.

Lemma lang_deriv (r : regexp.regex) (w : string) :
  lang r w ->
  forall (c : ascii) (w' : string), w = String c w' -> lang (regexp.deriv c r) w'.
Proof.
  induction 1; intros c0 w' E; simpl; try discriminate E.
  - injection E as <- <-. rewrite Ascii.eqb_refl. constructor.
  - injection E as <- <-. rewrite H. constructor.
  - injection E as <- <-. rewrite H. constructor.
  - injection E as <- <-. rewrite H. constructor.
  - apply lang_alt. destruct w1 as [ | c1 w1]; simpl in E.
    + rewrite (lang_nullable r1 EmptyString H eq_refl).
      apply langAltR. now apply IHlang2.
    + injection E as <- <-. apply langAltL, lang_cat.
      apply langCat; [ now apply IHlang1 | assumption ].
  - apply lang_alt, langAltL. now apply IHlang.
  - apply lang_alt, langAltR. now apply IHlang.
  - destruct w1 as [ | c1 w1]; simpl in E.
    + now apply IHlang2.
    + injection E as <- <-. apply lang_cat.
      apply langCat; [ now apply IHlang1 | assumption ].
Qed.

Lemma lang_MatchString (w : string) :
  forall (r : regexp.regex) (rest : string),
    lang r w -> regexp.MatchString r (w ++ rest) = true.
Proof.
  induction w as [ | c w IH]; intros r rest H.
  - apply nullable_MatchString. now apply (lang_nullable r EmptyString).
  - simpl. rewrite (IH (regexp.deriv c r) rest); [ apply orb_true_r | ].
    now apply (lang_deriv r (String c w)).
Qed.

(** The matcher decides the patterns: [MatchString] holds exactly when
    the pattern matches a prefix of the text. *)
Lemma MatchString_iff (r : regexp.regex) (s : string) :
  regexp.MatchString r s = true <-> exists w rest, s = w ++ rest /\ lang r w.
Proof.
  split; [ apply MatchString_lang | ].
  intros (w & rest & -> & H). now apply lang_MatchString.
Qed.

Lemma lang_Lit (s w : string) : lang (regexp.Lit s) w -> w = s.
Proof.
  revert w. induction s as [ | c s IH]; simpl; intros w H.
  - now inversion H.
  - inversion H; subst. inversion H2; subst. simpl. f_equal. now apply IH.
Qed.

(** A line that passes the pre-filter reads [Benchmark], any bytes, a
    tab, any bytes, a digit, and whatever follows. *)
Lemma benchLine_shape (line : string) :
  regexp.MatchString benchLineMatcher line = true ->
  exists (w1 w2 rest : string) (d : ascii),
    isDigit d = true /\
    line = "Benchmark" ++ w1 ++ String tab (w2 ++ String d rest).
Proof.
  intros H. apply MatchString_lang in H. destruct H as (w & rest & -> & Hw).
  unfold benchLineMatcher, regexp.Plus in Hw.
  inversion Hw as [ | | | | | ? ? u1 v1 Hu1 Hv1 | | | | ]; subst.
  apply (lang_Lit "Benchmark") in Hu1. subst u1.
  inversion Hv1 as [ | | | | | ? ? u2 v2 Hu2 Hv2 | | | | ]; subst.
  inversion Hv2 as [ | | | | | ? ? u3 v3 Hu3 Hv3 | | | | ]; subst.
  inversion Hu3; subst.
  inversion Hv3 as [ | | | | | ? ? u4 v4 Hu4 Hv4 | | | | ]; subst.
  inversion Hv4 as [ | | | | | ? ? u5 v5 Hu5 Hv5 | | | | ]; subst.
  inversion Hu5 as [ | | | d Hd | | | | | | ]; subst.
  exists u2, u4, (v5 ++ rest), d. split; [ exact Hd | ].
  simpl. rewrite !append_assoc. simpl. rewrite !append_assoc. reflexivity.
Qed.

(** ** The fields of a line that passes the pre-filter *)

Lemma length_append (a b : string) :
  String.length (a ++ b) = String.length a + String.length b.
Proof. induction a as [ | c a IH]; simpl; [ reflexivity | now rewrite IH ]. Qed.

Lemma drop_append (n : nat) (a b : string) :
  n <= String.length a -> drop n (a ++ b) = drop n a ++ b.
Proof.
  revert a. induction n as [ | n IH]; intros a H; [ reflexivity | ].
  destruct a as [ | c a]; simpl in *; [ lia | ]. apply IH. lia.
Qed.

Lemma length_drop (n : nat) (a : string) :
  String.length (drop n a) = String.length a - n.
Proof.
  revert a. induction n as [ | n IH]; intros a; simpl; [ lia | ].
  destruct a as [ | c a]; simpl; [ reflexivity | apply IH ].
Qed.

Lemma decode_ascii (c : ascii) (t : string) :
  (code c < 128)%Z -> utf8.DecodeRuneInString (String c t) = (code c, 1).
Proof.
  intros H. unfold utf8.DecodeRuneInString, utf8.RuneSelf.
  apply Z.ltb_lt in H. now rewrite H.
Qed.

(** An ASCII byte is never taken as a continuation byte: the rune
    decoded before it ends before it. *)
Lemma decode_size_bound (a0 : ascii) (a : string) (c : ascii) (x : string)
  (r : Z) (size : nat) :
  (code c < 128)%Z ->
  utf8.DecodeRuneInString (String a0 (a ++ String c x)) = (r, size) ->
  1 <= size <= S (String.length a).
Proof.
  intros Hc. unfold utf8.DecodeRuneInString.
  destruct (code a0 <? utf8.RuneSelf)%Z; [ intros [= <- <-]; lia | ].
  destruct (utf8.first (code a0)) as [[sz [lo hi]] | ] eqn:Ef; [ | intros [= <- <-]; lia ].
  pose proof (first_lo _ _ _ _ Ef) as Hlo.
  assert (Hc1 : (code c <? lo)%Z = true) by (apply Z.ltb_lt; lia).
  assert (Hc2 : (code c <? utf8.locb)%Z = true) by (apply Z.ltb_lt; unfold utf8.locb; lia).
  destruct (Nat.ltb _ sz); [ intros [= <- <-]; lia | ].
  destruct a as [ | a1 a]; cbn [append].
  { rewrite Hc1. cbn [orb]. intros [= <- <-]. simpl. lia. }
  destruct ((code a1 <? lo) || (hi <? code a1))%Z; [ intros [= <- <-]; simpl; lia | ].
  destruct (Nat.leb sz 2); [ intros [= <- <-]; simpl; lia | ].
  destruct a as [ | a2 a]; cbn [append].
  { rewrite Hc2. cbn [orb]. intros [= <- <-]. simpl. lia. }
  destruct ((code a2 <? utf8.locb) || (utf8.hicb <? code a2))%Z;
    [ intros [= <- <-]; simpl; lia | ].
  destruct (Nat.leb sz 3); [ intros [= <- <-]; simpl; lia | ].
  destruct a as [ | a3 a]; cbn [append].
  { rewrite Hc2. cbn [orb]. intros [= <- <-]. simpl. lia. }
  destruct ((code a3 <? utf8.locb) || (utf8.hicb <? code a3))%Z;
    intros [= <- <-]; simpl; lia.
Qed.

(** The loop over the runes of a text reaches every ASCII byte at the
    start of a rune. *)
Lemma rangeLoop_split (c : ascii) (x : string) :
  (code c < 128)%Z ->
  forall (fuel : nat) (a : string),
    String.length (a ++ String c x) <= fuel ->
    exists (pre : list (Z * string)) (fuel' : nat),
      utf8.rangeLoop fuel (a ++ String c x)
      = (pre ++ utf8.rangeLoop fuel' (String c x))%list /\
      String.length (String c x) <= fuel'.
Proof.
  intros Hc. induction fuel as [ | fuel IH]; intros a Hlen.
  - rewrite length_append in Hlen. simpl in Hlen. lia.
  - destruct a as [ | a0 a].
    + exists [], (S fuel). split; [ reflexivity | exact Hlen ].
    + cbn [append utf8.rangeLoop].
      destruct (utf8.DecodeRuneInString (String a0 (a ++ String c x))) as [r size] eqn:E.
      pose proof (decode_size_bound a0 a c x r size Hc E) as Hsize.
      destruct size as [ | size]; [ lia | ]. cbn [drop].
      rewrite drop_append by lia.
      destruct (IH (drop size a)) as (pre & fuel' & Hpre & Hfuel).
      { rewrite length_append, length_drop. cbn [append String.length] in Hlen.
        rewrite length_append in Hlen. lia. }
      rewrite Hpre.
      exists ((r, take (S size) (String a0 (a ++ String c x))) :: pre), fuel'.
      split; [ reflexivity | exact Hfuel ].
Qed.

Lemma rangeLoop_ascii (c : ascii) (x : string) (fuel : nat) :
  (code c < 128)%Z ->
  String.length (String c x) <= fuel ->
  exists fuel',
    utf8.rangeLoop fuel (String c x)
    = (code c, String c EmptyString) :: utf8.rangeLoop fuel' x /\
    String.length x <= fuel'.
Proof.
  intros Hc Hlen. destruct fuel as [ | fuel]; [ simpl in Hlen; lia | ].
  exists fuel. cbn [utf8.rangeLoop]. rewrite decode_ascii by exact Hc.
  split; [ reflexivity | simpl in Hlen; lia ].
Qed.

Section FieldsOfRunes.

Variable f : Z -> bool.

(** A field that has been started comes out first, possibly longer. *)
Lemma fieldsLoop_started (rs : list (Z * string)) :
  forall field : string,
  exists (more : string) (others : list string),
    strings.fieldsLoop f rs (Some field) = (field ++ more) :: others.
Proof.
  induction rs as [ | [r bytes] rs IH]; intros field; simpl.
  - exists EmptyString, []. now rewrite append_empty_r.
  - destruct (f r).
    + exists EmptyString, (strings.fieldsLoop f rs None). now rewrite append_empty_r.
    + destruct (IH (field ++ bytes)) as (more & others & ->).
      exists (bytes ++ more), others. now rewrite append_assoc.
Qed.

(** A rune that is not a space makes a field. *)
Lemma fieldsLoop_nonspace (pre : list (Z * string)) (r : Z) (bytes : string)
  (post : list (Z * string)) :
  f r = false ->
  forall start : option string,
    1 <= List.length (strings.fieldsLoop f (pre ++ (r, bytes) :: post) start).
Proof.
  intros Hr. induction pre as [ | [r0 b0] pre IH]; intros start; cbn [app strings.fieldsLoop].
  - rewrite Hr.
    destruct start as [field | ];
      [ destruct (fieldsLoop_started post (field ++ bytes)) as (m & o & ->)
      | destruct (fieldsLoop_started post bytes) as (m & o & ->) ]; simpl; lia.
  - destruct (f r0), start; cbn [List.length]; try apply IH.
    specialize (IH None). lia.
Qed.

(** What follows a space comes after whatever came before it. *)
Lemma fieldsLoop_after_space (pre : list (Z * string)) (sp : Z) (spBytes : string)
  (rest : list (Z * string)) :
  f sp = true ->
  1 <= List.length (strings.fieldsLoop f rest None) ->
  forall start : option string,
    1 <= List.length (strings.fieldsLoop f (pre ++ (sp, spBytes) :: rest) start).
Proof.
  intros Hsp Hrest. induction pre as [ | [r0 b0] pre IH]; intros start;
    cbn [app strings.fieldsLoop].
  - rewrite Hsp. destruct start; cbn [List.length]; lia.
  - destruct (f r0), start; cbn [List.length]; try apply IH.
    specialize (IH None). lia.
Qed.

(** A started field, a space later on, a rune that is not a space after
    it: two fields at least, the started one first. *)
Lemma fieldsLoop_two (pre : list (Z * string)) (sp : Z) (spBytes : string)
  (rest : list (Z * string)) :
  f sp = true ->
  1 <= List.length (strings.fieldsLoop f rest None) ->
  forall field : string,
  exists (more : string) (others : list string),
    strings.fieldsLoop f (pre ++ (sp, spBytes) :: rest) (Some field)
    = (field ++ more) :: others /\
    1 <= List.length others.
Proof.
  intros Hsp Hrest. induction pre as [ | [r0 b0] pre IH]; intros field;
    cbn [app strings.fieldsLoop].
  - rewrite Hsp. exists EmptyString, (strings.fieldsLoop f rest None).
    split; [ now rewrite append_empty_r | exact Hrest ].
  - destruct (f r0).
    + exists EmptyString, (strings.fieldsLoop f (pre ++ (sp, spBytes) :: rest) None).
      split; [ now rewrite append_empty_r | now apply fieldsLoop_after_space ].
    + destruct (IH (field ++ b0)) as (more & others & -> & Ho).
      exists (b0 ++ more), others. split; [ now rewrite append_assoc | exact Ho ].
Qed.

End FieldsOfRunes.

Lemma take_drop (n : nat) (s : string) : take n s ++ drop n s = s.
Proof.
  revert s. induction n as [ | n IH]; intros s; [ reflexivity | ].
  destruct s as [ | c s]; simpl; [ reflexivity | now rewrite IH ].
Qed.

Lemma decode_size_positive (c : ascii) (t : string) :
  1 <= snd (utf8.DecodeRuneInString (String c t)).
Proof.
  unfold utf8.DecodeRuneInString.
  destruct (code c <? utf8.RuneSelf)%Z; [ apply le_n | ].
  destruct (utf8.first (code c)) as [[sz [lo hi]] | ]; [ | apply le_n ].
  destruct (Nat.ltb _ sz); [ apply le_n | ].
  destruct t as [ | c1 t1]; [ apply le_n | ].
  destruct ((code c1 <? lo) || (hi <? code c1))%Z; [ apply le_n | ].
  destruct (Nat.leb sz 2); [ simpl; lia | ].
  destruct t1 as [ | c2 t2]; [ apply le_n | ].
  destruct ((code c2 <? utf8.locb) || (utf8.hicb <? code c2))%Z; [ apply le_n | ].
  destruct (Nat.leb sz 3); [ simpl; lia | ].
  destruct t2 as [ | c3 t3]; [ apply le_n | ].
  destruct ((code c3 <? utf8.locb) || (utf8.hicb <? code c3))%Z; simpl; lia.
Qed.

(** The fuel of [utf8.runes] never runs out: the encodings of the runes
    it yields make up the whole text. *)
Lemma rangeLoop_cover (fuel : nat) :
  forall s : string,
    String.length s <= fuel -> joined (map snd (utf8.rangeLoop fuel s)) = s.
Proof.
  induction fuel as [ | fuel IH]; intros s Hlen.
  - destruct s; [ reflexivity | simpl in Hlen; lia ].
  - destruct s as [ | c t]; [ reflexivity | ].
    cbn [utf8.rangeLoop].
    pose proof (decode_size_positive c t) as Hpos.
    destruct (utf8.DecodeRuneInString (String c t)) as [r size]. cbn [snd] in Hpos.
    cbn [map snd joined fold_right].
    fold (joined (map snd (utf8.rangeLoop fuel (drop size (String c t))))).
    rewrite IH; [ apply take_drop | ].
    rewrite length_drop. cbn [String.length] in *. lia.
Qed.

Lemma runes_cover (s : string) : joined (map snd (utf8.runes s)) = s.
Proof. apply rangeLoop_cover, le_n. Qed.

Lemma digit_is_ascii (d : ascii) : isDigit d = true -> (code d < 128)%Z.
Proof. unfold isDigit. intros H. apply andb_true_iff in H. lia. Qed.

Lemma digit_not_space (d : ascii) : isDigit d = true -> unicode.IsSpace (code d) = false.
Proof.
  unfold isDigit. intros H. apply andb_true_iff in H. destruct H as [H1 H2].
  apply Z.leb_le in H1. apply Z.leb_le in H2.
  unfold unicode.IsSpace, unicode.MaxLatin1.
  destruct (Z.leb_spec (code d) 255); [ | lia ].
  repeat match goal with
         | |- context [(?a =? ?b)%Z] => destruct (Z.eqb_spec a b); [ lia | ]
         end.
  reflexivity.
Qed.

(** A line that passes the pre-filter has two fields at least, and the
    first one starts with [Benchmark]. *)
Lemma prefilter_fields (line : string) :
  regexp.MatchString benchLineMatcher line = true ->
  exists (more : string) (others : list string),
    strings.Fields line = ("Benchmark" ++ more) :: others /\
    1 <= List.length others.
Proof.
  intros H. destruct (benchLine_shape line H) as (w1 & w2 & rest & d & Hd & ->).
  unfold strings.Fields, strings.FieldsFunc, utf8.runes.
  set (y := w1 ++ String tab (w2 ++ String d rest)).
  assert (E : exists fuel, String.length y <= fuel /\
                           utf8.rangeLoop (String.length ("Benchmark" ++ y)) ("Benchmark" ++ y)
                           = ([(66%Z, "B"); (101%Z, "e"); (110%Z, "n"); (99%Z, "c");
                               (104%Z, "h"); (109%Z, "m"); (97%Z, "a"); (114%Z, "r");
                               (107%Z, "k")] ++ utf8.rangeLoop fuel y)%list).
  { exists (String.length y). split; [ apply le_n | reflexivity ]. }
  destruct E as (fuel & Hfuel & ->). subst y.
  destruct (rangeLoop_split tab (w2 ++ String d rest) ltac:(reflexivity) fuel w1 Hfuel)
    as (pre1 & fuel1 & -> & Hfuel1).
  destruct (rangeLoop_ascii tab (w2 ++ String d rest) fuel1 ltac:(reflexivity) Hfuel1)
    as (fuel2 & -> & Hfuel2).
  destruct (rangeLoop_split d rest (digit_is_ascii d Hd) fuel2 w2 Hfuel2)
    as (pre2 & fuel3 & -> & Hfuel3).
  destruct (rangeLoop_ascii d rest fuel3 (digit_is_ascii d Hd) Hfuel3)
    as (fuel4 & -> & _).
  cbn [app strings.fieldsLoop].
  change (unicode.IsSpace 66) with false. change (unicode.IsSpace 101) with false.
  change (unicode.IsSpace 110) with false. change (unicode.IsSpace 99) with false.
  change (unicode.IsSpace 104) with false. change (unicode.IsSpace 109) with false.
  change (unicode.IsSpace 97) with false. change (unicode.IsSpace 114) with false.
  change (unicode.IsSpace 107) with false. cbv iota. cbn [append].
  apply fieldsLoop_two; [ reflexivity | ].
  apply fieldsLoop_nonspace. now apply digit_not_space.
Qed.

Lemma HasPrefix_append (pre more : string) : strings.HasPrefix (pre ++ more) pre = true.
Proof.
  unfold strings.HasPrefix. induction pre as [ | c pre IH]; simpl.
  - destruct more; reflexivity.
  - destruct (ascii_dec c c); [ exact IH | congruence ].
Qed.

Section Prefiltered.

Variable ParseFloat : string -> option float64.

(** On a line that passes the pre-filter, the parser of package bench
    can fail only on the iteration count. *)
Lemma bench_ParseLine_prefiltered (line : string) :
  regexp.MatchString benchLineMatcher line = true ->
  bench.ParseLine ParseFloat line
  = match strconv.Atoi (nth 1 (strings.Fields line) EmptyString) with
    | Some n =>
      inl (bench.parseMeasurements ParseFloat (strings.Fields line)
             (freshBench (nth 0 (strings.Fields line) EmptyString) n))
    | None => inr (bench.BadIterations (nth 1 (strings.Fields line) EmptyString))
    end.
Proof.
  intros H. destruct (prefilter_fields line H) as (more & others & E & Hothers).
  unfold bench.ParseLine. rewrite E.
  destruct others as [ | count others]; [ simpl in Hothers; lia | ].
  cbn [List.length Nat.ltb Nat.leb nth]. rewrite HasPrefix_append. cbn [negb].
  reflexivity.
Qed.

Lemma ParseLine_prefiltered (line : string) :
  regexp.MatchString benchLineMatcher line = true ->
  3 <= List.length (strings.Split line tab) ->
  ParseLine ParseFloat line
  = match strconv.Atoi (nth 1 (strings.Fields line) EmptyString) with
    | Some n =>
      inl (bench.parseMeasurements ParseFloat (strings.Fields line)
             (freshBench (nth 0 (strings.Fields line) EmptyString) n))
    | None =>
      inr (benchError (bench.BadIterations (nth 1 (strings.Fields line) EmptyString)))
    end.
Proof.
  intros H Hsplit. unfold ParseLine. rewrite H. cbn [negb].
  destruct (Nat.ltb_spec (List.length (strings.Split line tab)) 3); [ lia | ].
  rewrite (bench_ParseLine_prefiltered line H).
  destruct (strconv.Atoi (nth 1 (strings.Fields line) EmptyString)); reflexivity.
Qed.

End Prefiltered.

(** ** Unknown units and unparsable quantities *)

Section Measurements.

Variable ParseFloat : string -> option float64.

Lemma parseMeasurement_unknown_unit (b : bench.Bench) (quant unit : string) :
  knownUnit unit = false -> bench.parseMeasurement ParseFloat b quant unit = b.
Proof.
  unfold knownUnit, bench.parseMeasurement. intros H.
  apply orb_false_iff in H. destruct H as [H H4].
  apply orb_false_iff in H. destruct H as [H H3].
  apply orb_false_iff in H. destruct H as [H1 H2].
  now rewrite H1, H2, H3, H4.
Qed.

Lemma parseMeasurement_bad_quantity (b : bench.Bench) (m : metric) (quant : string) :
  quantityParses ParseFloat m quant = false ->
  bench.parseMeasurement ParseFloat b quant (unitLabel m) = b.
Proof.
  unfold quantityParses, bench.parseMeasurement.
  destruct m; cbn [unitLabel String.eqb Ascii.eqb Bool.eqb andb];
    [ destruct (ParseFloat quant) | destruct (ParseFloat quant)
    | destruct (strconv.ParseUint quant) | destruct (strconv.ParseUint quant) ];
    intros H; try discriminate H; reflexivity.
Qed.

Lemma freshBench_unmeasured (m : metric) (name : string) (n : Z) :
  unmeasured m (freshBench name n).
Proof. destruct m; split; reflexivity. Qed.

Lemma parseMeasurement_unmeasured (m : metric) (b : bench.Bench) (quant unit : string) :
  unmeasured m b ->
  (unit = unitLabel m -> quantityParses ParseFloat m quant = false) ->
  unmeasured m (bench.parseMeasurement ParseFloat b quant unit).
Proof.
  intros [Hflag Hval] Hq. unfold bench.parseMeasurement.
  destruct (String.eqb_spec unit "ns/op") as [-> | _].
  { destruct (ParseFloat quant) eqn:E; [ | split; assumption ].
    destruct m;
      [ specialize (Hq eq_refl); unfold quantityParses in Hq; rewrite E in Hq; discriminate Hq
      | .. ];
      (split; [ cbn [bench.Measured]; rewrite Z.land_lor_distr_l, Hflag; reflexivity
              | exact Hval ]). }
  destruct (String.eqb_spec unit "MB/s") as [-> | _].
  { destruct (ParseFloat quant) eqn:E; [ | split; assumption ].
    destruct m;
      [ | specialize (Hq eq_refl); unfold quantityParses in Hq; rewrite E in Hq; discriminate Hq
        | .. ];
      (split; [ cbn [bench.Measured]; rewrite Z.land_lor_distr_l, Hflag; reflexivity
              | exact Hval ]). }
  destruct (String.eqb_spec unit "B/op") as [-> | _].
  { destruct (strconv.ParseUint quant) eqn:E; [ | split; assumption ].
    destruct m;
      [ | | specialize (Hq eq_refl); unfold quantityParses in Hq; rewrite E in Hq;
            discriminate Hq | ];
      (split; [ cbn [bench.Measured]; rewrite Z.land_lor_distr_l, Hflag; reflexivity
              | exact Hval ]). }
  destruct (String.eqb_spec unit "allocs/op") as [-> | _].
  { destruct (strconv.ParseUint quant) eqn:E; [ | split; assumption ].
    destruct m;
      [ | | | specialize (Hq eq_refl); unfold quantityParses in Hq; rewrite E in Hq;
              discriminate Hq ];
      (split; [ cbn [bench.Measured]; rewrite Z.land_lor_distr_l, Hflag; reflexivity
              | exact Hval ]). }
  split; assumption.
Qed.

Lemma parseMeasurements_unmeasured (m : metric) (fields : list string) (b : bench.Bench) :
  unmeasured m b ->
  (forall i : nat,
      1 <= i < List.length fields / 2 ->
      nth (i * 2 + 1) fields EmptyString = unitLabel m ->
      quantityParses ParseFloat m (nth (i * 2) fields EmptyString) = false) ->
  unmeasured m (bench.parseMeasurements ParseFloat fields b).
Proof.
  intros Hb Hq. unfold bench.parseMeasurements.
  assert (Hseq : forall i, In i (seq 1 (List.length fields / 2 - 1)) ->
                           1 <= i < List.length fields / 2).
  { intros i Hi. apply in_seq in Hi. lia. }
  revert b Hb Hseq. generalize (seq 1 (List.length fields / 2 - 1)).
  intros indices. induction indices as [ | i indices IH]; intros b Hb Hseq; simpl.
  - exact Hb.
  - apply IH.
    + apply parseMeasurement_unmeasured; [ exact Hb | ].
      apply Hq. apply Hseq. now left.
    + intros j Hj. apply Hseq. now right.
Qed.

End Measurements.

(** C3 refuted as stated: [BenchmarkFoo<TAB>10<TAB>5 widgets/op] passes
    the pre-filter and carries the unknown unit [widgets/op], yet
    [ParseLine] returns a record and no error, and the loop of [main]
    adds the record to the group and writes nothing on either stream. *)
Lemma C3_counterexample :
  regexp.MatchString benchLineMatcher lineWidgets = true /\
  strings.Fields lineWidgets = ["BenchmarkFoo"; "10"; "5"; "widgets/op"] /\
  knownUnit "widgets/op" = false /\
  ParseLine strconv.ParseFloat lineWidgets = inl (freshBench "BenchmarkFoo" 10) /\
  step strconv.ParseFloat false (mkState emptyGroup EmptyString EmptyString) lineWidgets
  = mkState (AddLine emptyGroup (freshBench "BenchmarkFoo" 10)) EmptyString EmptyString.
Proof. repeat split. Qed.

(** C3, amended. On a line that passes the pre-filter and splits into
    three tab-separated fields at least, a metric field with an unknown
    unit label is skipped ([parseMeasurement] returns the record
    unchanged) and the parse does not fail for it.  When the second
    field of the line is a decimal integer the line yields a record,
    which the loop of [main] appends to the current group, writing no
    diagnostic notice and no echo; only when that field is not an
    integer does the parse fail, and then the loop writes one notice on
    the diagnostic stream, echoes the line and adds no record. *)
Theorem C3_unknown_unit_is_skipped
  (ParseFloat : string -> option float64) (noPassthrough : bool)
  (st : State) (line : string) :
  regexp.MatchString benchLineMatcher line = true ->
  3 <= List.length (strings.Split line tab) ->
  let fields := strings.Fields line in
  (forall (b : bench.Bench) (quant unit : string),
      knownUnit unit = false ->
      bench.parseMeasurement ParseFloat b quant unit = b) /\
  (forall n : Z,
      strconv.Atoi (nth 1 fields EmptyString) = Some n ->
      let b := bench.parseMeasurements ParseFloat fields
                 (freshBench (nth 0 fields EmptyString) n) in
      ParseLine ParseFloat line = inl b /\
      step ParseFloat noPassthrough st line
      = mkState (AddLine (currentBenchmark st) b) (stdout st) (stderr st)) /\
  (strconv.Atoi (nth 1 fields EmptyString) = None ->
   ParseLine ParseFloat line
   = inr (benchError (bench.BadIterations (nth 1 fields EmptyString))) /\
   step ParseFloat noPassthrough st line
   = mkState (currentBenchmark st)
             (stdout st ++ line ++ String newline EmptyString)
             (stderr st ++ "prettybench unrecognized line:" ++ String newline EmptyString)).
Proof.
  intros Hmatch Hsplit fields.
  pose proof (ParseLine_prefiltered ParseFloat line Hmatch Hsplit) as Hparse.
  fold fields in Hparse.
  split; [ apply parseMeasurement_unknown_unit | ].
  split.
  - intros n Hn b. rewrite Hn in Hparse. split; [ exact Hparse | ].
    unfold step. rewrite Hparse. reflexivity.
  - intros Hn. rewrite Hn in Hparse. split; [ exact Hparse | ].
    unfold step. rewrite Hparse. reflexivity.
Qed.

(** The amended C3 on [BenchmarkFoo<TAB>10<TAB>5 widgets/op]. *)
Lemma C3_witness :
  ParseLine strconv.ParseFloat lineWidgets = inl (freshBench "BenchmarkFoo" 10) /\
  step strconv.ParseFloat false (mkState emptyGroup EmptyString EmptyString) lineWidgets
  = mkState (AddLine emptyGroup (freshBench "BenchmarkFoo" 10)) EmptyString EmptyString.
Proof.
  assert (Hmatch : regexp.MatchString benchLineMatcher lineWidgets = true) by reflexivity.
  assert (Hsplit : 3 <= List.length (strings.Split lineWidgets tab))
    by (vm_compute; apply le_n).
  destruct (C3_unknown_unit_is_skipped strconv.ParseFloat false
              (mkState emptyGroup EmptyString EmptyString) lineWidgets Hmatch Hsplit)
    as (_ & Hcount & _).
  exact (Hcount 10%Z eq_refl).
Defined.

(** C4 refuted as stated: [Benchmark<TAB>1] passes the pre-filter and
    splits into two tab-separated fields; [ParseLine] classifies it as
    not a benchmark line, and the loop of [main] echoes it as a
    pass-through line and writes nothing on the diagnostic stream (with
    pass-through suppressed it writes nothing at all). *)
Lemma C4_counterexample :
  regexp.MatchString benchLineMatcher lineTwoFields = true /\
  List.length (strings.Split lineTwoFields tab) = 2 /\
  ParseLine strconv.ParseFloat lineTwoFields = inr errNotBenchLine /\
  step strconv.ParseFloat false (mkState emptyGroup EmptyString EmptyString) lineTwoFields
  = mkState emptyGroup (lineTwoFields ++ String newline EmptyString) EmptyString /\
  step strconv.ParseFloat true (mkState emptyGroup EmptyString EmptyString) lineTwoFields
  = mkState emptyGroup EmptyString EmptyString.
Proof. repeat split. Qed.

(** C4, amended. On a line that passes the pre-filter but splits into
    fewer than three tab-separated fields, [ParseLine] returns
    [errNotBenchLine]: the loop of [main] handles the line as a
    pass-through line, echoing it on standard output unless
    pass-through is suppressed; it writes nothing on the diagnostic
    stream, adds no record and renders no table. *)
Theorem C4_too_few_tab_fields_is_pass_through
  (ParseFloat : string -> option float64) (noPassthrough : bool)
  (st : State) (line : string) :
  regexp.MatchString benchLineMatcher line = true ->
  List.length (strings.Split line tab) < 3 ->
  ParseLine ParseFloat line = inr errNotBenchLine /\
  step ParseFloat noPassthrough st line
  = mkState (currentBenchmark st)
            (stdout st ++ (if noPassthrough then EmptyString
                           else line ++ String newline EmptyString))
            (stderr st).
Proof.
  intros Hmatch Hsplit.
  assert (Hparse : ParseLine ParseFloat line = inr errNotBenchLine).
  { unfold ParseLine. rewrite Hmatch. cbn [negb].
    destruct (Nat.ltb_spec (List.length (strings.Split line tab)) 3); [ reflexivity | lia ]. }
  split; [ exact Hparse | ].
  unfold step. rewrite Hparse, (benchLine_not_okLine line Hmatch).
  destruct noPassthrough; cbn [negb Println currentBenchmark stdout stderr].
  - rewrite append_empty_r. destruct st; reflexivity.
  - reflexivity.
Qed.

(** The amended C4 on [Benchmark<TAB>1]. *)
Lemma C4_witness :
  ParseLine strconv.ParseFloat lineTwoFields = inr errNotBenchLine /\
  step strconv.ParseFloat false (mkState emptyGroup EmptyString EmptyString) lineTwoFields
  = mkState emptyGroup (EmptyString ++ lineTwoFields ++ String newline EmptyString) EmptyString.
Proof.
  apply (C4_too_few_tab_fields_is_pass_through strconv.ParseFloat false
           (mkState emptyGroup EmptyString EmptyString) lineTwoFields).
  - reflexivity.
  - vm_compute. apply le_n.
Defined.

(** C10. On a line that passes the pre-filter and has a decimal
    iteration count (its name then starts with [Benchmark]), a metric
    field whose unit label is recognized but whose quantity fails to
    parse does not fail the parse: [parseMeasurement] returns the record
    unchanged for it, and [ParseLine] of the parser returns a record,
    with the name of the line; if every field of the line with that
    unit label has such a quantity, the record has the metric's flag
    unset and its value zero.  The [ParseLine] of the program returns
    that record when the line also splits into three tab-separated
    fields at least. *)
Theorem C10_unparsable_quantity_is_skipped
  (ParseFloat : string -> option float64) (line : string) (n : Z) :
  regexp.MatchString benchLineMatcher line = true ->
  strconv.Atoi (nth 1 (strings.Fields line) EmptyString) = Some n ->
  strings.HasPrefix (nth 0 (strings.Fields line) EmptyString) "Benchmark" = true /\
  (forall (b : bench.Bench) (m : metric) (quant : string),
      quantityParses ParseFloat m quant = false ->
      bench.parseMeasurement ParseFloat b quant (unitLabel m) = b) /\
  exists b : bench.Bench,
    bench.ParseLine ParseFloat line = inl b /\
    bench.Name b = nth 0 (strings.Fields line) EmptyString /\
    (forall m : metric,
        (forall i : nat,
            1 <= i < List.length (strings.Fields line) / 2 ->
            nth (i * 2 + 1) (strings.Fields line) EmptyString = unitLabel m ->
            quantityParses ParseFloat m (nth (i * 2) (strings.Fields line) EmptyString) = false) ->
        unmeasured m b) /\
    (3 <= List.length (strings.Split line tab) -> ParseLine ParseFloat line = inl b).
Proof.
  intros Hmatch Hn.
  split.
  { destruct (prefilter_fields line Hmatch) as (more & others & -> & _).
    cbn [nth]. apply HasPrefix_append. }
  split; [ intros b m quant; apply parseMeasurement_bad_quantity | ].
  pose proof (bench_ParseLine_prefiltered ParseFloat line Hmatch) as Hparse.
  rewrite Hn in Hparse. eexists. split; [ exact Hparse | ].
  split; [ apply parseMeasurements_Name | ].
  split.
  - intros m Hq. apply parseMeasurements_unmeasured; [ apply freshBench_unmeasured | exact Hq ].
  - intros Hsplit. rewrite (ParseLine_prefiltered ParseFloat line Hmatch Hsplit), Hn. reflexivity.
Qed.

(** C10 on [BenchmarkFoo<TAB>10 abc ns/op], a line with one tab: the
    parser returns a record without a time.  (The [ParseLine] of the
    program does not reach the parser on it, for want of a third
    tab-separated field.) *)
Lemma C10_witness :
  quantityParses strconv.ParseFloat TimePerOp "abc" = false /\
  exists b : bench.Bench,
    bench.ParseLine strconv.ParseFloat lineBadQuantityOneTab = inl b /\
    bench.Name b = "BenchmarkFoo" /\
    unmeasured TimePerOp b /\
    ParseLine strconv.ParseFloat lineBadQuantityOneTab = inr errNotBenchLine.
Proof.
  split; [ reflexivity | ].
  destruct (C10_unparsable_quantity_is_skipped strconv.ParseFloat lineBadQuantityOneTab 10%Z)
    as (_ & _ & b & Hb & Hname & Hm & _); [ reflexivity | reflexivity | ].
  exists b. split; [ exact Hb | ]. split; [ exact Hname | ]. split; [ | reflexivity ]. apply Hm.
  intros i Hi. change (List.length (strings.Fields lineBadQuantityOneTab) / 2) with 2 in Hi.
  assert (i = 1) by lia. subst i. reflexivity.
Defined.

(** ** The width of a column, written and read back *)

Lemma of_lu_nat_N (d : Decimal.uint) :
  N.of_nat (DecimalNat.Unsigned.of_lu d) = DecimalPos.Unsigned.of_lu d.
Proof.
  induction d; cbn [DecimalNat.Unsigned.of_lu DecimalPos.Unsigned.of_lu]; lia.
Qed.

Lemma of_uint_to_uint (p : positive) : Nat.of_uint (Pos.to_uint p) = Pos.to_nat p.
Proof.
  apply Nnat.Nat2N.inj.
  rewrite DecimalNat.Unsigned.of_uint_alt, of_lu_nat_N, <- DecimalPos.Unsigned.of_uint_alt,
    DecimalPos.Unsigned.of_to.
  now rewrite positive_nat_N.
Qed.

Lemma of_uint_acc_le (d : Decimal.uint) : forall acc : nat, acc <= Nat.of_uint_acc d acc.
Proof.
  induction d; intros acc; cbn [Nat.of_uint_acc]; [ apply le_n | .. ];
    (etransitivity; [ | apply IHd ]); rewrite Nat.tail_mul_spec; lia.
Qed.

(** The digits of a width are read back as the width. *)
Lemma doPrintf_width (d : Decimal.uint) :
  forall (minus : bool) (acc : nat) (rest : string) (a : option fmt.arg),
    (Z.of_nat (Nat.of_uint_acc d acc) <= 1000000)%Z ->
    fmt.doPrintf (NilEmpty.string_of_uint d ++ rest) (fmt.Width minus acc) a
    = fmt.doPrintf rest (fmt.Width minus (Nat.of_uint_acc d acc)) a.
Proof.
  induction d; intros minus acc rest a Hle;
    cbn [NilEmpty.string_of_uint append Nat.of_uint_acc] in *; [ reflexivity | .. ];
    (rewrite Nat.tail_mul_spec in *;
     cbn [fmt.doPrintf];
     match goal with
     | |- context [isDigit ?c] => change (isDigit c) with true
     end;
     cbv iota;
     assert (Hacc : fmt.tooLarge acc = false)
       by (unfold fmt.tooLarge; apply Z.ltb_ge;
           match type of Hle with
           | (Z.of_nat (Nat.of_uint_acc _ ?x) <= _)%Z =>
             pose proof (of_uint_acc_le d x) as Hx; lia
           end);
     rewrite Hacc, <- IHd by exact Hle;
     f_equal; f_equal;
     match goal with
     | |- context [Z.to_nat (digitVal ?c)] =>
       let v := eval vm_compute in (Z.to_nat (digitVal c)) in
       change (Z.to_nat (digitVal c)) with v
     end; lia).
Qed.

Lemma doPrintf_flags_width (d : Decimal.uint) (minus : bool) (rest : string)
  (a : option fmt.arg) :
  d <> Decimal.Nil ->
  (Z.of_nat (Nat.of_uint d) <= 1000000)%Z ->
  fmt.doPrintf (NilEmpty.string_of_uint d ++ rest) (fmt.Flags minus) a
  = fmt.doPrintf rest (fmt.Width minus (Nat.of_uint d)) a.
Proof.
  intros Hd Hle. unfold Nat.of_uint in *.
  destruct d; [ congruence | .. ];
    cbn [NilEmpty.string_of_uint append Nat.of_uint_acc] in *;
    rewrite ?Nat.tail_mul_spec, ?Nat.mul_0_r in *;
    cbn [fmt.doPrintf];
    match goal with
    | |- context [isDigit ?c] => change (isDigit c) with true
    end;
    match goal with
    | |- context [Ascii.eqb ?c "-"] => change (Ascii.eqb c "-") with false
    end;
    cbv iota;
    match goal with
    | |- context [Z.to_nat (digitVal ?c)] =>
      let v := eval vm_compute in (Z.to_nat (digitVal c)) in
      change (Z.to_nat (digitVal c)) with v
    end;
    apply doPrintf_width; exact Hle.
Qed.

(** [fmt.Sprintf] on the width of a column, then on a cell with the
    format it returned. *)
Lemma FormatInt_of_nat (w : nat) :
  exists d : Decimal.uint,
    strconv.FormatInt (Z.of_nat w) = NilEmpty.string_of_uint d /\
    d <> Decimal.Nil /\ Nat.of_uint d = w.
Proof.
  destruct w as [ | n].
  - exists (Decimal.D0 Decimal.Nil). repeat split. discriminate.
  - exists (Pos.to_uint (Pos.of_succ_nat n)). split; [ reflexivity | ]. split.
    + apply DecimalPos.Unsigned.to_uint_nonnil.
    + rewrite of_uint_to_uint. apply SuccNat2Pos.id_succ.
Qed.

Lemma pad_Repeat (minus : bool) (w : nat) (s : string) :
  fmt.pad minus (Some w) s
  = if minus then s ++ strings.Repeat " " (w - utf8.RuneCountInString s)
    else strings.Repeat " " (w - utf8.RuneCountInString s) ++ s.
Proof.
  destruct w as [ | n]; [ | reflexivity ].
  cbn [fmt.pad Nat.sub strings.Repeat append]. destruct minus; [ | reflexivity ].
  now rewrite append_empty_r.
Qed.

Lemma Sprintf_cell (w i rowLen : nat) (cell : string) :
  (Z.of_nat w <= 1000000)%Z ->
  fmt.Sprintf (fmt.Sprintf (getFormat i rowLen) (fmt.Int (Z.of_nat w))) (fmt.Str cell)
  = if Nat.eqb i 0 then fmt.pad true (Some w) cell ++ "   "
    else if Nat.eqb i (rowLen - 1) then fmt.pad false (Some w) cell
    else fmt.pad false (Some w) cell ++ "   ".
Proof.
  intros Hw. destruct (FormatInt_of_nat w) as (d & Hd & Hnil & Hval).
  rewrite <- Hval in Hw.
  unfold getFormat.
  destruct (Nat.eqb i 0); [ | destruct (Nat.eqb i (rowLen - 1)) ].
  - change (fmt.Sprintf "%%-%ds   " (fmt.Int (Z.of_nat w)))
      with ("%-" ++ strconv.FormatInt (Z.of_nat w) ++ "s   ").
    rewrite Hd. unfold fmt.Sprintf. cbn [append fmt.doPrintf].
    change (Ascii.eqb "%" "%") with true. change (Ascii.eqb "-" "-") with true. cbv iota.
    rewrite (doPrintf_flags_width d true _ _ Hnil Hw), Hval. reflexivity.
  - change (fmt.Sprintf "%%%ds" (fmt.Int (Z.of_nat w)))
      with ("%" ++ strconv.FormatInt (Z.of_nat w) ++ "s").
    rewrite Hd. unfold fmt.Sprintf. cbn [append fmt.doPrintf].
    change (Ascii.eqb "%" "%") with true. cbv iota.
    rewrite (doPrintf_flags_width d false _ _ Hnil Hw), Hval.
    cbn. now rewrite append_empty_r.
  - change (fmt.Sprintf "%%%ds   " (fmt.Int (Z.of_nat w)))
      with ("%" ++ strconv.FormatInt (Z.of_nat w) ++ "s   ").
    rewrite Hd. unfold fmt.Sprintf. cbn [append fmt.doPrintf].
    change (Ascii.eqb "%" "%") with true. cbv iota.
    rewrite (doPrintf_flags_width d false _ _ Hnil Hw), Hval. reflexivity.
Qed.

(** ** Counting runes *)

Lemma rangeLoop_fuels (fuel : nat) :
  forall (fuel' : nat) (s : string),
    String.length s <= fuel -> String.length s <= fuel' ->
    utf8.rangeLoop fuel s = utf8.rangeLoop fuel' s.
Proof.
  induction fuel as [ | fuel IH]; intros fuel' s Hlen Hlen'.
  - destruct s; [ destruct fuel'; reflexivity | simpl in Hlen; lia ].
  - destruct s as [ | c t]; [ destruct fuel'; reflexivity | ].
    destruct fuel' as [ | fuel']; [ simpl in Hlen'; lia | ].
    cbn [utf8.rangeLoop].
    pose proof (decode_size_positive c t) as Hpos.
    destruct (utf8.DecodeRuneInString (String c t)) as [r size]. cbn [snd] in Hpos.
    f_equal. apply IH; rewrite length_drop; cbn [String.length] in *; lia.
Qed.

Lemma rangeLoop_fuel (fuel : nat) (s : string) :
  String.length s <= fuel -> utf8.rangeLoop fuel s = utf8.runes s.
Proof. intros H. apply rangeLoop_fuels; [ exact H | apply le_n ]. Qed.

Lemma runes_cons (c : ascii) (t : string) :
  utf8.runes (String c t)
  = (fst (utf8.DecodeRuneInString (String c t)),
     take (snd (utf8.DecodeRuneInString (String c t))) (String c t))
    :: utf8.runes (drop (snd (utf8.DecodeRuneInString (String c t))) (String c t)).
Proof.
  unfold utf8.runes at 1. cbn [String.length utf8.rangeLoop].
  pose proof (decode_size_positive c t) as Hpos.
  destruct (utf8.DecodeRuneInString (String c t)) as [r size]. cbn [fst snd] in *.
  f_equal. apply rangeLoop_fuel. rewrite length_drop. cbn [String.length]. lia.
Qed.

Lemma runes_ascii (c : ascii) (t : string) :
  (code c < 128)%Z ->
  utf8.runes (String c t) = (code c, String c EmptyString) :: utf8.runes t.
Proof.
  intros Hc. rewrite runes_cons, decode_ascii by exact Hc. reflexivity.
Qed.

(** An ASCII byte ends the rune before it: what is decoded before the
    byte does not depend on it, nor on what follows it. *)
Lemma decode_before_ascii (a0 : ascii) (a : string) (c : ascii) (x : string) :
  (code c < 128)%Z ->
  utf8.DecodeRuneInString (String a0 (a ++ String c x))
  = utf8.DecodeRuneInString (String a0 a).
Proof.
  intros Hc. unfold utf8.DecodeRuneInString.
  destruct (code a0 <? utf8.RuneSelf)%Z; [ reflexivity | ].
  destruct (utf8.first (code a0)) as [[sz [lo hi]] | ] eqn:Ef; [ | reflexivity ].
  pose proof (first_lo _ _ _ _ Ef) as Hlo.
  assert (Hsz : sz = 2 \/ sz = 3 \/ sz = 4).
  { unfold utf8.first in Ef.
    repeat match type of Ef with
           | (if ?b then _ else _) = _ => destruct b
           end; inversion Ef; auto. }
  assert (Hc1 : (code c <? lo)%Z = true) by (apply Z.ltb_lt; lia).
  assert (Hc2 : (code c <? utf8.locb)%Z = true) by (apply Z.ltb_lt; unfold utf8.locb; lia).
  cbn [String.length]. rewrite length_append. cbn [String.length].
  destruct a as [ | a1 a]; cbn [append String.length].
  { rewrite Hc1. cbn [orb].
    destruct Hsz as [-> | [-> | ->]]; cbn [Nat.ltb Nat.leb Nat.add];
      repeat match goal with
             | |- context [if ?b then _ else _] => destruct b
             end; reflexivity. }
  destruct ((code a1 <? lo) || (hi <? code a1))%Z.
  { destruct Hsz as [-> | [-> | ->]]; cbn [Nat.ltb Nat.leb Nat.add];
      repeat match goal with
             | |- context [if ?b then _ else _] => destruct b
             end; reflexivity. }
  destruct a as [ | a2 a]; cbn [append String.length].
  { rewrite Hc2. cbn [orb].
    destruct Hsz as [-> | [-> | ->]]; cbn [Nat.ltb Nat.leb Nat.add];
      repeat match goal with
             | |- context [if ?b then _ else _] => destruct b
             end; reflexivity. }
  destruct ((code a2 <? utf8.locb) || (utf8.hicb <? code a2))%Z.
  { destruct Hsz as [-> | [-> | ->]]; cbn [Nat.ltb Nat.leb Nat.add];
      repeat match goal with
             | |- context [if ?b then _ else _] => destruct b
             end; reflexivity. }
  destruct a as [ | a3 a]; cbn [append String.length].
  { rewrite Hc2. cbn [orb].
    destruct Hsz as [-> | [-> | ->]]; cbn [Nat.ltb Nat.leb Nat.add];
      repeat match goal with
             | |- context [if ?b then _ else _] => destruct b
             end; reflexivity. }
  destruct Hsz as [-> | [-> | ->]]; cbn [Nat.ltb Nat.leb Nat.add];
      repeat match goal with
             | |- context [if ?b then _ else _] => destruct b
             end; reflexivity.
Qed.

Lemma take_append (n : nat) (a b : string) :
  n <= String.length a -> take n (a ++ b) = take n a.
Proof.
  revert a. induction n as [ | n IH]; intros a H; [ reflexivity | ].
  destruct a as [ | c a]; simpl in *; [ lia | ]. rewrite IH by lia. reflexivity.
Qed.

(** The runes of a text that an ASCII byte follows are read the same
    with and without what follows. *)
Lemma runes_app_ascii (c : ascii) (x : string) :
  (code c < 128)%Z ->
  forall a : string,
    utf8.runes (a ++ String c x) = (utf8.runes a ++ utf8.runes (String c x))%list.
Proof.
  intros Hc a.
  remember (String.length a) as n eqn:Hn.
  assert (Hle : String.length a <= n) by lia. clear Hn.
  revert a Hle. induction n as [ | n IH]; intros a Hle.
  - destruct a; [ reflexivity | simpl in Hle; lia ].
  - destruct a as [ | a0 a]; [ reflexivity | ].
    cbn [append]. rewrite (runes_cons a0 (a ++ String c x)), (runes_cons a0 a).
    rewrite (decode_before_ascii a0 a c x Hc).
    pose proof (decode_size_bound a0 a c x) as Hb.
    rewrite (decode_before_ascii a0 a c x Hc) in Hb.
    destruct (utf8.DecodeRuneInString (String a0 a)) as [r size].
    specialize (Hb r size Hc eq_refl). cbn [fst snd].
    change (String a0 (a ++ String c x)) with (String a0 a ++ String c x).
    rewrite take_append, drop_append by (cbn [String.length]; lia).
    rewrite IH; [ reflexivity | ].
    rewrite length_drop. cbn [String.length] in *. lia.
Qed.

Lemma runes_snoc_ascii (c : ascii) (a b : string) :
  (code c < 128)%Z ->
  utf8.runes ((a ++ String c EmptyString) ++ b)
  = (utf8.runes (a ++ String c EmptyString) ++ utf8.runes b)%list.
Proof.
  intros Hc. rewrite append_assoc. cbn [append].
  rewrite !(runes_app_ascii c _ Hc), !(runes_ascii c _ Hc).
  change (utf8.runes EmptyString) with (@nil (Z * string)).
  rewrite <- app_assoc. reflexivity.
Qed.

Lemma RuneCount_le_length (s : string) :
  utf8.RuneCountInString s <= String.length s.
Proof.
  unfold utf8.RuneCountInString, utf8.runes.
  generalize (String.length s) at 1 as fuel. intros fuel. revert s.
  induction fuel as [ | fuel IH]; intros s; [ simpl; lia | ].
  destruct s as [ | c t]; [ simpl; lia | ].
  cbn [utf8.rangeLoop].
  pose proof (decode_size_positive c t) as Hpos.
  destruct (utf8.DecodeRuneInString (String c t)) as [r size]. cbn [snd] in Hpos.
  cbn [List.length]. specialize (IH (drop size (String c t))).
  rewrite length_drop in IH. cbn [String.length] in *. lia.
Qed.

Lemma runes_spaces (n : nat) (s : string) :
  utf8.runes (strings.Repeat " " n ++ s)
  = (repeat (32%Z, " ") n ++ utf8.runes s)%list.
Proof.
  induction n as [ | n IH]; [ reflexivity | ].
  cbn [strings.Repeat append repeat app].
  rewrite runes_ascii by reflexivity. rewrite IH. reflexivity.
Qed.

Lemma RuneCount_spaces_l (n : nat) (s : string) :
  utf8.RuneCountInString (strings.Repeat " " n ++ s) = n + utf8.RuneCountInString s.
Proof.
  unfold utf8.RuneCountInString. rewrite runes_spaces, length_app, repeat_length.
  reflexivity.
Qed.

Lemma RuneCount_spaces (n : nat) : utf8.RuneCountInString (strings.Repeat " " n) = n.
Proof.
  rewrite <- (append_empty_r (strings.Repeat " " n)), RuneCount_spaces_l.
  change (utf8.RuneCountInString EmptyString) with 0. lia.
Qed.

Lemma RuneCount_spaces_r (n : nat) (s : string) :
  utf8.RuneCountInString (s ++ strings.Repeat " " n) = utf8.RuneCountInString s + n.
Proof.
  destruct n as [ | n].
  - cbn [strings.Repeat]. rewrite append_empty_r. lia.
  - pose proof (RuneCount_spaces (S n)) as Hn. revert Hn.
    unfold utf8.RuneCountInString. cbn [strings.Repeat append].
    rewrite runes_app_ascii by reflexivity. rewrite length_app. lia.
Qed.

(** ** The text of a table *)

Lemma joined_app (xs ys : list string) : joined (xs ++ ys) = joined xs ++ joined ys.
Proof.
  induction xs as [ | x xs IH]; [ reflexivity | ].
  cbn [app joined fold_right]. fold (joined (xs ++ ys)). fold (joined xs).
  now rewrite IH, append_assoc.
Qed.

Lemma formatCell_text (widths : list nat) (rowLen : nat) (buf : string) (i w : nat)
  (cell : string) :
  nth_error widths i = Some w ->
  (Z.of_nat w <= 1000000)%Z ->
  formatCell widths rowLen buf (i, cell) = Ok (buf ++ cellText w i rowLen cell).
Proof.
  intros Hi Hw. unfold formatCell, index. cbn [fst snd]. rewrite Hi. cbn [bind].
  rewrite (Sprintf_cell w i rowLen cell Hw), !pad_Repeat. unfold cellText.
  destruct (Nat.eqb i 0); [ | destruct (Nat.eqb i (rowLen - 1)) ];
    now rewrite ?append_assoc.
Qed.

Lemma formatCells_text (widths : list nat) (rowLen : nat) (row : list string) :
  Forall (fun w => (Z.of_nat w <= 1000000)%Z) widths ->
  forall (k : nat) (buf : string),
    k + List.length row <= List.length widths ->
    foldM (formatCell widths rowLen) (combine (seq k (List.length row)) row) buf
    = Ok (buf ++ joined (map (fun ic => cellText (nth (fst ic) widths 0) (fst ic) rowLen (snd ic))
                             (combine (seq k (List.length row)) row))).
Proof.
  intros Hw. induction row as [ | cell row IH]; intros k buf Hk.
  - cbn. now rewrite append_empty_r.
  - cbn [List.length seq combine foldM map joined fold_right fst snd] in *.
    destruct (nth_error widths k) as [w | ] eqn:Ek;
      [ | apply nth_error_None in Ek; lia ].
    rewrite (formatCell_text widths rowLen buf k w cell Ek).
    + cbn [bind]. rewrite IH by lia. rewrite append_assoc.
      rewrite (nth_error_nth _ _ 0 Ek). reflexivity.
    + rewrite Forall_forall in Hw. apply Hw. eapply nth_error_In. exact Ek.
Qed.

Lemma formatRow_text (widths : list nat) (buf : string) (row : list string) :
  Forall (fun w => (Z.of_nat w <= 1000000)%Z) widths ->
  List.length row <= List.length widths ->
  formatRow widths buf row = Ok (buf ++ renderRow widths row).
Proof.
  intros Hw Hlen. unfold formatRow, enumerate.
  rewrite (formatCells_text widths (List.length row) row Hw 0 buf) by lia.
  cbn [bind]. unfold renderRow, renderCells, enumerate. now rewrite append_assoc.
Qed.

Lemma formatRows_text (widths : list nat) (cells : list (list string)) :
  Forall (fun w => (Z.of_nat w <= 1000000)%Z) widths ->
  Forall (fun row => List.length row <= List.length widths) cells ->
  forall buf : string,
    foldM (formatRow widths) cells buf = Ok (buf ++ renderTable widths cells).
Proof.
  intros Hw Hrows. induction Hrows as [ | row cells Hrow Hrows IH]; intros buf.
  - cbn. now rewrite append_empty_r.
  - cbn [foldM]. rewrite (formatRow_text widths buf row Hw Hrow). cbn [bind].
    rewrite IH. unfold renderTable. cbn [map joined fold_right].
    now rewrite append_assoc.
Qed.

Lemma formatRows_panic (widths : list nat) (cells : list (list string)) :
  Exists (fun row => List.length widths < List.length row) cells ->
  forall buf : string,
    foldM (formatRow widths) cells buf
    = Panic (IndexOutOfRange (List.length widths) (List.length widths)).
Proof.
  intros Hex. induction cells as [ | row cells IH]; intros buf.
  - inversion Hex.
  - cbn [foldM]. destruct (Nat.le_gt_cases (List.length row) (List.length widths)) as [Hle | Hgt].
    + destruct (formatRow_ok widths buf row Hle) as [out ->]. cbn [bind].
      apply IH. inversion Hex; subst; [ lia | assumption ].
    + rewrite (formatRow_panic widths buf row Hgt). reflexivity.
Qed.

Lemma formatRows_ok (widths : list nat) (cells : list (list string)) :
  Forall (fun row => List.length row <= List.length widths) cells ->
  forall buf : string, exists text, foldM (formatRow widths) cells buf = Ok text.
Proof.
  intros Hall. induction Hall as [ | row cells Hrow Hrest IH]; intros buf.
  - eexists. reflexivity.
  - cbn [foldM]. destruct (formatRow_ok widths buf row Hrow) as [out ->]. cbn [bind].
    apply IH.
Qed.

(** ** Columns line up *)

Lemma Repeat_add (s : string) (a b : nat) :
  strings.Repeat s a ++ strings.Repeat s b = strings.Repeat s (a + b).
Proof.
  induction a as [ | a IH]; [ reflexivity | ].
  cbn [strings.Repeat Nat.add]. now rewrite append_assoc, IH.
Qed.

Lemma RuneCount_cellText (w i rowLen : nat) (cell : string) :
  fits cell w ->
  utf8.RuneCountInString (cellText w i rowLen cell) = w + gap i rowLen.
Proof.
  unfold fits, cellText, gap. intros Hfit.
  change "   " with (strings.Repeat " " 3).
  destruct (Nat.eqb i 0); [ | destruct (Nat.eqb i (rowLen - 1)) ].
  - rewrite Repeat_add, RuneCount_spaces_r. lia.
  - rewrite RuneCount_spaces_l. lia.
  - rewrite RuneCount_spaces_l, RuneCount_spaces_r. lia.
Qed.

(** A cell that another one follows ends with a space, so that the
    runes of the two are counted apart. *)
Lemma RuneCount_cellText_app (w i rowLen : nat) (cell rest : string) :
  gap i rowLen = 3 ->
  utf8.RuneCountInString (cellText w i rowLen cell ++ rest)
  = utf8.RuneCountInString (cellText w i rowLen cell) + utf8.RuneCountInString rest.
Proof.
  unfold gap, cellText. intros Hgap.
  assert (E : forall x : string,
             utf8.RuneCountInString ((x ++ "   ") ++ rest)
             = utf8.RuneCountInString (x ++ "   ") + utf8.RuneCountInString rest).
  { intros x. change "   " with ("  " ++ " "). rewrite <- (append_assoc x "  " " ").
    unfold utf8.RuneCountInString.
    rewrite (runes_snoc_ascii " " (x ++ "  ") rest) by reflexivity.
    apply length_app. }
  destruct (Nat.eqb i 0); [ | destruct (Nat.eqb i (rowLen - 1)); [ discriminate Hgap | ] ].
  - rewrite <- !append_assoc. apply E.
  - rewrite <- !append_assoc. apply E.
Qed.

Lemma columns_from (widths : list nat) (rowLen : nat) (row : list string) :
  forall j k : nat,
    j + List.length row = rowLen ->
    (forall i cell, nth_error row i = Some cell -> fits cell (nth (j + i) widths 0)) ->
    utf8.RuneCountInString
      (joined (firstn k (map (fun ic => cellText (nth (fst ic) widths 0) (fst ic) rowLen (snd ic))
                             (combine (seq j (List.length row)) row))))
    = list_sum (firstn k (map (fun i => nth i widths 0 + gap i rowLen)
                              (seq j (List.length row)))).
Proof.
  induction row as [ | cell row IH]; intros j k Hj Hfit.
  - destruct k; reflexivity.
  - destruct k as [ | k]; [ reflexivity | ].
    cbn [List.length seq combine map firstn joined fold_right list_sum fst snd].
    fold (list_sum (firstn k (map (fun i => nth i widths 0 + gap i rowLen)
                                  (seq (S j) (List.length row))))).
    match goal with
    | |- context [fold_right append EmptyString ?l] => fold (joined l)
    end.
    assert (Hcell : fits cell (nth j widths 0)).
    { specialize (Hfit 0 cell eq_refl). now rewrite Nat.add_0_r in Hfit. }
    specialize (IH (S j) k).
    rewrite <- IH.
    + destruct row as [ | cell' row].
      * destruct k; cbn [combine List.length seq map firstn joined fold_right];
          rewrite append_empty_r, (RuneCount_cellText _ _ _ _ Hcell);
          change (utf8.RuneCountInString EmptyString) with 0; lia.
      * rewrite RuneCount_cellText_app, (RuneCount_cellText _ _ _ _ Hcell);
          [ reflexivity | ].
        unfold gap. cbn [List.length] in Hj.
        destruct (Nat.eqb j 0); [ reflexivity | ].
        destruct (Nat.eqb_spec j (rowLen - 1)); [ lia | reflexivity ].
    + cbn [List.length] in Hj. lia.
    + intros i c Hi. specialize (Hfit (S i) c Hi).
      now rewrite Nat.add_succ_r in Hfit.
Qed.

Lemma columns_line_up (widths : list nat) (row : list string) (k : nat) :
  Forall2 fits row widths ->
  utf8.RuneCountInString (joined (firstn k (renderCells widths row)))
  = columnStart widths k.
Proof.
  intros Hfit. pose proof (Forall2_length Hfit) as Hlen.
  unfold renderCells, enumerate, columnStart. rewrite <- Hlen.
  apply columns_from; [ reflexivity | ].
  intros i cell Hi. cbn [Nat.add].
  revert i Hi. induction Hfit as [ | c w row ws Hcw Hrest IH]; intros i Hi.
  - destruct i; discriminate Hi.
  - destruct i as [ | i]; cbn [nth_error nth] in *.
    + now injection Hi as <-.
    + apply IH; [ now injection Hlen | exact Hi ].
Qed.

(** ** The widths of the columns *)

Lemma foldM_app (A B : Type) (f : B -> A -> result B) (l1 l2 : list A) (b : B) :
  foldM f (l1 ++ l2) b = (b' <- foldM f l1 b ;; foldM f l2 b').
Proof.
  revert b. induction l1 as [ | a l1 IH]; intros b; [ reflexivity | ].
  cbn [app foldM]. destruct (f b a) as [b' | e]; cbn [bind]; [ apply IH | reflexivity ].
Qed.

Lemma maxLength_value (i : nat) (cells : list (list string)) :
  (forall row, In row cells -> i < List.length row) ->
  forall m0 : nat,
    foldM (fun maxLength row =>
             cell <- index row i ;;
             Ok (if Nat.ltb maxLength (String.length cell)
                 then String.length cell else maxLength)) cells m0
    = Ok (Nat.max m0 (columnMax i cells)).
Proof.
  unfold columnMax. induction cells as [ | row cells IH]; intros Hrows m0.
  - cbn. now rewrite Nat.max_0_r.
  - cbn [foldM map list_max fold_right]. unfold index.
    destruct (nth_error row i) as [cell | ] eqn:E.
    + cbn [bind]. rewrite IH by (intros r Hr; apply Hrows; now right).
      rewrite (nth_error_nth _ _ EmptyString E). f_equal.
      fold (list_max (map (fun row0 => String.length (nth i row0 EmptyString)) cells)).
      destruct (Nat.ltb_spec m0 (String.length cell)); lia.
    + apply nth_error_None in E. specialize (Hrows row (or_introl eq_refl)). lia.
Qed.

(** At the column where the shortest row ends, the inner loop of
    [findMaxLengths] reads past the end of that row. *)
Lemma maxLength_panic (m : nat) (cells : list (list string)) :
  (forall row, In row cells -> m <= List.length row) ->
  (exists row, In row cells /\ List.length row = m) ->
  forall m0 : nat,
    foldM (fun maxLength row =>
             cell <- index row m ;;
             Ok (if Nat.ltb maxLength (String.length cell)
                 then String.length cell else maxLength)) cells m0
    = Panic (IndexOutOfRange m m).
Proof.
  induction cells as [ | row cells IH]; intros Hrows (short & Hin & Hshort) m0.
  - destruct Hin.
  - cbn [foldM]. unfold index. destruct (nth_error row m) as [cell | ] eqn:E.
    + cbn [bind]. apply IH.
      * intros r Hr. apply Hrows. now right.
      * exists short. split; [ | exact Hshort ].
        destruct Hin as [<- | Hin]; [ | exact Hin ].
        assert (m < List.length row) by (apply nth_error_Some; congruence). lia.
    + apply nth_error_None in E. specialize (Hrows row (or_introl eq_refl)).
      assert (List.length row = m) by lia. cbn [bind]. congruence.
Qed.

Lemma findMaxLengths_columns (cells : list (list string)) (columns : list nat) :
  (forall i row, In i columns -> In row cells -> i < List.length row) ->
  forall acc : list nat,
    foldM (fun tableMaxLengths i =>
             maxLength <-
               foldM (fun maxLength row =>
                        cell <- index row i ;;
                        Ok (if Nat.ltb maxLength (String.length cell)
                            then String.length cell else maxLength)) cells 0 ;;
             Ok (tableMaxLengths ++ [maxLength])%list) columns acc
    = Ok (acc ++ map (fun i => columnMax i cells) columns)%list.
Proof.
  induction columns as [ | i columns IH]; intros Hrows acc.
  - cbn. now rewrite app_nil_r.
  - cbn [foldM map].
    rewrite maxLength_value by (intros row Hr; apply (Hrows i row); [ now left | exact Hr ]).
    cbn [bind Nat.max]. rewrite IH by (intros j row Hj Hr; apply Hrows; [ now right | exact Hr ]).
    now rewrite <- app_assoc.
Qed.

Lemma findMaxLengths_value (colNames : list string) (cells : list (list string)) :
  (forall row, In row cells -> List.length colNames <= List.length row) ->
  findMaxLengths colNames cells
  = Ok (map (fun i => columnMax i cells) (seq 0 (List.length colNames))).
Proof.
  intros Hrows. unfold findMaxLengths. rewrite findMaxLengths_columns; [ reflexivity | ].
  intros i row Hi Hr. apply in_seq in Hi. specialize (Hrows row Hr). lia.
Qed.

Lemma list_max_In (l : list nat) : l <> [] -> In (list_max l) l.
Proof.
  induction l as [ | x l IH]; [ congruence | intros _ ].
  cbn [list_max fold_right]. fold (list_max l).
  destruct l as [ | y l]; [ left; cbn; lia | ].
  destruct (Nat.max_spec x (list_max (y :: l))) as [[_ ->] | [_ ->]].
  - right. apply IH. discriminate.
  - now left.
Qed.

Lemma columnMax_bound (i : nat) (cells : list (list string)) (row : list string) :
  In row cells -> String.length (nth i row EmptyString) <= columnMax i cells.
Proof.
  intros Hin. unfold columnMax.
  pose proof (proj1 (list_max_le (map (fun r => String.length (nth i r EmptyString)) cells)
                                 (list_max (map (fun r => String.length (nth i r EmptyString)) cells)))
                    (le_n _)) as H.
  rewrite Forall_forall in H. apply H.
  apply in_map_iff. exists row. split; [ reflexivity | exact Hin ].
Qed.

Lemma columnMax_attained (i : nat) (cells : list (list string)) :
  cells <> [] ->
  exists row, In row cells /\ String.length (nth i row EmptyString) = columnMax i cells.
Proof.
  intros Hne. unfold columnMax.
  destruct (proj1 (in_map_iff _ _ _)
              (list_max_In (map (fun r => String.length (nth i r EmptyString)) cells)
                           ltac:(destruct cells; [ congruence | discriminate ])))
    as (row & Hrow & Hin).
  exists row. split; [ exact Hin | exact Hrow ].
Qed.

(** ** A rectangular table *)

Lemma Forall2_pointwise (A B : Type) (P : A -> B -> Prop) (da : A) (db : B) :
  forall (l : list A) (l' : list B),
    List.length l = List.length l' ->
    (forall i, i < List.length l -> P (nth i l da) (nth i l' db)) ->
    Forall2 P l l'.
Proof.
  induction l as [ | a l IH]; intros [ | b l'] Hlen H; try discriminate Hlen.
  - constructor.
  - constructor.
    + apply (H 0). simpl. lia.
    + apply IH; [ now injection Hlen | ].
      intros i Hi. apply (H (S i)). simpl. lia.
Qed.

Lemma columnWidths_length (n : nat) (cells : list (list string)) :
  List.length (columnWidths n cells) = n.
Proof. unfold columnWidths. now rewrite length_map, length_seq. Qed.

Lemma columnWidths_nth (n : nat) (cells : list (list string)) (i : nat) :
  i < n -> nth i (columnWidths n cells) 0 = columnMax i cells.
Proof.
  intros Hi. unfold columnWidths.
  rewrite (nth_indep _ 0 (columnMax 0 cells)) by (now rewrite length_map, length_seq).
  etransitivity; [ apply (map_nth (fun i => columnMax i cells)) | ].
  now rewrite seq_nth.
Qed.

Lemma columnWidths_fit (n : nat) (cells : list (list string)) (row : list string) :
  In row cells -> List.length row = n -> Forall2 fits row (columnWidths n cells).
Proof.
  intros Hin Hlen. apply (Forall2_pointwise _ _ fits EmptyString 0).
  - now rewrite columnWidths_length.
  - intros i Hi. rewrite columnWidths_nth by lia. unfold fits.
    etransitivity; [ apply RuneCount_le_length | now apply columnMax_bound ].
Qed.

Lemma columnMax_limit (i : nat) (cells : list (list string)) :
  cellsBelowLimit cells ->
  (forall row, In row cells -> i < List.length row) ->
  (Z.of_nat (columnMax i cells) <= 1000000)%Z.
Proof.
  intros Hlim Hrows. destruct cells as [ | row0 cells]; [ cbn; lia | ].
  destruct (columnMax_attained i (row0 :: cells)) as (row & Hin & <-); [ discriminate | ].
  apply (Hlim row); [ exact Hin | ]. apply nth_In. now apply Hrows.
Qed.

Lemma columnWidths_limit (n : nat) (cells : list (list string)) :
  cellsBelowLimit cells ->
  rectangular n cells ->
  Forall (fun w => (Z.of_nat w <= 1000000)%Z) (columnWidths n cells).
Proof.
  intros Hlim Hrect. unfold columnWidths. apply Forall_forall. intros w Hw.
  apply in_map_iff in Hw. destruct Hw as (i & <- & Hi). apply in_seq in Hi.
  apply columnMax_limit; [ exact Hlim | ].
  intros row Hr. rewrite (Hrect row Hr). lia.
Qed.

(** ** Properties of the rendering functions *)

(** X1. The [String] method renders no table for any group: it returns
    the empty string exactly for the group without records, and on
    every group with a record it panics with an index out of range,
    index and length both being the number of columns of the group
    (three, and one more for each optional column in use). *)
Theorem X1_String_never_renders_a_table (g : BenchOutputGroup) :
  (forall text : string,
      BenchOutputGroup.String g = Ok text <-> Lines g = [] /\ text = EmptyString) /\
  (Lines g <> [] ->
   BenchOutputGroup.String g
   = Panic (IndexOutOfRange (List.length (columnNames g)) (List.length (columnNames g))) /\
   List.length (columnNames g)
   = 3 + Nat.b2n (Z.testbit (Measured g) 1) + Nat.b2n (Z.testbit (Measured g) 2)
     + Nat.b2n (Z.testbit (Measured g) 3)).
Proof.
  split.
  - intros text. split.
    + intros H. destruct (Lines g) as [ | line0 rest] eqn:El.
      * rewrite (String_empty g El) in H. injection H as <-. auto.
      * rewrite String_panics_on_nonempty in H by congruence. discriminate H.
    + intros [Hl ->]. now apply String_empty.
  - intros Hne. split; [ now apply String_panics_on_nonempty | ].
    rewrite columnNames_flags.
    destruct (Z.testbit (Measured g) 1), (Z.testbit (Measured g) 2),
             (Z.testbit (Measured g) 3); reflexivity.
Qed.

(** X1 on the group of one record of 120 ns. *)
Lemma X1_witness :
  BenchOutputGroup.String groupOne = Panic (IndexOutOfRange 3 3) /\
  List.length (columnNames groupOne) = 3.
Proof.
  apply (proj2 (X1_String_never_renders_a_table groupOne)). discriminate.
Defined.

(** X2. [tabulate] reads the first record of the group before it lays
    out any row: on a group without records it panics with an index out
    of range (index 0, length 0), as [TimeFormatFunc] does, whatever the
    columns; on any other group it returns the header, the second row
    and one row per record in the order of [Lines], each record's row
    as long as the header that [String] passes, and leaves [MaxLengths]
    empty. *)
Theorem X2_tabulate_needs_a_record (g : BenchOutputGroup) (cols : list string) :
  match Lines g with
  | [] =>
    TimeFormatFunc g = Panic (IndexOutOfRange 0 0) /\
    tabulate g cols = Panic (IndexOutOfRange 0 0)
  | _ :: _ =>
    exists timeFormatFunc : float64 -> string,
      TimeFormatFunc g = Ok timeFormatFunc /\
      tabulate g cols
      = Ok (mkTable [] (cols :: underlineRow cols
                        :: map (tabulateRow g timeFormatFunc) (Lines g))) /\
      forall line, In line (Lines g) ->
        List.length (tabulateRow g timeFormatFunc line) = List.length (columnNames g)
  end.
Proof.
  destruct (Lines g) as [ | line0 rest] eqn:El.
  - assert (Hf : TimeFormatFunc g = Panic (IndexOutOfRange 0 0)).
    { unfold TimeFormatFunc. rewrite El. reflexivity. }
    split; [ exact Hf | ]. unfold tabulate. rewrite Hf. reflexivity.
  - destruct (smallestOf_nonempty g) as [smallest Hs]; [ congruence | ].
    pose proof (TimeFormatFunc_spec g smallest Hs) as Hf.
    exists (specFormat (specUnit smallest)). split; [ exact Hf | ].
    split; [ rewrite <- El; now apply tabulate_cells | ].
    intros line _. apply tabulateRow_length.
Qed.

(** X2 on the group of one record of 120 ns. *)
Lemma X2_witness :
  exists timeFormatFunc : float64 -> string,
    TimeFormatFunc groupOne = Ok timeFormatFunc /\
    tabulate groupOne (columnNames groupOne)
    = Ok (mkTable [] (columnNames groupOne :: underlineRow (columnNames groupOne)
                      :: map (tabulateRow groupOne timeFormatFunc) (Lines groupOne))) /\
    forall line, In line (Lines groupOne) ->
      List.length (tabulateRow groupOne timeFormatFunc line)
      = List.length (columnNames groupOne).
Proof. exact (X2_tabulate_needs_a_record groupOne (columnNames groupOne)). Defined.

Lemma smallestTime_skips_nan (rest : list bench.Bench) :
  forall first : float64,
    smallestTime first rest
    = smallestTime first (filter (fun line => negb (isNaN (bench.NsOp line))) rest).
Proof.
  induction rest as [ | line rest IH]; intros first; [ reflexivity | ].
  cbn [filter]. destruct (bench.NsOp line) eqn:En; cbn [isNaN negb];
    unfold smallestTime in *; cbn [fold_left]; rewrite En; apply IH.
Qed.

(** X3. A time that is not a number takes part in the choice of the
    unit only when it is the time of the first record: the comparisons
    of [TimeFormatFunc] are all false on NaN, so that a group whose
    first record has the time NaN is shown in seconds whatever its other
    records, and a NaN time of any later record is passed over. *)
Theorem X3_nan_time_counts_only_in_first_record
  (g : BenchOutputGroup) (line0 : bench.Bench) (rest : list bench.Bench) :
  Lines g = line0 :: rest ->
  (bench.NsOp line0 = S754_nan -> TimeFormatFunc g = Ok (specFormat Seconds)) /\
  TimeFormatFunc g
  = TimeFormatFunc
      (mkGroup (line0 :: filter (fun line => negb (isNaN (bench.NsOp line))) rest)
               (Measured g)).
Proof.
  intros El. split.
  - intros Hnan.
    rewrite (TimeFormatFunc_spec g (smallestTime (bench.NsOp line0) rest))
      by (unfold smallestOf; now rewrite El).
    rewrite (proj2 (smallestTime_nan_iff (bench.NsOp line0) rest) Hnan). reflexivity.
  - rewrite (TimeFormatFunc_spec g (smallestTime (bench.NsOp line0) rest))
      by (unfold smallestOf; now rewrite El).
    rewrite (TimeFormatFunc_spec
               (mkGroup (line0 :: filter (fun line => negb (isNaN (bench.NsOp line))) rest)
                        (Measured g))
               (smallestTime (bench.NsOp line0)
                             (filter (fun line => negb (isNaN (bench.NsOp line))) rest)))
      by reflexivity.
    now rewrite <- smallestTime_skips_nan.
Qed.

(** X3 on a record without a time followed by one of 120 ns: seconds;
    in the other order the unit is the nanosecond. *)
Lemma X3_witness :
  TimeFormatFunc (mkGroup [nanRecord; timed "BenchmarkA" 1 120] bench.NsPerOp)
  = Ok (specFormat Seconds) /\
  TimeFormatFunc (mkGroup [timed "BenchmarkA" 1 120; nanRecord] bench.NsPerOp)
  = Ok (specFormat Nanoseconds).
Proof.
  split.
  - apply (X3_nan_time_counts_only_in_first_record
             (mkGroup [nanRecord; timed "BenchmarkA" 1 120] bench.NsPerOp)
             nanRecord [timed "BenchmarkA" 1 120] eq_refl); reflexivity.
  - rewrite (proj2 (X3_nan_time_counts_only_in_first_record
                      (mkGroup [timed "BenchmarkA" 1 120; nanRecord] bench.NsPerOp)
                      (timed "BenchmarkA" 1 120) [nanRecord] eq_refl)).
    reflexivity.
Defined.

(** X4. When every row has a cell in every column, [findMaxLengths]
    returns one width per column, and the width of a column is the
    length in bytes of its longest cell: no cell of the column is
    longer, some cell of the column has that length, and the width is 0
    when the table has no row. *)
Theorem X4_findMaxLengths_is_the_longest_cell
  (colNames : list string) (cells : list (list string)) :
  (forall row, In row cells -> List.length colNames <= List.length row) ->
  exists widths : list nat,
    findMaxLengths colNames cells = Ok widths /\
    List.length widths = List.length colNames /\
    forall i : nat, i < List.length colNames ->
      (forall row, In row cells -> String.length (nth i row EmptyString) <= nth i widths 0) /\
      (cells = [] -> nth i widths 0 = 0) /\
      (cells <> [] ->
       exists row, In row cells /\ String.length (nth i row EmptyString) = nth i widths 0).
Proof.
  intros Hrows. exists (columnWidths (List.length colNames) cells).
  split; [ now apply findMaxLengths_value | ].
  split; [ apply columnWidths_length | ].
  intros i Hi. rewrite columnWidths_nth by exact Hi.
  split; [ intros row Hr; now apply columnMax_bound | ].
  split; [ intros ->; reflexivity | apply columnMax_attained ].
Qed.

Lemma X4_witness :
  exists widths : list nat,
    findMaxLengths ["benchmark"; "iter"] smallTable = Ok widths /\
    List.length widths = 2 /\
    forall i : nat, i < 2 ->
      (forall row, In row smallTable -> String.length (nth i row EmptyString) <= nth i widths 0) /\
      (smallTable = [] -> nth i widths 0 = 0) /\
      (smallTable <> [] ->
       exists row, In row smallTable /\ String.length (nth i row EmptyString) = nth i widths 0).
Proof.
  apply (X4_findMaxLengths_is_the_longest_cell ["benchmark"; "iter"] smallTable).
  intros row [<- | [<- | [<- | []]]]; apply le_n.
Defined.

(** X5. When some row has fewer cells than there are column names,
    [findMaxLengths] panics, and at the shortest row: the index out of
    range and the length reported are both the number of cells of a
    shortest row of the table. *)
Theorem X5_findMaxLengths_panics_at_the_shortest_row
  (colNames : list string) (cells : list (list string)) (short : list string) :
  In short cells ->
  (forall row, In row cells -> List.length short <= List.length row) ->
  List.length short < List.length colNames ->
  findMaxLengths colNames cells
  = Panic (IndexOutOfRange (List.length short) (List.length short)).
Proof.
  intros Hin Hmin Hlt. unfold findMaxLengths.
  set (m := List.length short) in *.
  replace (seq 0 (List.length colNames))
    with (seq 0 m ++ seq m (List.length colNames - m))%list
    by (rewrite <- seq_app; f_equal; lia).
  rewrite foldM_app, findMaxLengths_columns.
  - cbn [bind]. destruct (List.length colNames - m) as [ | rest] eqn:E; [ lia | ].
    cbn [seq foldM]. rewrite maxLength_panic; [ reflexivity | exact Hmin | ].
    exists short. split; [ exact Hin | reflexivity ].
  - intros i row Hi Hr. apply in_seq in Hi. specialize (Hmin row Hr). lia.
Qed.

Lemma X5_witness :
  findMaxLengths ["benchmark"; "iter"] raggedTable = Panic (IndexOutOfRange 1 1).
Proof.
  apply (X5_findMaxLengths_panics_at_the_shortest_row
           ["benchmark"; "iter"] raggedTable ["BenchmarkA-8"]).
  - right. left. reflexivity.
  - intros row [<- | [<- | [<- | []]]]; simpl; lia.
  - simpl. lia.
Defined.

Lemma Forall_or_Exists (widths : list nat) (cells : list (list string)) :
  Forall (fun row => List.length row <= List.length widths) cells \/
  Exists (fun row => List.length widths < List.length row) cells.
Proof.
  induction cells as [ | row cells [IH | IH]].
  - left. constructor.
  - destruct (Nat.le_gt_cases (List.length row) (List.length widths)).
    + left. now constructor.
    + right. now constructor.
  - right. now apply Exists_cons_tl.
Qed.

(** X6. [formatTableCells] returns a text exactly when no row has more
    cells than there are widths; otherwise it panics with an index out
    of range at the first cell past the widths (index and length both
    the number of widths) and returns nothing of what it had formatted
    of the rows before. *)
Theorem X6_formatTableCells_needs_a_width_per_cell
  (tableCells : list (list string)) (tableMaxLengths : list nat) :
  (Forall (fun row => List.length row <= List.length tableMaxLengths) tableCells <->
   exists text, formatTableCells tableCells tableMaxLengths = Ok text) /\
  (Exists (fun row => List.length tableMaxLengths < List.length row) tableCells <->
   formatTableCells tableCells tableMaxLengths
   = Panic (IndexOutOfRange (List.length tableMaxLengths) (List.length tableMaxLengths))).
Proof.
  rewrite formatTableCells_rows.
  assert (Hok : Forall (fun row => List.length row <= List.length tableMaxLengths) tableCells ->
                exists text, foldM (formatRow tableMaxLengths) tableCells EmptyString = Ok text)
    by (intros Hall; now apply formatRows_ok).
  pose proof (formatRows_panic tableMaxLengths tableCells) as Hpanic.
  split; split.
  - exact Hok.
  - intros [text Ht]. destruct (Forall_or_Exists tableMaxLengths tableCells) as [H | H];
      [ exact H | ].
    rewrite (Hpanic H) in Ht. discriminate Ht.
  - intros H. now apply Hpanic.
  - intros Hp. destruct (Forall_or_Exists tableMaxLengths tableCells) as [H | H];
      [ | exact H ].
    destruct (Hok H) as [text Ht]. rewrite Ht in Hp. discriminate Hp.
Qed.

(** X6 on a table of two columns and one width. *)
Lemma X6_witness :
  formatTableCells smallTable [12] = Panic (IndexOutOfRange 1 1).
Proof.
  apply (proj2 (X6_formatTableCells_needs_a_width_per_cell smallTable [12])).
  left. apply le_n.
Defined.

(** X7. The width of a column goes through two calls of [fmt.Sprintf]:
    the first writes it in decimal into the format that [getFormat]
    chose, the second reads it back from that format.  For a width up to
    a million the result is the cell padded with spaces to that many
    runes, on its right in the first column and on its left in the
    others, followed by three spaces except in the last column of a row
    of two cells or more. *)
Theorem X7_width_survives_the_format
  (width rowNum rowLen : nat) (cell : string) :
  (Z.of_nat width <= 1000000)%Z ->
  fmt.Sprintf (getFormat rowNum rowLen) (fmt.Int (Z.of_nat width))
  = (if Nat.eqb rowNum 0 then "%-" else "%") ++ strconv.FormatInt (Z.of_nat width)
    ++ (if Nat.eqb rowNum 0 then "s   "
        else if Nat.eqb rowNum (rowLen - 1) then "s" else "s   ") /\
  fmt.Sprintf (fmt.Sprintf (getFormat rowNum rowLen) (fmt.Int (Z.of_nat width))) (fmt.Str cell)
  = cellText width rowNum rowLen cell.
Proof.
  intros Hw. split.
  - unfold getFormat.
    destruct (Nat.eqb rowNum 0); [ | destruct (Nat.eqb rowNum (rowLen - 1)) ]; reflexivity.
  - rewrite (Sprintf_cell width rowNum rowLen cell Hw), !pad_Repeat. unfold cellText.
    destruct (Nat.eqb rowNum 0); [ | destruct (Nat.eqb rowNum (rowLen - 1)) ];
      now rewrite ?append_assoc.
Qed.

Lemma X7_witness :
  fmt.Sprintf (getFormat 0 3) (fmt.Int 14) = "%-14s   " /\
  fmt.Sprintf (fmt.Sprintf (getFormat 0 3) (fmt.Int 14)) (fmt.Str "benchmark")
  = "benchmark        ".
Proof.
  apply (X7_width_survives_the_format 14 0 3 "benchmark"). vm_compute. discriminate.
Defined.

(** X8. When no row has more cells than there are widths and no width
    is above a million, [formatTableCells] returns the rows one after
    the other, each the concatenation of its padded cells followed by a
    newline. *)
Theorem X8_formatTableCells_text
  (tableCells : list (list string)) (tableMaxLengths : list nat) :
  Forall (fun row => List.length row <= List.length tableMaxLengths) tableCells ->
  Forall (fun w => (Z.of_nat w <= 1000000)%Z) tableMaxLengths ->
  formatTableCells tableCells tableMaxLengths = Ok (renderTable tableMaxLengths tableCells).
Proof.
  intros Hrows Hw. rewrite formatTableCells_rows.
  now rewrite (formatRows_text tableMaxLengths tableCells Hw Hrows EmptyString).
Qed.

Lemma X8_witness :
  formatTableCells smallTable [12; 4]
  = Ok ("benchmark      iter" ++ String newline
        ("---------      ----" ++ String newline
         ("BenchmarkA-8     10" ++ String newline EmptyString))).
Proof.
  apply (X8_formatTableCells_text smallTable [12; 4]).
  - repeat constructor.
  - repeat constructor; vm_compute; discriminate.
Defined.

(** X9. Columns line up.  On a table whose rows all have one cell per
    column name and whose cells are at most a million bytes long,
    [findMaxLengths] returns widths with which [formatTableCells]
    returns the text of the table, and in that text every column starts
    at the same rune of every row: the cells before column [k] take the
    widths of their columns and three spaces each, whatever the row.
    (Widths are counted in bytes and padding in runes, so a column is
    never narrower than its cells.) *)
Theorem X9_columns_line_up (colNames : list string) (tableCells : list (list string)) :
  rectangular (List.length colNames) tableCells ->
  cellsBelowLimit tableCells ->
  exists tableMaxLengths : list nat,
    findMaxLengths colNames tableCells = Ok tableMaxLengths /\
    formatTableCells tableCells tableMaxLengths = Ok (renderTable tableMaxLengths tableCells) /\
    forall (row : list string) (k : nat),
      In row tableCells ->
      utf8.RuneCountInString (joined (firstn k (renderCells tableMaxLengths row)))
      = columnStart tableMaxLengths k.
Proof.
  intros Hrect Hlim. exists (columnWidths (List.length colNames) tableCells).
  split; [ | split ].
  - apply findMaxLengths_value. intros row Hr. rewrite (Hrect row Hr). apply le_n.
  - rewrite formatTableCells_rows.
    rewrite (formatRows_text _ tableCells); [ reflexivity | | ].
    + now apply columnWidths_limit.
    + apply Forall_forall. intros row Hr.
      rewrite columnWidths_length, (Hrect row Hr). apply le_n.
  - intros row k Hr. apply columns_line_up.
    apply columnWidths_fit; [ exact Hr | now apply Hrect ].
Qed.

Lemma X9_witness :
  exists tableMaxLengths : list nat,
    findMaxLengths ["benchmark"; "iter"] smallTable = Ok tableMaxLengths /\
    formatTableCells smallTable tableMaxLengths = Ok (renderTable tableMaxLengths smallTable) /\
    forall (row : list string) (k : nat),
      In row smallTable ->
      utf8.RuneCountInString (joined (firstn k (renderCells tableMaxLengths row)))
      = columnStart tableMaxLengths k.
Proof.
  apply (X9_columns_line_up ["benchmark"; "iter"] smallTable).
  - intros row [<- | [<- | [<- | []]]]; reflexivity.
  - intros row cell [<- | [<- | [<- | []]]] [<- | [<- | []]]; vm_compute; discriminate.
Defined.

(** ** Numbers written and read back *)

Lemma parseDigits_string_of_uint (d : Decimal.uint) :
  forall acc : Z,
    (0 <= acc)%Z ->
    strconv.parseDigits (NilEmpty.string_of_uint d) acc
    = Some (Z.of_nat (Nat.of_uint_acc d (Z.to_nat acc))).
Proof.
  induction d; intros acc Hacc;
    cbn [NilEmpty.string_of_uint strconv.parseDigits Nat.of_uint_acc];
    [ f_equal; lia | .. ];
    (match goal with
     | |- context [isDigit ?c] => change (isDigit c) with true
     end;
     cbv iota;
     match goal with
     | |- context [digitVal ?c] =>
       let v := eval vm_compute in (digitVal c) in change (digitVal c) with v
     end;
     rewrite IHd by lia; rewrite Nat.tail_mul_spec; do 3 f_equal; lia).
Qed.

Lemma parseDigits_to_uint (p : positive) :
  strconv.parseDigits (NilEmpty.string_of_uint (Pos.to_uint p)) 0 = Some (Zpos p).
Proof.
  rewrite parseDigits_string_of_uint by lia. change (Z.to_nat 0) with 0.
  fold (Nat.of_uint (Pos.to_uint p)). rewrite of_uint_to_uint. f_equal. lia.
Qed.

(** The decimal of a positive number starts with a digit. *)
Lemma string_of_to_uint (p : positive) :
  exists (c : ascii) (t : string),
    NilEmpty.string_of_uint (Pos.to_uint p) = String c t /\ isDigit c = true.
Proof.
  pose proof (DecimalPos.Unsigned.to_uint_nonnil p) as Hnil.
  destruct (Pos.to_uint p); [ congruence | .. ];
    cbn [NilEmpty.string_of_uint]; eexists; eexists; split; reflexivity.
Qed.

Lemma Atoi_FormatInt (n : Z) :
  (- 2 ^ 63 <= n <= 2 ^ 63 - 1)%Z -> strconv.Atoi (strconv.FormatInt n) = Some n.
Proof.
  intros Hn. unfold strconv.FormatInt. destruct n as [ | p | p]; [ reflexivity | | ].
  - cbn [Z.to_int NilEmpty.string_of_int].
    pose proof (parseDigits_to_uint p) as Hp.
    destruct (string_of_to_uint p) as (c & t & E & Hc). rewrite E in *.
    unfold strconv.Atoi.
    assert (Hsign : match String c t with
                    | String "-"%char t' => (true, t')
                    | String "+"%char t' => (false, t')
                    | _ => (false, String c t)
                    end = (false, String c t)).
    { destruct c as [[ | ] [ | ] [ | ] [ | ] [ | ] [ | ] [ | ] [ | ]];
        try reflexivity; discriminate Hc. }
    rewrite Hsign, Hp.
    destruct (Z.leb_spec (- 2 ^ 63) (Z.pos p)), (Z.leb_spec (Z.pos p) (2 ^ 63 - 1));
      try lia. reflexivity.
  - cbn [Z.to_int NilEmpty.string_of_int].
    pose proof (parseDigits_to_uint p) as Hp.
    destruct (string_of_to_uint p) as (c & t & E & Hc). rewrite E in *.
    unfold strconv.Atoi. rewrite Hp.
    change (- Z.pos p)%Z with (Z.neg p).
    destruct (Z.leb_spec (- 2 ^ 63) (Z.neg p)), (Z.leb_spec (Z.neg p) (2 ^ 63 - 1));
      try lia. reflexivity.
Qed.

Lemma ParseUint_FormatInt (i : Z) :
  (0 <= i < 2 ^ 64)%Z -> strconv.ParseUint (strconv.FormatInt i) = Some i.
Proof.
  intros Hi. unfold strconv.FormatInt. destruct i as [ | p | p]; [ reflexivity | | lia ].
  cbn [Z.to_int NilEmpty.string_of_int].
  pose proof (parseDigits_to_uint p) as Hp.
  destruct (string_of_to_uint p) as (c & t & E & Hc). rewrite E in *.
  unfold strconv.ParseUint. rewrite Hp.
  destruct (Z.ltb_spec (Z.pos p) (2 ^ 64)); [ reflexivity | lia ].
Qed.

Lemma append_not_empty (a b : string) : b <> EmptyString -> a ++ b <> EmptyString.
Proof. destruct a; [ trivial | discriminate ]. Qed.

(** X10. The cell of an optional column is blank exactly when the
    record lacks the measurement, whatever the group has: otherwise it
    is the value followed by a space and the unit, throughput with two
    decimal places, the two counts in decimal. *)
Theorem X10_blank_cell_iff_not_measured (l : bench.Bench) :
  (FormatMegaBytesPerSecond l = EmptyString <-> Z.testbit (bench.Measured l) 1 = false) /\
  (FormatBytesAllocPerOp l = EmptyString <-> Z.testbit (bench.Measured l) 2 = false) /\
  (FormatAllocsPerOp l = EmptyString <-> Z.testbit (bench.Measured l) 3 = false) /\
  (Z.testbit (bench.Measured l) 1 = true ->
   FormatMegaBytesPerSecond l = strconv.FormatFloat_f (bench.MbS l) 2 ++ " MB/s") /\
  (Z.testbit (bench.Measured l) 2 = true ->
   FormatBytesAllocPerOp l = strconv.FormatInt (bench.BOp l) ++ " B/op") /\
  (Z.testbit (bench.Measured l) 3 = true ->
   FormatAllocsPerOp l = strconv.FormatInt (bench.AllocsOp l) ++ " allocs/op").
Proof.
  assert (Hflag : forall k : Z,
             (0 <= k)%Z ->
             (Z.land (bench.Measured l) (Z.shiftl 1 k) =? 0)%Z
             = negb (Z.testbit (bench.Measured l) k)).
  { intros k Hk. rewrite <- (land_flag_testbit _ k Hk).
    pose proof (Z.land_nonneg (bench.Measured l) (Z.shiftl 1 k)) as Hnn.
    assert (0 <= Z.shiftl 1 k)%Z by (apply Z.shiftl_nonneg; lia).
    destruct (Z.eqb_spec (Z.land (bench.Measured l) (Z.shiftl 1 k)) 0) as [-> | Hne];
      [ reflexivity | ].
    symmetry. apply negb_false_iff. apply Z.ltb_lt. lia. }
  unfold FormatMegaBytesPerSecond, FormatBytesAllocPerOp, FormatAllocsPerOp,
    bench.MBPerS, bench.AllocedBytesPerOp, bench.AllocsPerOp.
  rewrite !Hflag by lia.
  change (fmt.Sprintf "%.2f MB/s" (fmt.Float (bench.MbS l)))
    with (strconv.FormatFloat_f (bench.MbS l) 2 ++ " MB/s").
  change (fmt.Sprintf "%d B/op" (fmt.Int (bench.BOp l)))
    with (strconv.FormatInt (bench.BOp l) ++ " B/op").
  change (fmt.Sprintf "%d allocs/op" (fmt.Int (bench.AllocsOp l)))
    with (strconv.FormatInt (bench.AllocsOp l) ++ " allocs/op").
  destruct (Z.testbit (bench.Measured l) 1), (Z.testbit (bench.Measured l) 2),
           (Z.testbit (bench.Measured l) 3); cbn [negb];
    repeat split; intros H; try reflexivity; try discriminate H;
      exfalso; revert H; apply append_not_empty; discriminate.
Qed.

(** X11. The integers that the table prints parse back to themselves:
    [strconv.Atoi], by which the parser reads the iteration count,
    returns [n] on [FormatIterations n] for every [n] of type int, and
    the parser reads from the quantity printed in a bytes or an
    allocations cell the count that the record holds. *)
Theorem X11_printed_counts_parse_back
  (ParseFloat : string -> option float64) (l b : bench.Bench) :
  ((- 2 ^ 63 <= bench.N l <= 2 ^ 63 - 1)%Z ->
   strconv.Atoi (FormatIterations (bench.N l)) = Some (bench.N l)) /\
  ((0 <= bench.BOp l < 2 ^ 64)%Z ->
   Z.testbit (bench.Measured l) 2 = true ->
   exists quant : string,
     FormatBytesAllocPerOp l = quant ++ " B/op" /\
     bench.BOp (bench.parseMeasurement ParseFloat b quant "B/op") = bench.BOp l /\
     Z.testbit (bench.Measured (bench.parseMeasurement ParseFloat b quant "B/op")) 2 = true) /\
  ((0 <= bench.AllocsOp l < 2 ^ 64)%Z ->
   Z.testbit (bench.Measured l) 3 = true ->
   exists quant : string,
     FormatAllocsPerOp l = quant ++ " allocs/op" /\
     bench.AllocsOp (bench.parseMeasurement ParseFloat b quant "allocs/op") = bench.AllocsOp l /\
     Z.testbit (bench.Measured (bench.parseMeasurement ParseFloat b quant "allocs/op")) 3
     = true).
Proof.
  assert (Hset : forall k : Z,
             (0 <= k)%Z -> Z.testbit (bench.Measured l) k = true ->
             (Z.land (bench.Measured l) (Z.shiftl 1 k) =? 0)%Z = false).
  { intros k Hk Hbit. rewrite <- (land_flag_testbit _ k Hk) in Hbit.
    apply Z.ltb_lt in Hbit. apply Z.eqb_neq. lia. }
  split; [ apply Atoi_FormatInt | ]. split.
  - intros Hr Hbit. exists (strconv.FormatInt (bench.BOp l)). split.
    + unfold FormatBytesAllocPerOp, bench.AllocedBytesPerOp.
      rewrite (Hset 2%Z) by (lia || exact Hbit). reflexivity.
    + unfold bench.parseMeasurement. cbn [String.eqb Ascii.eqb Bool.eqb andb].
      rewrite (ParseUint_FormatInt _ Hr). cbn [bench.BOp bench.Measured].
      split; [ reflexivity | ]. rewrite Z.lor_spec. apply orb_true_r.
  - intros Hr Hbit. exists (strconv.FormatInt (bench.AllocsOp l)). split.
    + unfold FormatAllocsPerOp, bench.AllocsPerOp.
      rewrite (Hset 3%Z) by (lia || exact Hbit). reflexivity.
    + unfold bench.parseMeasurement. cbn [String.eqb Ascii.eqb Bool.eqb andb].
      rewrite (ParseUint_FormatInt _ Hr). cbn [bench.AllocsOp bench.Measured].
      split; [ reflexivity | ]. rewrite Z.lor_spec. apply orb_true_r.
Qed.

Lemma X11_witness :
  strconv.Atoi (FormatIterations 1000000) = Some 1000000%Z.
Proof.
  apply (proj1 (X11_printed_counts_parse_back strconv.ParseFloat
                  (timed "BenchmarkFoo-8" 1000000 120) (freshBench "BenchmarkFoo-8" 1000000))).
  cbn [timed bench.N]. lia.
Defined.

(** ** Lines and what [main] does with them *)

Section Lines.

Variable ParseFloat : string -> option float64.

Lemma ParseLine_benchError (line : string) (e : bench.parseError) :
  ParseLine ParseFloat line = inr (benchError e) ->
  regexp.MatchString benchLineMatcher line = true /\
  3 <= List.length (strings.Split line tab).
Proof.
  unfold ParseLine.
  destruct (regexp.MatchString benchLineMatcher line); [ | discriminate ].
  cbn [negb]. destruct (Nat.ltb_spec (List.length (strings.Split line tab)) 3);
    [ discriminate | ].
  intros _. split; [ reflexivity | assumption ].
Qed.

Lemma okLine_ParseLine (text : string) :
  regexp.MatchString okLineMatcher text = true ->
  ParseLine ParseFloat text = inr errNotBenchLine.
Proof.
  intros Hok. unfold ParseLine.
  destruct (regexp.MatchString benchLineMatcher text) eqn:E; [ | reflexivity ].
  rewrite (benchLine_not_okLine text E) in Hok. discriminate Hok.
Qed.

End Lines.

(** X12. Of the three errors of the parser, [ParseLine] can return only
    the one for the iteration count: a line that passes the pre-filter
    has two fields at least and a first field that starts with
    [Benchmark], so that the checks of the parser for these never fail
    after it.  A line is reported as unrecognized exactly when it
    passes the pre-filter, splits into three tab-separated fields at
    least and has a second field that [strconv.Atoi] rejects. *)
Theorem X12_only_the_iteration_count_can_fail
  (ParseFloat : string -> option float64) (line : string) :
  (forall e : bench.parseError,
      ParseLine ParseFloat line = inr (benchError e) ->
      e = bench.BadIterations (nth 1 (strings.Fields line) EmptyString)) /\
  ((exists e, ParseLine ParseFloat line = inr (benchError e)) <->
   regexp.MatchString benchLineMatcher line = true /\
   3 <= List.length (strings.Split line tab) /\
   strconv.Atoi (nth 1 (strings.Fields line) EmptyString) = None).
Proof.
  split.
  - intros e He. destruct (ParseLine_benchError ParseFloat line e He) as [Hm Hs].
    rewrite (ParseLine_prefiltered ParseFloat line Hm Hs) in He.
    destruct (strconv.Atoi (nth 1 (strings.Fields line) EmptyString));
      [ discriminate He | ].
    now injection He as <-.
  - split.
    + intros [e He]. destruct (ParseLine_benchError ParseFloat line e He) as [Hm Hs].
      split; [ exact Hm | ]. split; [ exact Hs | ].
      rewrite (ParseLine_prefiltered ParseFloat line Hm Hs) in He.
      destruct (strconv.Atoi (nth 1 (strings.Fields line) EmptyString));
        [ discriminate He | reflexivity ].
    + intros (Hm & Hs & Ha). eexists.
      rewrite (ParseLine_prefiltered ParseFloat line Hm Hs), Ha. reflexivity.
Qed.

(** X12 on [BenchmarkFoo<TAB>many<TAB>120 ns/op]. *)
Lemma X12_witness :
  exists e, ParseLine strconv.ParseFloat lineBadCount = inr (benchError e).
Proof.
  apply (proj2 (X12_only_the_iteration_count_can_fail strconv.ParseFloat lineBadCount)).
  split; [ reflexivity | ]. split; [ vm_compute; apply le_n | reflexivity ].
Defined.

Lemma parseDigits_nonneg (s : string) :
  forall acc n : Z, (0 <= acc)%Z -> strconv.parseDigits s acc = Some n -> (0 <= n)%Z.
Proof.
  induction s as [ | c s IH]; intros acc n Hacc H; cbn [strconv.parseDigits] in H.
  - injection H as <-. exact Hacc.
  - destruct (isDigit c) eqn:Hc; [ | discriminate H ].
    apply (IH (acc * 10 + digitVal c)%Z); [ | exact H ].
    unfold isDigit in Hc. apply andb_true_iff in Hc. unfold digitVal. lia.
Qed.

Lemma ParseUint_range (s : string) (i : Z) :
  strconv.ParseUint s = Some i -> (0 <= i < 2 ^ 64)%Z.
Proof.
  unfold strconv.ParseUint. destruct s as [ | c s]; [ discriminate | ].
  destruct (strconv.parseDigits (String c s) 0) as [n | ] eqn:E; [ | discriminate ].
  destruct (Z.ltb_spec n (2 ^ 64)); [ | discriminate ].
  intros [= <-]. split; [ | assumption ].
  apply (parseDigits_nonneg (String c s) 0 n); [ lia | exact E ].
Qed.

Lemma Atoi_range (s : string) (n : Z) :
  strconv.Atoi s = Some n -> (- 2 ^ 63 <= n <= 2 ^ 63 - 1)%Z.
Proof.
  unfold strconv.Atoi.
  destruct (match s with
            | String "-"%char t => (true, t)
            | String "+"%char t => (false, t)
            | _ => (false, s)
            end) as [neg digits].
  destruct digits as [ | c t]; [ discriminate | ].
  destruct (strconv.parseDigits (String c t) 0) as [v | ]; [ | discriminate ].
  destruct ((- 2 ^ 63 <=? (if neg then - v else v))
            && ((if neg then - v else v) <=? 2 ^ 63 - 1))%Z eqn:E; [ | discriminate ].
  intros [= <-]. apply andb_true_iff in E. lia.
Qed.

Lemma lor_flag_range (m : Z) (k : Z) :
  (0 <= m < 16)%Z -> (0 <= k < 4)%Z -> (0 <= Z.lor m (Z.shiftl 1 k) < 16)%Z.
Proof.
  intros Hm Hk.
  assert (Hf : (0 <= Z.shiftl 1 k)%Z) by (apply Z.shiftl_nonneg; lia).
  split; [ apply Z.lor_nonneg; lia | ].
  destruct (Z.eq_dec (Z.lor m (Z.shiftl 1 k)) 0) as [-> | Hne]; [ lia | ].
  change 16%Z with (2 ^ 4)%Z. apply Z.log2_lt_pow2.
  - pose proof (Z.lor_nonneg m (Z.shiftl 1 k)). lia.
  - rewrite Z.log2_lor by lia.
    rewrite Z.shiftl_1_l, Z.log2_pow2 by lia.
    destruct (Z.eq_dec m 0) as [-> | Hm0]; [ cbn; lia | ].
    assert (Z.log2 m < 4)%Z by (apply Z.log2_lt_pow2; lia). lia.
Qed.

Section Records.

Variable ParseFloat : string -> option float64.

Lemma parseMeasurement_wellFormed (b : bench.Bench) (quant unit : string) :
  wellFormed b -> wellFormed (bench.parseMeasurement ParseFloat b quant unit).
Proof.
  intros (Hm & Hb & Ha & Ho). unfold bench.parseMeasurement, wellFormed.
  destruct (String.eqb unit "ns/op").
  { destruct (ParseFloat quant); cbn [bench.Measured bench.BOp bench.AllocsOp bench.ord];
      (split; [ | split; [ | split ] ]); try assumption.
    apply (lor_flag_range _ 0); [ assumption | lia ]. }
  destruct (String.eqb unit "MB/s").
  { destruct (ParseFloat quant); cbn [bench.Measured bench.BOp bench.AllocsOp bench.ord];
      (split; [ | split; [ | split ] ]); try assumption.
    apply (lor_flag_range _ 1); [ assumption | lia ]. }
  destruct (String.eqb unit "B/op").
  { destruct (strconv.ParseUint quant) as [i | ] eqn:E;
      cbn [bench.Measured bench.BOp bench.AllocsOp bench.ord];
      (split; [ | split; [ | split ] ]); try assumption.
    - apply (lor_flag_range _ 2); [ assumption | lia ].
    - apply (ParseUint_range quant i E). }
  destruct (String.eqb unit "allocs/op").
  { destruct (strconv.ParseUint quant) as [i | ] eqn:E;
      cbn [bench.Measured bench.BOp bench.AllocsOp bench.ord];
      (split; [ | split; [ | split ] ]); try assumption.
    - apply (lor_flag_range _ 3); [ assumption | lia ].
    - apply (ParseUint_range quant i E). }
  (split; [ | split; [ | split ] ]); assumption.
Qed.

Lemma parseMeasurements_wellFormed (fields : list string) (b : bench.Bench) :
  wellFormed b -> wellFormed (bench.parseMeasurements ParseFloat fields b).
Proof.
  unfold bench.parseMeasurements. generalize (seq 1 (List.length fields / 2 - 1)).
  intros indices. revert b. induction indices as [ | i indices IH]; intros b Hb.
  - exact Hb.
  - cbn [fold_left]. apply IH. now apply parseMeasurement_wellFormed.
Qed.

Lemma parseMeasurement_N (b : bench.Bench) (quant unit : string) :
  bench.N (bench.parseMeasurement ParseFloat b quant unit) = bench.N b.
Proof.
  unfold bench.parseMeasurement.
  destruct (String.eqb unit "ns/op"); [ destruct (ParseFloat quant); reflexivity | ].
  destruct (String.eqb unit "MB/s"); [ destruct (ParseFloat quant); reflexivity | ].
  destruct (String.eqb unit "B/op"); [ destruct (strconv.ParseUint quant); reflexivity | ].
  destruct (String.eqb unit "allocs/op"); [ destruct (strconv.ParseUint quant); reflexivity | ].
  reflexivity.
Qed.

Lemma parseMeasurements_N (fields : list string) (b : bench.Bench) :
  bench.N (bench.parseMeasurements ParseFloat fields b) = bench.N b.
Proof.
  unfold bench.parseMeasurements. generalize (seq 1 (List.length fields / 2 - 1)).
  intros indices. revert b. induction indices as [ | i indices IH]; intros b.
  - reflexivity.
  - cbn [fold_left]. rewrite IH. apply parseMeasurement_N.
Qed.

End Records.

(** X13. What [ParseLine] returns as a record: its name is the first
    white-space-separated field of the line, starts with [Benchmark]
    and holds no tab; its iteration count is what [strconv.Atoi] reads
    from the second field, within the range of int; its flags are among
    the four known ones, its two counts are unsigned 64-bit numbers,
    and its ordinal is 0. *)
Theorem X13_record_of_a_line
  (ParseFloat : string -> option float64) (line : string) (b : bench.Bench) :
  ParseLine ParseFloat line = inl b ->
  bench.Name b = nth 0 (strings.Fields line) EmptyString /\
  strings.HasPrefix (bench.Name b) "Benchmark" = true /\
  noTab (bench.Name b) /\
  strconv.Atoi (nth 1 (strings.Fields line) EmptyString) = Some (bench.N b) /\
  (- 2 ^ 63 <= bench.N b <= 2 ^ 63 - 1)%Z /\
  (0 <= bench.Measured b < 16)%Z /\
  (0 <= bench.BOp b < 2 ^ 64)%Z /\
  (0 <= bench.AllocsOp b < 2 ^ 64)%Z /\
  bench.ord b = 0%Z.
Proof.
  intros Hb.
  assert (Hm : regexp.MatchString benchLineMatcher line = true).
  { unfold ParseLine in Hb.
    destruct (regexp.MatchString benchLineMatcher line); [ reflexivity | discriminate Hb ]. }
  assert (Hs : 3 <= List.length (strings.Split line tab)).
  { unfold ParseLine in Hb. rewrite Hm in Hb. cbn [negb] in Hb.
    destruct (Nat.ltb_spec (List.length (strings.Split line tab)) 3);
      [ discriminate Hb | assumption ]. }
  pose proof (ParseLine_Name_noTab ParseFloat line b Hb) as Htab.
  rewrite (ParseLine_prefiltered ParseFloat line Hm Hs) in Hb.
  destruct (strconv.Atoi (nth 1 (strings.Fields line) EmptyString)) as [n | ] eqn:Ha;
    [ | discriminate Hb ].
  injection Hb as <-.
  destruct (prefilter_fields line Hm) as (more & others & Ef & _).
  rewrite parseMeasurements_Name, parseMeasurements_N.
  cbn [freshBench bench.Name bench.N].
  split; [ reflexivity | ].
  split; [ rewrite Ef; cbn [nth]; apply HasPrefix_append | ].
  split; [ rewrite parseMeasurements_Name in Htab; exact Htab | ].
  split; [ reflexivity | ].
  split; [ exact (Atoi_range _ n Ha) | ].
  apply parseMeasurements_wellFormed. unfold wellFormed, freshBench. cbn. lia.
Qed.

Lemma X13_witness :
  bench.Name (timed "BenchmarkFoo-8" 1000000 120) = nth 0 (strings.Fields lineFoo) EmptyString /\
  strings.HasPrefix (bench.Name (timed "BenchmarkFoo-8" 1000000 120)) "Benchmark" = true /\
  noTab (bench.Name (timed "BenchmarkFoo-8" 1000000 120)) /\
  strconv.Atoi (nth 1 (strings.Fields lineFoo) EmptyString)
  = Some (bench.N (timed "BenchmarkFoo-8" 1000000 120)) /\
  (- 2 ^ 63 <= bench.N (timed "BenchmarkFoo-8" 1000000 120) <= 2 ^ 63 - 1)%Z /\
  (0 <= bench.Measured (timed "BenchmarkFoo-8" 1000000 120) < 16)%Z /\
  (0 <= bench.BOp (timed "BenchmarkFoo-8" 1000000 120) < 2 ^ 64)%Z /\
  (0 <= bench.AllocsOp (timed "BenchmarkFoo-8" 1000000 120) < 2 ^ 64)%Z /\
  bench.ord (timed "BenchmarkFoo-8" 1000000 120) = 0%Z.
Proof.
  apply (X13_record_of_a_line strconv.ParseFloat lineFoo). reflexivity.
Defined.

(** X14. No line is both a benchmark line and a terminator line: the
    two patterns never match the same text, so that a terminator line
    is never parsed ([ParseLine] returns [errNotBenchLine] for it) and
    a line that yields a record or is reported as unrecognized never
    ends a group. *)
Theorem X14_patterns_are_disjoint (ParseFloat : string -> option float64) (text : string) :
  regexp.MatchString benchLineMatcher text && regexp.MatchString okLineMatcher text = false /\
  (regexp.MatchString okLineMatcher text = true ->
   ParseLine ParseFloat text = inr errNotBenchLine) /\
  (ParseLine ParseFloat text <> inr errNotBenchLine ->
   regexp.MatchString okLineMatcher text = false).
Proof.
  split; [ | split ].
  - destruct (regexp.MatchString benchLineMatcher text) eqn:E; [ | reflexivity ].
    now rewrite (benchLine_not_okLine text E).
  - apply okLine_ParseLine.
  - intros Hne. destruct (regexp.MatchString okLineMatcher text) eqn:E; [ | reflexivity ].
    elim Hne. now apply okLine_ParseLine.
Qed.

Section Loop.

Variable ParseFloat : string -> option float64.
Variable noPassthrough : bool.

Lemma step_stderr (st : State) (text : string) :
  stderr (step ParseFloat noPassthrough st text)
  = stderr st ++ diagnostic ParseFloat text.
Proof.
  unfold step, diagnostic.
  destruct (ParseLine ParseFloat text) as [b | [ | e]].
  - cbn [stderr]. now rewrite append_empty_r.
  - destruct (regexp.MatchString okLineMatcher text), noPassthrough;
      cbn [negb Println stderr]; now rewrite append_empty_r.
  - reflexivity.
Qed.

Lemma loop_stderr (lines : list string) :
  forall st : State,
    stderr (fold_left (step ParseFloat noPassthrough) lines st)
    = stderr st ++ joined (map (diagnostic ParseFloat) lines).
Proof.
  induction lines as [ | text lines IH]; intros st; cbn [fold_left map joined fold_right].
  - now rewrite append_empty_r.
  - rewrite IH, step_stderr, append_assoc. reflexivity.
Qed.

Lemma Print_String (g : BenchOutputGroup) :
  fmt.Print (BenchOutputGroup.String g) = printed g.
Proof.
  unfold printed. destruct (Lines g) as [ | line0 rest] eqn:El.
  - now rewrite (String_empty g El).
  - rewrite String_panics_on_nonempty by congruence.
    unfold fmt.Print, fmt.errorText. rewrite !append_assoc. reflexivity.
Qed.

Lemma step_terminator_group (st : State) (text : string) :
  regexp.MatchString okLineMatcher text = true ->
  currentBenchmark (step ParseFloat noPassthrough st text) = emptyGroup.
Proof.
  intros Hok. unfold step. rewrite (okLine_ParseLine ParseFloat text Hok), Hok.
  destruct noPassthrough; reflexivity.
Qed.

End Loop.

(** X15. The diagnostic stream holds one notice per unrecognized line
    and nothing else: whatever the lines and whether pass-through is
    suppressed or not, [main] writes on it the notice
    [prettybench unrecognized line:] once for each line that
    [ParseLine] rejects with an error of the parser, in order, and
    nothing for a benchmark line, a terminator line or any other
    line. *)
Theorem X15_one_notice_per_unrecognized_line
  (ParseFloat : string -> option float64) (noPassthrough : bool) (lines : list string) :
  stderr (main ParseFloat noPassthrough lines)
  = joined (map (diagnostic ParseFloat) lines) /\
  forall text : string,
    (diagnostic ParseFloat text
     = "prettybench unrecognized line:" ++ String newline EmptyString /\
     exists e, ParseLine ParseFloat text = inr (benchError e)) \/
    (diagnostic ParseFloat text = EmptyString /\
     forall e, ParseLine ParseFloat text <> inr (benchError e)).
Proof.
  split.
  - unfold main. now rewrite loop_stderr.
  - intros text. unfold diagnostic.
    destruct (ParseLine ParseFloat text) as [b | [ | e]].
    + right. split; [ reflexivity | discriminate ].
    + right. split; [ reflexivity | discriminate ].
    + left. split; [ reflexivity | eauto ].
Qed.

(** X16. The group that [main] holds is made of the records of the
    lines read since the last terminator line, and of nothing older: a
    terminator line leaves the empty group, whatever was collected
    before it, and the lines after it add their records in order. *)
Theorem X16_group_restarts_at_a_terminator
  (ParseFloat : string -> option float64) (noPassthrough : bool)
  (lines : list string) (terminator : string) (tail : list string) :
  regexp.MatchString okLineMatcher terminator = true ->
  (forall text, In text tail -> regexp.MatchString okLineMatcher text = false) ->
  currentBenchmark (main ParseFloat noPassthrough (lines ++ terminator :: tail))
  = fold_left AddLine (collected ParseFloat tail) emptyGroup /\
  Lines (currentBenchmark (main ParseFloat noPassthrough (lines ++ terminator :: tail)))
  = collected ParseFloat tail.
Proof.
  intros Hok Htail. unfold main. rewrite fold_left_app. cbn [fold_left].
  destruct (loop_not_terminator ParseFloat noPassthrough tail Htail
              (step ParseFloat noPassthrough
                    (fold_left (step ParseFloat noPassthrough) lines
                               (mkState emptyGroup EmptyString EmptyString))
                    terminator))
    as [_ Hgroup].
  rewrite Hgroup, (step_terminator_group ParseFloat noPassthrough _ terminator Hok).
  split; [ reflexivity | ].
  rewrite fold_AddLine. reflexivity.
Qed.

Lemma X16_witness :
  currentBenchmark (main strconv.ParseFloat false ([lineWidgets] ++ okLine :: [lineFoo]))
  = fold_left AddLine (collected strconv.ParseFloat [lineFoo]) emptyGroup /\
  Lines (currentBenchmark
           (main strconv.ParseFloat false ([lineWidgets] ++ okLine :: [lineFoo])))
  = collected strconv.ParseFloat [lineFoo].
Proof.
  apply (X16_group_restarts_at_a_terminator strconv.ParseFloat false
           [lineWidgets] okLine [lineFoo]).
  - reflexivity.
  - intros text [<- | []]. reflexivity.
Defined.

(** X17. At a terminator line, whatever the state: [main] writes for a
    group without records nothing, and for a group with records the
    notice that [fmt] prints for the panic of its [String] method
    ([index out of range [n] with length n], [n] the number of columns
    of the group) with no newline after it; it then echoes the line
    unless pass-through is suppressed, starts a new empty group and
    leaves the diagnostic stream as it was. *)
Theorem X17_what_a_terminator_line_writes
  (ParseFloat : string -> option float64) (noPassthrough : bool)
  (st : State) (text : string) :
  regexp.MatchString okLineMatcher text = true ->
  step ParseFloat noPassthrough st text
  = mkState emptyGroup
            (stdout st ++ printed (currentBenchmark st)
             ++ (if noPassthrough then EmptyString else text ++ String newline EmptyString))
            (stderr st).
Proof.
  intros Hok. unfold step. rewrite (okLine_ParseLine ParseFloat text Hok), Hok, Print_String.
  destruct noPassthrough; unfold Println; cbn [negb currentBenchmark stdout stderr];
    rewrite ?append_assoc, ?append_empty_r; reflexivity.
Qed.

Lemma X17_witness :
  step strconv.ParseFloat false (mkState groupOne EmptyString EmptyString) okLine
  = mkState emptyGroup
            ("%!v(PANIC=String method: runtime error: index out of range [3] with length 3)"
             ++ okLine ++ String newline EmptyString)
            EmptyString.
Proof.
  apply (X17_what_a_terminator_line_writes strconv.ParseFloat false
           (mkState groupOne EmptyString EmptyString) okLine).
  reflexivity.
Defined.

(** ** The pairs of fields of a line *)

Section Pairs.

Variable ParseFloat : string -> option float64.

Lemma parseQuantity_parses (m : metric) (quant : string) :
  quantityParses ParseFloat m quant
  = match parseQuantity ParseFloat m quant with
    | Some _ => true
    | None => false
    end.
Proof.
  unfold quantityParses, parseQuantity.
  destruct m; [ destruct (ParseFloat quant) | destruct (ParseFloat quant)
              | destruct (strconv.ParseUint quant) | destruct (strconv.ParseUint quant) ];
    reflexivity.
Qed.

Lemma flagOf_bit (m : metric) : flagOf m = Z.shiftl 1 (bitOf m).
Proof. destruct m; reflexivity. Qed.

(** One pair: the flag of a metric is set by a pair with its unit whose
    quantity parses, and the field of the metric then takes the
    quantity; any other pair leaves both as they were. *)
Lemma parseMeasurement_metric (m : metric) (b : bench.Bench) (quant unit : string) :
  let b' := bench.parseMeasurement ParseFloat b quant unit in
  Z.testbit (bench.Measured b') (bitOf m)
  = Z.testbit (bench.Measured b) (bitOf m)
    || (String.eqb unit (unitLabel m) && quantityParses ParseFloat m quant) /\
  reading m b'
  = if String.eqb unit (unitLabel m)
    then match parseQuantity ParseFloat m quant with
         | Some v => v
         | None => reading m b
         end
    else reading m b.
Proof.
  cbn zeta. unfold bench.parseMeasurement, quantityParses, parseQuantity.
  destruct (String.eqb_spec unit "ns/op") as [-> | Hu1].
  { destruct m, (ParseFloat quant), (strconv.ParseUint quant);
      cbn [unitLabel String.eqb Ascii.eqb Bool.eqb andb bitOf reading option_map
           bench.Measured bench.NsOp bench.MbS bench.BOp bench.AllocsOp];
      rewrite ?Z.lor_spec, ?orb_false_r, ?orb_true_r, ?andb_false_r;
      split; reflexivity. }
  destruct (String.eqb_spec unit "MB/s") as [-> | Hu2].
  { destruct m, (ParseFloat quant), (strconv.ParseUint quant);
      cbn [unitLabel String.eqb Ascii.eqb Bool.eqb andb bitOf reading option_map
           bench.Measured bench.NsOp bench.MbS bench.BOp bench.AllocsOp];
      rewrite ?Z.lor_spec, ?orb_false_r, ?orb_true_r, ?andb_false_r;
      split; reflexivity. }
  destruct (String.eqb_spec unit "B/op") as [-> | Hu3].
  { destruct m, (ParseFloat quant), (strconv.ParseUint quant);
      cbn [unitLabel String.eqb Ascii.eqb Bool.eqb andb bitOf reading option_map
           bench.Measured bench.NsOp bench.MbS bench.BOp bench.AllocsOp];
      rewrite ?Z.lor_spec, ?orb_false_r, ?orb_true_r, ?andb_false_r;
      split; reflexivity. }
  destruct (String.eqb_spec unit "allocs/op") as [-> | Hu4].
  { destruct m, (ParseFloat quant), (strconv.ParseUint quant);
      cbn [unitLabel String.eqb Ascii.eqb Bool.eqb andb bitOf reading option_map
           bench.Measured bench.NsOp bench.MbS bench.BOp bench.AllocsOp];
      rewrite ?Z.lor_spec, ?orb_false_r, ?orb_true_r, ?andb_false_r;
      split; reflexivity. }
  assert (Hm : String.eqb unit (unitLabel m) = false).
  { apply String.eqb_neq. intros ->. destruct m; cbn [unitLabel] in *; congruence. }
  rewrite Hm. cbn [andb]. rewrite orb_false_r. split; reflexivity.
Qed.

Lemma fold_left_ext_in (A B : Type) (f g : B -> A -> B) (l : list A) :
  (forall a b, In a l -> f b a = g b a) ->
  forall b : B, fold_left f l b = fold_left g l b.
Proof.
  induction l as [ | a l IH]; intros H b; [ reflexivity | ].
  cbn [fold_left]. rewrite (H a b (or_introl eq_refl)).
  apply IH. intros a' b' Ha'. apply H. now right.
Qed.

Lemma parseMeasurements_flag (m : metric) (fields : list string) (indices : list nat) :
  forall b : bench.Bench,
    Z.testbit
      (bench.Measured
         (fold_left (fun b i => bench.parseMeasurement ParseFloat b
                                  (nth (i * 2) fields EmptyString)
                                  (nth (i * 2 + 1) fields EmptyString)) indices b))
      (bitOf m)
    = Z.testbit (bench.Measured b) (bitOf m)
      || existsb (carries ParseFloat m fields) indices.
Proof.
  induction indices as [ | i indices IH]; intros b; cbn [fold_left existsb].
  - now rewrite orb_false_r.
  - rewrite IH.
    destruct (parseMeasurement_metric m b (nth (i * 2) fields EmptyString)
                                      (nth (i * 2 + 1) fields EmptyString)) as [-> _].
    unfold carries. now rewrite orb_assoc.
Qed.

(** The last pair that carries a metric gives the record its value. *)
Lemma parseMeasurements_last (m : metric) (fields : list string) (v : quantity)
  (pre : list nat) (i : nat) (post : list nat) :
  nth (i * 2 + 1) fields EmptyString = unitLabel m ->
  parseQuantity ParseFloat m (nth (i * 2) fields EmptyString) = Some v ->
  (forall j, In j post -> carries ParseFloat m fields j = false) ->
  forall b : bench.Bench,
    reading m
      (fold_left (fun b i => bench.parseMeasurement ParseFloat b
                               (nth (i * 2) fields EmptyString)
                               (nth (i * 2 + 1) fields EmptyString))
                 (pre ++ i :: post) b)
    = v.
Proof.
  intros Hu Hq Hpost b. rewrite fold_left_app. cbn [fold_left].
  set (b1 := fold_left _ pre b). clearbody b1.
  assert (Hi : reading m (bench.parseMeasurement ParseFloat b1
                            (nth (i * 2) fields EmptyString)
                            (nth (i * 2 + 1) fields EmptyString)) = v).
  { destruct (parseMeasurement_metric m b1 (nth (i * 2) fields EmptyString)
                                      (nth (i * 2 + 1) fields EmptyString)) as [_ ->].
    now rewrite Hu, String.eqb_refl, Hq. }
  revert Hi. generalize (bench.parseMeasurement ParseFloat b1
                           (nth (i * 2) fields EmptyString)
                           (nth (i * 2 + 1) fields EmptyString)).
  clear b1. induction post as [ | j post IH]; intros b2 Hb2; [ exact Hb2 | ].
  cbn [fold_left]. apply IH.
  - intros k Hk. apply Hpost. now right.
  - destruct (parseMeasurement_metric m b2 (nth (j * 2) fields EmptyString)
                                      (nth (j * 2 + 1) fields EmptyString)) as [_ ->].
    specialize (Hpost j (or_introl eq_refl)). unfold carries in Hpost.
    destruct (String.eqb (nth (j * 2 + 1) fields EmptyString) (unitLabel m));
      [ | exact Hb2 ].
    cbn [andb] in Hpost. rewrite parseQuantity_parses in Hpost.
    destruct (parseQuantity ParseFloat m (nth (j * 2) fields EmptyString));
      [ discriminate Hpost | exact Hb2 ].
Qed.

Lemma bench_ParseLine_inl (line : string) (b : bench.Bench) :
  bench.ParseLine ParseFloat line = inl b ->
  exists n : Z,
    b = bench.parseMeasurements ParseFloat (strings.Fields line)
          (freshBench (nth 0 (strings.Fields line) EmptyString) n).
Proof.
  unfold bench.ParseLine.
  destruct (Nat.ltb (List.length (strings.Fields line)) 2); [ discriminate | ].
  destruct (negb (strings.HasPrefix (nth 0 (strings.Fields line) EmptyString) "Benchmark"));
    [ discriminate | ].
  destruct (strconv.Atoi (nth 1 (strings.Fields line) EmptyString)) as [n | ];
    [ | discriminate ].
  intros [= <-]. exists n. reflexivity.
Qed.

End Pairs.

(** X18. The flags of a parsed record are exact: the test that the
    program makes for a metric ([Measured & flag > 0]) succeeds on the
    record exactly when some pair of fields after the iteration count
    has the unit of the metric and a quantity that parses.  Pairs are
    read at the even positions from the third field on; a flag once set
    is never cleared. *)
Theorem X18_flags_of_a_record_are_exact
  (ParseFloat : string -> option float64) (line : string) (b : bench.Bench) (m : metric) :
  bench.ParseLine ParseFloat line = inl b ->
  ((0 <? Z.land (bench.Measured b) (flagOf m))%Z = true <->
   exists i : nat,
     1 <= i < List.length (strings.Fields line) / 2 /\
     nth (i * 2 + 1) (strings.Fields line) EmptyString = unitLabel m /\
     quantityParses ParseFloat m (nth (i * 2) (strings.Fields line) EmptyString) = true).
Proof.
  intros Hb. destruct (bench_ParseLine_inl ParseFloat line b Hb) as [n ->].
  rewrite flagOf_bit, land_flag_testbit by (destruct m; cbn; lia).
  unfold bench.parseMeasurements. rewrite parseMeasurements_flag.
  cbn [freshBench bench.Measured]. rewrite Z.bits_0, orb_false_l, existsb_exists.
  unfold carries. split.
  - intros (i & Hi & Hc). apply in_seq in Hi. apply andb_true_iff in Hc.
    destruct Hc as [Hu Hq]. apply String.eqb_eq in Hu.
    exists i. split; [ lia | ]. split; assumption.
  - intros (i & Hi & Hu & Hq). exists i. split; [ apply in_seq; lia | ].
    rewrite Hu, String.eqb_refl, Hq. reflexivity.
Qed.

Lemma X18_witness :
  (0 <? Z.land (bench.Measured (timed "BenchmarkFoo-8" 1000000 120)) (flagOf TimePerOp))%Z
  = true <->
  exists i : nat,
    1 <= i < List.length (strings.Fields lineFoo) / 2 /\
    nth (i * 2 + 1) (strings.Fields lineFoo) EmptyString = unitLabel TimePerOp /\
    quantityParses strconv.ParseFloat TimePerOp (nth (i * 2) (strings.Fields lineFoo) EmptyString)
    = true.
Proof.
  apply (X18_flags_of_a_record_are_exact strconv.ParseFloat lineFoo
           (timed "BenchmarkFoo-8" 1000000 120) TimePerOp).
  reflexivity.
Defined.

(** X19. A field left over after the last pair is ignored: the loop of
    the parser runs over [len(fields)/2] pairs, so that one more field
    at the end of an even number of fields changes nothing of the
    record. *)
Theorem X19_field_without_a_unit_is_ignored
  (ParseFloat : string -> option float64) (fields : list string) (last : string)
  (b : bench.Bench) :
  Nat.even (List.length fields) = true ->
  bench.parseMeasurements ParseFloat (fields ++ [last])%list b
  = bench.parseMeasurements ParseFloat fields b.
Proof.
  intros Heven. apply Nat.even_spec in Heven. destruct Heven as [k Hk].
  unfold bench.parseMeasurements. rewrite length_app. cbn [List.length].
  replace ((List.length fields + 1) / 2) with k
    by (rewrite Hk, Nat.add_comm, Nat.mul_comm, Nat.div_add by lia; reflexivity).
  replace (List.length fields / 2) with k
    by (rewrite Hk, Nat.mul_comm, Nat.div_mul by lia; reflexivity).
  apply fold_left_ext_in. intros i b' Hi. apply in_seq in Hi.
  rewrite !app_nth1 by lia. reflexivity.
Qed.

Lemma X19_witness :
  bench.parseMeasurements strconv.ParseFloat
    (["BenchmarkFoo"; "10"; "120"; "ns/op"] ++ ["16"])%list (freshBench "BenchmarkFoo" 10)
  = bench.parseMeasurements strconv.ParseFloat
      ["BenchmarkFoo"; "10"; "120"; "ns/op"] (freshBench "BenchmarkFoo" 10).
Proof.
  apply (X19_field_without_a_unit_is_ignored strconv.ParseFloat
           ["BenchmarkFoo"; "10"; "120"; "ns/op"] "16" (freshBench "BenchmarkFoo" 10)).
  reflexivity.
Defined.

Lemma seq_split (n i : nat) :
  1 <= i < n -> seq 1 (n - 1) = (seq 1 (i - 1) ++ i :: seq (S i) (n - 1 - i))%list.
Proof.
  intros Hi. assert (E : n - 1 = (i - 1) + S (n - 1 - i)) by lia.
  rewrite E at 1. rewrite seq_app. cbn [seq].
  replace (1 + (i - 1)) with i by lia. reflexivity.
Qed.

(** X20. When several pairs of a line carry the same metric, the last
    one wins: the record holds for the metric the quantity of the last
    pair that has the unit of the metric and a quantity that parses. *)
Theorem X20_last_pair_of_a_metric_wins
  (ParseFloat : string -> option float64) (fields : list string) (b : bench.Bench)
  (m : metric) (i : nat) (v : quantity) :
  1 <= i < List.length fields / 2 ->
  nth (i * 2 + 1) fields EmptyString = unitLabel m ->
  parseQuantity ParseFloat m (nth (i * 2) fields EmptyString) = Some v ->
  (forall j : nat,
      i < j < List.length fields / 2 ->
      nth (j * 2 + 1) fields EmptyString = unitLabel m ->
      parseQuantity ParseFloat m (nth (j * 2) fields EmptyString) = None) ->
  reading m (bench.parseMeasurements ParseFloat fields b) = v.
Proof.
  intros Hi Hu Hq Hlater. unfold bench.parseMeasurements.
  rewrite (seq_split (List.length fields / 2) i Hi).
  apply parseMeasurements_last; [ exact Hu | exact Hq | ].
  intros j Hj. apply in_seq in Hj. unfold carries.
  destruct (String.eqb_spec (nth (j * 2 + 1) fields EmptyString) (unitLabel m)) as [E | _];
    [ | reflexivity ].
  cbn [andb]. rewrite parseQuantity_parses, (Hlater j) by (lia || exact E). reflexivity.
Qed.

Lemma X20_witness :
  reading TimePerOp (bench.parseMeasurements strconv.ParseFloat fieldsTwice
                       (freshBench "BenchmarkFoo" 10))
  = Number (float64_of_Z 7).
Proof.
  apply (X20_last_pair_of_a_metric_wins strconv.ParseFloat fieldsTwice
           (freshBench "BenchmarkFoo" 10) TimePerOp 2 (Number (float64_of_Z 7))).
  - change (List.length fieldsTwice / 2) with 4. lia.
  - reflexivity.
  - reflexivity.
  - intros j Hj. change (List.length fieldsTwice / 2) with 4 in Hj.
    assert (j = 3) by lia. subst j. discriminate.
Defined.

(** X21. Pairs of different units do not interfere: reading two pairs
    with different units gives the same record in either order, so that
    only the order of the pairs of one same unit matters in a line. *)
Theorem X21_pairs_of_different_units_commute
  (ParseFloat : string -> option float64) (b : bench.Bench)
  (quant1 unit1 quant2 unit2 : string) :
  unit1 <> unit2 ->
  bench.parseMeasurement ParseFloat (bench.parseMeasurement ParseFloat b quant1 unit1)
                         quant2 unit2
  = bench.parseMeasurement ParseFloat (bench.parseMeasurement ParseFloat b quant2 unit2)
                           quant1 unit1.
Proof.
  intros Hne. unfold bench.parseMeasurement.
  destruct (String.eqb_spec unit1 "ns/op") as [-> | H11],
           (String.eqb_spec unit2 "ns/op") as [-> | H21]; [ congruence | | | ].
  - destruct (String.eqb_spec unit2 "MB/s") as [-> | H22];
      [ | destruct (String.eqb_spec unit2 "B/op") as [-> | H23];
          [ | destruct (String.eqb_spec unit2 "allocs/op") as [-> | H24] ] ];
      destruct (ParseFloat quant1), (ParseFloat quant2), (strconv.ParseUint quant2);
      cbn [bench.Name bench.N bench.NsOp bench.MbS bench.BOp bench.AllocsOp
           bench.Measured bench.ord];
      try reflexivity; f_equal;
      rewrite <- !Z.lor_assoc; f_equal; apply Z.lor_comm.
  - destruct (String.eqb_spec unit1 "MB/s") as [-> | H12];
      [ | destruct (String.eqb_spec unit1 "B/op") as [-> | H13];
          [ | destruct (String.eqb_spec unit1 "allocs/op") as [-> | H14] ] ];
      destruct (ParseFloat quant1), (ParseFloat quant2), (strconv.ParseUint quant1);
      cbn [bench.Name bench.N bench.NsOp bench.MbS bench.BOp bench.AllocsOp
           bench.Measured bench.ord];
      try reflexivity; f_equal;
      rewrite <- !Z.lor_assoc; f_equal; apply Z.lor_comm.
  - destruct (String.eqb_spec unit1 "MB/s") as [-> | H12],
             (String.eqb_spec unit2 "MB/s") as [-> | H22]; [ congruence | | | ].
    + destruct (String.eqb_spec unit2 "B/op") as [-> | H23];
        [ | destruct (String.eqb_spec unit2 "allocs/op") as [-> | H24] ];
        destruct (ParseFloat quant1), (strconv.ParseUint quant2);
        cbn [bench.Name bench.N bench.NsOp bench.MbS bench.BOp bench.AllocsOp
             bench.Measured bench.ord];
        try reflexivity; f_equal;
        rewrite <- !Z.lor_assoc; f_equal; apply Z.lor_comm.
    + destruct (String.eqb_spec unit1 "B/op") as [-> | H13];
        [ | destruct (String.eqb_spec unit1 "allocs/op") as [-> | H14] ];
        destruct (ParseFloat quant2), (strconv.ParseUint quant1);
        cbn [bench.Name bench.N bench.NsOp bench.MbS bench.BOp bench.AllocsOp
             bench.Measured bench.ord];
        try reflexivity; f_equal;
        rewrite <- !Z.lor_assoc; f_equal; apply Z.lor_comm.
    + destruct (String.eqb_spec unit1 "B/op") as [-> | H13],
               (String.eqb_spec unit2 "B/op") as [-> | H23]; [ congruence | | | ].
      * destruct (String.eqb_spec unit2 "allocs/op") as [-> | H24];
          destruct (strconv.ParseUint quant1), (strconv.ParseUint quant2);
          cbn [bench.Name bench.N bench.NsOp bench.MbS bench.BOp bench.AllocsOp
               bench.Measured bench.ord];
          try reflexivity; f_equal;
          rewrite <- !Z.lor_assoc; f_equal; apply Z.lor_comm.
      * destruct (String.eqb_spec unit1 "allocs/op") as [-> | H14];
          destruct (strconv.ParseUint quant1), (strconv.ParseUint quant2);
          cbn [bench.Name bench.N bench.NsOp bench.MbS bench.BOp bench.AllocsOp
               bench.Measured bench.ord];
          try reflexivity; f_equal;
          rewrite <- !Z.lor_assoc; f_equal; apply Z.lor_comm.
      * destruct (String.eqb_spec unit1 "allocs/op") as [-> | H14],
                 (String.eqb_spec unit2 "allocs/op") as [-> | H24];
          [ congruence | | | reflexivity ];
          destruct (strconv.ParseUint quant1), (strconv.ParseUint quant2); reflexivity.
Qed.

Lemma X21_witness :
  bench.parseMeasurement strconv.ParseFloat
    (bench.parseMeasurement strconv.ParseFloat (freshBench "BenchmarkFoo" 10) "120" "ns/op")
    "16" "B/op"
  = bench.parseMeasurement strconv.ParseFloat
      (bench.parseMeasurement strconv.ParseFloat (freshBench "BenchmarkFoo" 10) "16" "B/op")
      "120" "ns/op".
Proof.
  apply (X21_pairs_of_different_units_commute strconv.ParseFloat
           (freshBench "BenchmarkFoo" 10) "120" "ns/op" "16" "B/op").
  discriminate.
Defined.

(** ** The earlier revision renders the table *)

Lemma maxLengths_in_table (cells : list (list string)) (columns : list nat) :
  forall acc : list nat,
    foldM
      (fun table i =>
         maxLength <-
           foldM
             (fun maxLength row =>
                cell <- index row i ;;
                Ok (if Nat.ltb maxLength (String.length cell)
                    then String.length cell else maxLength))
             (Cells table) 0 ;;
         Ok (mkTable (MaxLengths table ++ [maxLength])%list (Cells table)))
      columns (mkTable acc cells)
    = (widths <-
         foldM
           (fun tableMaxLengths i =>
              maxLength <-
                foldM
                  (fun maxLength row =>
                     cell <- index row i ;;
                     Ok (if Nat.ltb maxLength (String.length cell)
                         then String.length cell else maxLength))
                  cells 0 ;;
              Ok (tableMaxLengths ++ [maxLength])%list)
           columns acc ;;
       Ok (mkTable widths cells)).
Proof.
  induction columns as [ | i columns IH]; intros acc; [ reflexivity | ].
  cbn [foldM Cells MaxLengths].
  destruct (foldM _ cells 0) as [m | e]; cbn [bind]; [ apply IH | reflexivity ].
Qed.

Lemma presentColumns_length (g : WithBenchcmp.BenchOutputGroup) (f : float64 -> string) :
  rectangular (List.length (presentColumns g)) (presentTable g f).
Proof.
  intros row [<- | [<- | Hr]].
  - reflexivity.
  - unfold dashes. apply length_map.
  - apply in_map_iff in Hr. destruct Hr as (line & <- & _).
    unfold presentRow, presentColumns.
    destruct (WithBenchcmp.MegaBytesPresent g), (WithBenchcmp.BytesAllocPresent g),
             (WithBenchcmp.AllocsPresent g); reflexivity.
Qed.

(** The body of [String] is the three steps that the program has today
    as functions of their own, but for the second row. *)
Lemma String_steps (g : WithBenchcmp.BenchOutputGroup) :
  WithBenchcmp.Lines g <> [] ->
  WithBenchcmp.BenchOutputGroup.String g
  = (timeFormatFunc <- WithBenchcmp.TimeFormatFunc g ;;
     widths <- findMaxLengths (presentColumns g) (presentTable g timeFormatFunc) ;;
     formatTableCells (presentTable g timeFormatFunc) widths).
Proof.
  intros Hne. unfold WithBenchcmp.BenchOutputGroup.String.
  destruct (WithBenchcmp.Lines g) as [ | line0 rest] eqn:El; [ congruence | ].
  cbn [List.length Nat.eqb]. cbv zeta. cbn [MaxLengths Cells].
  destruct (WithBenchcmp.TimeFormatFunc g) as [f | e]; [ | reflexivity ].
  cbn [bind]. unfold presentTable, presentColumns, presentRow, dashes, findMaxLengths.
  rewrite El.
  destruct (WithBenchcmp.MegaBytesPresent g), (WithBenchcmp.BytesAllocPresent g),
           (WithBenchcmp.AllocsPresent g);
    cbn [optionalCell app];
    rewrite fold_left_rows, (fold_left_snoc _ _ (fun name => strings.Repeat "-" (String.length name)));
    cbn [app MaxLengths Cells];
    rewrite maxLengths_in_table;
    (destruct (foldM _ (seq 0 _) []) as [widths | e]; [ | reflexivity ]);
    reflexivity.
Qed.

Lemma TimeFormatFunc_nonempty (g : WithBenchcmp.BenchOutputGroup) :
  WithBenchcmp.Lines g <> [] ->
  exists timeFormatFunc, WithBenchcmp.TimeFormatFunc g = Ok timeFormatFunc.
Proof.
  intros Hne. unfold WithBenchcmp.TimeFormatFunc.
  destruct (WithBenchcmp.Lines g) as [ | line0 rest]; [ congruence | ].
  cbn [index nth_error bind List.tl].
  repeat match goal with
         | |- context [if ?b then _ else _] => destruct b
         end; eexists; reflexivity.
Qed.

(** X22. The [String] method of the earlier revision renders every
    group: it never panics, and when no cell is longer than a million
    bytes its text is the table of the group (the header, one run of
    dashes per column as long as the name of the column, then the
    records in order), each column as wide as its longest cell, with
    every column starting at the same rune of every row. *)
Theorem X22_earlier_String_renders_the_table (g : WithBenchcmp.BenchOutputGroup) :
  WithBenchcmp.Lines g <> [] ->
  exists timeFormatFunc : float64 -> string,
    WithBenchcmp.TimeFormatFunc g = Ok timeFormatFunc /\
    let cells := presentTable g timeFormatFunc in
    let widths := columnWidths (List.length (presentColumns g)) cells in
    (exists text, WithBenchcmp.BenchOutputGroup.String g = Ok text) /\
    (cellsBelowLimit cells ->
     WithBenchcmp.BenchOutputGroup.String g = Ok (renderTable widths cells) /\
     forall (row : list string) (k : nat),
       In row cells ->
       utf8.RuneCountInString (joined (firstn k (renderCells widths row)))
       = columnStart widths k).
Proof.
  intros Hne. destruct (TimeFormatFunc_nonempty g Hne) as [f Hf].
  exists f. split; [ exact Hf | ]. cbn zeta.
  pose proof (presentColumns_length g f) as Hrect.
  rewrite (String_steps g Hne), Hf. cbn [bind].
  rewrite findMaxLengths_value
    by (intros row Hr; rewrite (Hrect row Hr); apply le_n).
  cbn [bind]. rewrite formatTableCells_rows.
  assert (Hfit : Forall (fun row => List.length row
                                    <= List.length (columnWidths (List.length (presentColumns g))
                                                                 (presentTable g f)))
                        (presentTable g f)).
  { apply Forall_forall. intros row Hr. rewrite columnWidths_length, (Hrect row Hr). apply le_n. }
  split; [ now apply formatRows_ok | ].
  intros Hlim. split.
  - rewrite (formatRows_text _ (presentTable g f)); [ reflexivity | | exact Hfit ].
    now apply columnWidths_limit.
  - intros row k Hr. apply columns_line_up.
    apply columnWidths_fit; [ exact Hr | now apply Hrect ].
Qed.

Lemma X22_witness :
  exists timeFormatFunc : float64 -> string,
    WithBenchcmp.TimeFormatFunc earlierOne = Ok timeFormatFunc /\
    let cells := presentTable earlierOne timeFormatFunc in
    let widths := columnWidths (List.length (presentColumns earlierOne)) cells in
    (exists text, WithBenchcmp.BenchOutputGroup.String earlierOne = Ok text) /\
    (cellsBelowLimit cells ->
     WithBenchcmp.BenchOutputGroup.String earlierOne = Ok (renderTable widths cells) /\
     forall (row : list string) (k : nat),
       In row cells ->
       utf8.RuneCountInString (joined (firstn k (renderCells widths row)))
       = columnStart widths k).
Proof.
  apply (X22_earlier_String_renders_the_table earlierOne). discriminate.
Defined.

(** The table of the record parsed from
    [BenchmarkFoo-8<TAB>1000000<TAB>120 ns/op], as the earlier revision
    prints it. *)
Example earlierOne_text :
  WithBenchcmp.BenchOutputGroup.String earlierOne
  = Ok ("benchmark           iter      time/iter" ++ String newline
        ("---------           ----      ---------" ++ String newline
         ("BenchmarkFoo-8   1000000   120.00 ns/op" ++ String newline EmptyString))).
Proof. reflexivity. Qed.

Section EarlierLoop.

Variable ParseFloat : string -> option float64.

Lemma earlier_ParseLine (line : string) :
  WithBenchcmp.ParseLine ParseFloat line = ParseLine ParseFloat line.
Proof. reflexivity. Qed.

Lemma earlier_String_ok (g : WithBenchcmp.BenchOutputGroup) :
  exists table : string,
    WithBenchcmp.BenchOutputGroup.String g = Ok table /\
    (WithBenchcmp.Lines g = [] -> table = EmptyString).
Proof.
  destruct (WithBenchcmp.Lines g) as [ | line0 rest] eqn:El.
  - exists EmptyString. unfold WithBenchcmp.BenchOutputGroup.String. rewrite El. auto.
  - assert (Hne : WithBenchcmp.Lines g <> []) by congruence.
    destruct (TimeFormatFunc_nonempty g Hne) as [f Hf].
    pose proof (presentColumns_length g f) as Hrect.
    rewrite (String_steps g Hne), Hf. cbn [bind].
    rewrite findMaxLengths_value
      by (intros row Hr; rewrite (Hrect row Hr); apply le_n).
    cbn [bind]. rewrite formatTableCells_rows.
    destruct (formatRows_ok (columnWidths (List.length (presentColumns g)) (presentTable g f))
                            (presentTable g f)) with (buf := EmptyString) as [text Ht].
    + apply Forall_forall. intros row Hr.
      rewrite columnWidths_length, (Hrect row Hr). apply le_n.
    + exists text. split; [ exact Ht | discriminate ].
Qed.

End EarlierLoop.

(** X23. At a terminator line the earlier revision prints the table of
    the group: whatever the state, [String] returns a text for the
    group (the empty text for the group without records), and the loop
    of [main] writes that text, then echoes the line unless
    pass-through is suppressed, starts a new empty group and leaves the
    diagnostic stream as it was. *)
Theorem X23_earlier_main_prints_the_table
  (ParseFloat : string -> option float64) (noPassthrough : bool)
  (st : WithBenchcmp.State) (text : string) :
  regexp.MatchString okLineMatcher text = true ->
  exists table : string,
    WithBenchcmp.BenchOutputGroup.String (WithBenchcmp.currentBenchmark st) = Ok table /\
    (WithBenchcmp.Lines (WithBenchcmp.currentBenchmark st) = [] -> table = EmptyString) /\
    WithBenchcmp.step ParseFloat noPassthrough st text
    = WithBenchcmp.mkState WithBenchcmp.emptyGroup
        (WithBenchcmp.stdout st ++ table
         ++ (if noPassthrough then EmptyString else text ++ String newline EmptyString))
        (WithBenchcmp.stderr st).
Proof.
  intros Hok. destruct (earlier_String_ok (WithBenchcmp.currentBenchmark st)) as (table & Ht & He).
  exists table. split; [ exact Ht | ]. split; [ exact He | ].
  unfold WithBenchcmp.step.
  rewrite earlier_ParseLine, (okLine_ParseLine ParseFloat text Hok), Hok, Ht.
  destruct noPassthrough;
    cbn [negb fmt.Print WithBenchcmp.currentBenchmark WithBenchcmp.stdout WithBenchcmp.stderr];
    rewrite ?append_assoc, ?append_empty_r; reflexivity.
Qed.

Lemma X23_witness :
  exists table : string,
    WithBenchcmp.BenchOutputGroup.String earlierOne = Ok table /\
    (WithBenchcmp.Lines earlierOne = [] -> table = EmptyString) /\
    WithBenchcmp.step strconv.ParseFloat false
      (WithBenchcmp.mkState earlierOne EmptyString EmptyString) okLine
    = WithBenchcmp.mkState WithBenchcmp.emptyGroup
        (EmptyString ++ table ++ okLine ++ String newline EmptyString) EmptyString.
Proof.
  apply (X23_earlier_main_prints_the_table strconv.ParseFloat false
           (WithBenchcmp.mkState earlierOne EmptyString EmptyString) okLine).
  reflexivity.
Defined.

Lemma earlier_AddLine (g : WithBenchcmp.BenchOutputGroup) (line : bench.Bench) :
  WithBenchcmp.AddLine g line
  = WithBenchcmp.mkGroup
      (WithBenchcmp.Lines g ++ [line])%list
      (WithBenchcmp.MegaBytesPresent g || Z.testbit (bench.Measured line) 1)
      (WithBenchcmp.BytesAllocPresent g || Z.testbit (bench.Measured line) 2)
      (WithBenchcmp.AllocsPresent g || Z.testbit (bench.Measured line) 3).
Proof.
  unfold WithBenchcmp.AddLine, bench.MBPerS, bench.AllocedBytesPerOp, bench.AllocsPerOp.
  rewrite !land_flag_testbit by lia.
  destruct (Z.testbit (bench.Measured line) 1), (Z.testbit (bench.Measured line) 2),
           (Z.testbit (bench.Measured line) 3);
    cbn [WithBenchcmp.Lines WithBenchcmp.MegaBytesPresent WithBenchcmp.BytesAllocPresent
         WithBenchcmp.AllocsPresent];
    rewrite ?orb_true_r, ?orb_false_r; reflexivity.
Qed.

Lemma earlier_fold_AddLine (records : list bench.Bench) :
  forall g : WithBenchcmp.BenchOutputGroup,
    fold_left WithBenchcmp.AddLine records g
    = WithBenchcmp.mkGroup
        (WithBenchcmp.Lines g ++ records)%list
        (WithBenchcmp.MegaBytesPresent g
         || existsb (fun x => Z.testbit x 1) (map bench.Measured records))
        (WithBenchcmp.BytesAllocPresent g
         || existsb (fun x => Z.testbit x 2) (map bench.Measured records))
        (WithBenchcmp.AllocsPresent g
         || existsb (fun x => Z.testbit x 3) (map bench.Measured records)).
Proof.
  induction records as [ | b records IH]; intros g.
  - cbn. rewrite app_nil_r, !orb_false_r. destruct g; reflexivity.
  - cbn [fold_left map existsb]. rewrite IH, earlier_AddLine.
    cbn [WithBenchcmp.Lines WithBenchcmp.MegaBytesPresent WithBenchcmp.BytesAllocPresent
         WithBenchcmp.AllocsPresent].
    now rewrite <- app_assoc, !orb_assoc.
Qed.

Lemma earlier_TimeFormatFunc_spec (g : WithBenchcmp.BenchOutputGroup)
  (line0 : bench.Bench) (rest : list bench.Bench) :
  WithBenchcmp.Lines g = line0 :: rest ->
  WithBenchcmp.TimeFormatFunc g
  = Ok (earlierFormat (specUnit (smallestTime (bench.NsOp line0) rest))).
Proof.
  intros El. unfold WithBenchcmp.TimeFormatFunc. rewrite El.
  cbn [index nth_error bind List.tl].
  change (fold_left
            (fun smallest line =>
               if flt (bench.NsOp line) smallest then bench.NsOp line else smallest)
            rest (bench.NsOp line0))
    with (smallestTime (bench.NsOp line0) rest).
  rewrite (cascade_specUnit _ (smallestTime (bench.NsOp line0) rest)).
  destruct (specUnit (smallestTime (bench.NsOp line0) rest)); reflexivity.
Qed.

(** X24. The two revisions build the same table but for its second row
    and for the micro sign.  From the same records, the three booleans
    of the earlier group are bits 1, 2 and 3 of [Measured] of today's
    group; when there is a record, both revisions choose the unit of
    the same smallest time, today's [tabulate] returns the header, the
    runs of dashes with as many empty cells as there are columns before
    them, and a row for each record with its time in today's format,
    and the earlier [String] formats the header, the runs of dashes and
    a row for each record that is today's row with the time in the
    earlier format.  The two formats are the same in every unit but
    microseconds; there they write the same digits, followed by
    [ μs/op] with a micro sign of two bytes today and of four bytes in
    the earlier revision. *)
Theorem X24_revisions_differ_in_second_row_and_micro_sign (records : list bench.Bench) :
  let earlier := fold_left WithBenchcmp.AddLine records WithBenchcmp.emptyGroup in
  let g := fold_left AddLine records emptyGroup in
  WithBenchcmp.Lines earlier = Lines g /\
  WithBenchcmp.MegaBytesPresent earlier = Z.testbit (Measured g) 1 /\
  WithBenchcmp.BytesAllocPresent earlier = Z.testbit (Measured g) 2 /\
  WithBenchcmp.AllocsPresent earlier = Z.testbit (Measured g) 3 /\
  (records <> [] ->
   exists smallest : float64,
     smallestOf g = Some smallest /\
     TimeFormatFunc g = Ok (specFormat (specUnit smallest)) /\
     WithBenchcmp.TimeFormatFunc earlier = Ok (earlierFormat (specUnit smallest)) /\
     tabulate g (columnNames g)
     = Ok (mkTable []
             (presentColumns earlier
              :: (make (List.length (presentColumns earlier))
                  ++ dashes (presentColumns earlier))%list
              :: map (presentRow earlier (specFormat (specUnit smallest)))
                     (WithBenchcmp.Lines earlier))) /\
     WithBenchcmp.BenchOutputGroup.String earlier
     = (widths <- findMaxLengths (presentColumns earlier)
                    (presentTable earlier (earlierFormat (specUnit smallest))) ;;
        formatTableCells (presentTable earlier (earlierFormat (specUnit smallest))) widths) /\
     presentTable earlier (earlierFormat (specUnit smallest))
     = presentColumns earlier
       :: dashes (presentColumns earlier)
       :: map (fun line =>
                 replaceNth (presentRow earlier (specFormat (specUnit smallest)) line) 2
                            (earlierFormat (specUnit smallest) (bench.NsOp line)))
              (WithBenchcmp.Lines earlier)) /\
  (forall u : TimeUnit, u <> Microseconds -> earlierFormat u = specFormat u) /\
  (forall ns : float64,
      exists digits : string,
        specFormat Microseconds ns = digits ++ " μs/op" /\
        earlierFormat Microseconds ns = digits ++ " Î¼s/op" /\
        String.length (earlierFormat Microseconds ns)
        = 2 + String.length (specFormat Microseconds ns)).
Proof.
  cbn zeta. rewrite earlier_fold_AddLine, fold_AddLine.
  cbn [WithBenchcmp.emptyGroup emptyGroup WithBenchcmp.Lines Lines app
       WithBenchcmp.MegaBytesPresent WithBenchcmp.BytesAllocPresent
       WithBenchcmp.AllocsPresent Measured orb].
  set (g := mkGroup records (fold_left Z.lor (map bench.Measured records) 0%Z)).
  assert (Hbit : forall n : Z,
             existsb (fun x => Z.testbit x n) (map bench.Measured records)
             = Z.testbit (Measured g) n).
  { intros n. unfold g. cbn [Measured].
    now rewrite testbit_fold_lor, Z.bits_0, orb_false_l. }
  rewrite !Hbit.
  set (earlier := WithBenchcmp.mkGroup records (Z.testbit (Measured g) 1)
                    (Z.testbit (Measured g) 2) (Z.testbit (Measured g) 3)).
  assert (Hcols : presentColumns earlier = columnNames g).
  { rewrite columnNames_flags. reflexivity. }
  split; [ reflexivity | ]. split; [ reflexivity | ]. split; [ reflexivity | ].
  split; [ reflexivity | ]. split; [ | split ].
  - intros Hne. destruct (smallestOf_nonempty g Hne) as [smallest Hs].
    pose proof (TimeFormatFunc_spec g smallest Hs) as Hf.
    exists smallest. split; [ exact Hs | ]. split; [ exact Hf | ].
    assert (He : WithBenchcmp.TimeFormatFunc earlier = Ok (earlierFormat (specUnit smallest))).
    { unfold smallestOf in Hs. cbn [Lines g] in Hs.
      destruct records as [ | line0 rest]; [ discriminate Hs | ].
      injection Hs as <-. now apply earlier_TimeFormatFunc_spec. }
    split; [ exact He | ]. split; [ | split ].
    + rewrite (tabulate_cells g _ _ Hf), Hcols. do 3 f_equal.
      f_equal. apply map_ext. intros line. rewrite tabulateRow_flags. reflexivity.
    + rewrite (String_steps earlier Hne), He. reflexivity.
    + reflexivity.
  - intros u Hu. destruct u; try reflexivity. congruence.
  - intros ns. exists (strconv.FormatFloat_f (fdiv ns (float64_of_Z 1000)) 2).
    split; [ reflexivity | ]. split; [ reflexivity | ].
    unfold earlierFormat, specFormat. rewrite !length_append. cbn. lia.
Qed.

(** X24 on the one record [BenchmarkC] of 120 μs. *)
Lemma X24_witness :
  (exists smallest : float64,
     smallestOf groupSlow = Some smallest /\
     TimeFormatFunc groupSlow = Ok (specFormat (specUnit smallest)) /\
     WithBenchcmp.TimeFormatFunc
       (WithBenchcmp.AddLine WithBenchcmp.emptyGroup (timed "BenchmarkC" 10000 120000))
     = Ok (earlierFormat (specUnit smallest))) /\
  specFormat Microseconds (float64_of_Z 120000) = "120.00 μs/op" /\
  earlierFormat Microseconds (float64_of_Z 120000) = "120.00 Î¼s/op".
Proof.
  destruct (X24_revisions_differ_in_second_row_and_micro_sign [timed "BenchmarkC" 10000 120000])
    as (_ & _ & _ & _ & H & _).
  split; [ | split; reflexivity ].
  destruct H as (smallest & Hs & Hf & He & _); [ discriminate | ].
  exists smallest. split; [ exact Hs | ]. split; [ exact Hf | exact He ].
Defined.

(** ** The revision with a parser of its own *)

Section OwnFields.

Variable ParseFloat : string -> option float64.

Lemma parseField_reads (output : OwnParser.BenchOutput) (field : string) :
  match OwnParser.parseField ParseFloat output field with
  | inl output' =>
    fieldReads ParseFloat field = true /\
    OwnParser.Name output' = OwnParser.Name output /\
    OwnParser.Iterations output' = OwnParser.Iterations output
  | inr e => e = OwnParser.benchLineParseErr /\ fieldReads ParseFloat field = false
  end.
Proof.
  unfold OwnParser.parseField, fieldReads.
  destruct (strings.Split (strings.TrimSpace field) " ") as [ | quant [ | unit [ | x parts]]];
    cbn [List.length Nat.eqb negb nth]; try (split; reflexivity).
  destruct (String.eqb unit "MB/s").
  { destruct (ParseFloat quant); repeat split. }
  destruct (strconv.Atoi quant); [ | split; reflexivity ].
  destruct (String.eqb unit "ns/op"); [ repeat split | ].
  destruct (String.eqb unit "B/op"); [ repeat split | ].
  destruct (String.eqb unit "allocs/op"); repeat split.
Qed.

Lemma parseFields_reads (fields : list string) :
  forall output : OwnParser.BenchOutput,
    match OwnParser.parseFields ParseFloat output fields with
    | inl output' =>
      forallb (fieldReads ParseFloat) fields = true /\
      OwnParser.Name output' = OwnParser.Name output /\
      OwnParser.Iterations output' = OwnParser.Iterations output
    | inr e =>
      e = OwnParser.benchLineParseErr /\ forallb (fieldReads ParseFloat) fields = false
    end.
Proof.
  induction fields as [ | field fields IH]; intros output; cbn [OwnParser.parseFields forallb].
  - repeat split.
  - pose proof (parseField_reads output field) as Hf.
    destruct (OwnParser.parseField ParseFloat output field) as [output' | e].
    + destruct Hf as (-> & Hn & Hi). cbn [andb].
      specialize (IH output').
      destruct (OwnParser.parseFields ParseFloat output' fields) as [output'' | e].
      * destruct IH as (-> & Hn' & Hi'). repeat split; congruence.
      * exact IH.
    + destruct Hf as (-> & ->). split; reflexivity.
Qed.

End OwnFields.

(** X25. [ParseLine] of the revision with a parser of its own is
    strict about the measurements and lenient about the count.  It
    returns [notBenchLineErr] exactly when the line fails the
    pre-filter, or splits into fewer than three tab-separated fields,
    or has a second such field that is no integer; past these checks it
    returns a record exactly when every field from the third on reads
    as a measurement (a quantity and a unit around one space, a unit
    among the four, a quantity that parses), and [benchLineParseErr]
    as soon as one does not: an unknown unit or an unparsable quantity
    fails the parse. *)
Theorem X25_own_parser_is_strict (ParseFloat : string -> option float64) (line : string) :
  let fields := strings.Split line tab in
  match OwnParser.ParseLine ParseFloat line with
  | inr OwnParser.notBenchLineErr =>
    regexp.MatchString benchLineMatcher line = false \/
    List.length fields < 3 \/
    strconv.Atoi (strings.TrimSpace (nth 1 fields EmptyString)) = None
  | inr OwnParser.benchLineParseErr =>
    regexp.MatchString benchLineMatcher line = true /\
    3 <= List.length fields /\
    (exists n, strconv.Atoi (strings.TrimSpace (nth 1 fields EmptyString)) = Some n) /\
    forallb (fieldReads ParseFloat) (skipn 2 fields) = false
  | inl output =>
    regexp.MatchString benchLineMatcher line = true /\
    3 <= List.length fields /\
    strconv.Atoi (strings.TrimSpace (nth 1 fields EmptyString))
    = Some (OwnParser.Iterations output) /\
    OwnParser.Name output = strings.TrimSpace (nth 0 fields EmptyString) /\
    forallb (fieldReads ParseFloat) (skipn 2 fields) = true
  end.
Proof.
  cbn zeta. unfold OwnParser.ParseLine.
  destruct (regexp.MatchString benchLineMatcher line); cbn [negb]; [ | now left ].
  destruct (Nat.ltb_spec (List.length (strings.Split line tab)) 3); [ right; now left | ].
  destruct (strconv.Atoi (strings.TrimSpace (nth 1 (strings.Split line tab) EmptyString)))
    as [n | ] eqn:Hn; [ | right; now right ].
  cbn [OwnParser.Name OwnParser.TimePerIteration OwnParser.BytesPerSecond
       OwnParser.BytesAllocPerOp OwnParser.AllocsPerOp].
  match goal with
  | |- context [OwnParser.parseFields ParseFloat ?o ?fs] =>
    pose proof (parseFields_reads ParseFloat fs o) as Hp;
      destruct (OwnParser.parseFields ParseFloat o fs) as [output | e]
  end.
  - destruct Hp as (Hall & Hname & Hiter). cbn [OwnParser.Name OwnParser.Iterations] in *.
    repeat split; try assumption; congruence.
  - destruct Hp as (-> & Hall). repeat split; try assumption. now exists n.
Qed.

(** X25 on [BenchmarkFoo<TAB>10<TAB>5 widgets/op]. *)
Lemma X25_witness :
  regexp.MatchString benchLineMatcher lineWidgets = true /\
  3 <= List.length (strings.Split lineWidgets tab) /\
  (exists n, strconv.Atoi (strings.TrimSpace (nth 1 (strings.Split lineWidgets tab) EmptyString))
             = Some n) /\
  forallb (fieldReads strconv.ParseFloat) (skipn 2 (strings.Split lineWidgets tab)) = false.
Proof.
  pose proof (X25_own_parser_is_strict strconv.ParseFloat lineWidgets) as H.
  cbn zeta in H.
  change (OwnParser.ParseLine strconv.ParseFloat lineWidgets)
    with (@inr OwnParser.BenchOutput _ OwnParser.benchLineParseErr) in H.
  exact H.
Defined.

(** What X25 says of four lines: a line of [go test] with its four
    measurements is a record; an unknown unit, a quantity that does not
    parse and a time with a fraction are parse errors; a count that is
    no integer makes a line that is not a benchmark line. *)
Example own_parser_lines :
  OwnParser.ParseLine strconv.ParseFloat lineFull
  = inl (OwnParser.mkOutput "BenchmarkFoo-8" 1000000 1234
           (Some (float64_of_Z 12500000)) (Some 16%Z) (Some 1%Z)) /\
  OwnParser.ParseLine strconv.ParseFloat lineWidgets = inr OwnParser.benchLineParseErr /\
  OwnParser.ParseLine strconv.ParseFloat lineBadQuantity = inr OwnParser.benchLineParseErr /\
  OwnParser.ParseLine strconv.ParseFloat lineFraction = inr OwnParser.benchLineParseErr /\
  OwnParser.ParseLine strconv.ParseFloat lineBadCount = inr OwnParser.notBenchLineErr.
Proof. repeat split; vm_compute; reflexivity. Qed.

Lemma leastDuration_loop (rest : list OwnParser.BenchOutput) :
  forall first : Z,
    fold_left
      (fun smallest line =>
         if (OwnParser.TimePerIteration line <? smallest)%Z
         then OwnParser.TimePerIteration line else smallest)
      rest first
    = leastDuration first rest.
Proof.
  unfold leastDuration. induction rest as [ | line rest IH]; intros first; [ reflexivity | ].
  cbn [fold_left map]. rewrite IH. f_equal.
  destruct (Z.ltb_spec (OwnParser.TimePerIteration line) first); lia.
Qed.

Lemma leastDuration_least (rest : list OwnParser.BenchOutput) :
  forall first : Z,
    (leastDuration first rest <= first)%Z /\
    (forall line, In line rest ->
                  (leastDuration first rest <= OwnParser.TimePerIteration line)%Z) /\
    (leastDuration first rest = first \/
     In (leastDuration first rest) (map OwnParser.TimePerIteration rest)).
Proof.
  unfold leastDuration. induction rest as [ | line rest IH]; intros first; cbn [fold_left map].
  - split; [ lia | ]. split; [ intros line [] | now left ].
  - destruct (IH (Z.min first (OwnParser.TimePerIteration line))) as (Hle & Hall & Hin).
    split; [ lia | ]. split.
    + intros l [<- | Hl]; [ lia | now apply Hall ].
    + destruct Hin as [Hin | Hin]; [ | right; now right ].
      rewrite Hin. destruct (Z.min_spec first (OwnParser.TimePerIteration line)) as [[_ ->] | [_ ->]];
        [ now left | right; now left ].
Qed.

(** X26. The revision with a parser of its own chooses the unit on
    whole nanoseconds: [TimeFormatFunc] panics on a group without
    records (index 0, length 0); on any other group it finds the least
    of the times, which is the time of a record, and returns for it
    nanoseconds below 10,000 (written as a whole number, with no
    decimal places), microseconds below 1,000,000, milliseconds below
    10,000,000,000 and seconds from there on (two decimal places
    each). *)
Theorem X26_own_time_unit_by_thresholds (g : OwnParser.BenchOutputGroup) :
  match OwnParser.Lines g with
  | [] => OwnParser.TimeFormatFunc g = Panic (IndexOutOfRange 0 0)
  | line0 :: rest =>
    let smallest := leastDuration (OwnParser.TimePerIteration line0) rest in
    OwnParser.TimeFormatFunc g = Ok (durationFormat (durationUnit smallest)) /\
    In smallest (map OwnParser.TimePerIteration (OwnParser.Lines g)) /\
    forall line, In line (OwnParser.Lines g) ->
                 (smallest <= OwnParser.TimePerIteration line)%Z
  end.
Proof.
  destruct (OwnParser.Lines g) as [ | line0 rest] eqn:El.
  - unfold OwnParser.TimeFormatFunc. rewrite El. reflexivity.
  - cbn zeta. destruct (leastDuration_least rest (OwnParser.TimePerIteration line0))
      as (Hle & Hall & Hin).
    split; [ | split ].
    + unfold OwnParser.TimeFormatFunc. rewrite El. cbn [index nth_error bind List.tl].
      rewrite leastDuration_loop. unfold durationUnit.
      change (10000 * time.Nanosecond)%Z with 10000%Z.
      change time.Millisecond with 1000000%Z.
      change (10 * time.Second)%Z with 10000000000%Z.
      destruct (leastDuration (OwnParser.TimePerIteration line0) rest <? 10000)%Z;
        [ reflexivity | ].
      destruct (leastDuration (OwnParser.TimePerIteration line0) rest <? 1000000)%Z;
        [ reflexivity | ].
      destruct (leastDuration (OwnParser.TimePerIteration line0) rest <? 10000000000)%Z;
        reflexivity.
    + cbn [map]. destruct Hin as [-> | Hin]; [ now left | now right ].
    + intros line [<- | Hl]; [ exact Hle | now apply Hall ].
Qed.

(** X26 on the group of one record of 120 ns. *)
Lemma X26_witness :
  OwnParser.TimeFormatFunc ownOne = Ok (durationFormat Nanoseconds) /\
  In 120%Z (map OwnParser.TimePerIteration (OwnParser.Lines ownOne)) /\
  forall line, In line (OwnParser.Lines ownOne) ->
               (120 <= OwnParser.TimePerIteration line)%Z.
Proof. exact (X26_own_time_unit_by_thresholds ownOne). Defined.

(** The units of three times: 25 ms, 120 ns and 25 s. *)
Example own_units :
  durationFormat (durationUnit 25000000) 25000000 = "25.00 ms/op" /\
  durationFormat (durationUnit 120) 120 = "120 ns/op" /\
  durationFormat (durationUnit 25000000000) 25000000000 = "25.00 s/op".
Proof. repeat split. Qed.

Lemma own_columns_length (g : OwnParser.BenchOutputGroup) (f : Z -> string) :
  rectangular (List.length (ownColumns g)) (ownTable g f).
Proof.
  intros row [<- | [<- | Hr]].
  - reflexivity.
  - unfold dashes. apply length_map.
  - apply in_map_iff in Hr. destruct Hr as (line & <- & _).
    unfold ownRow, ownColumns.
    destruct (OwnParser.BytesPresent g), (OwnParser.BytesAllocPresent g),
             (OwnParser.AllocsPresent g); reflexivity.
Qed.

Lemma own_String_steps (g : OwnParser.BenchOutputGroup) :
  OwnParser.Lines g <> [] ->
  OwnParser.BenchOutputGroup.String g
  = (timeFormatFunc <- OwnParser.TimeFormatFunc g ;;
     widths <- findMaxLengths (ownColumns g) (ownTable g timeFormatFunc) ;;
     formatTableCells (ownTable g timeFormatFunc) widths).
Proof.
  intros Hne. unfold OwnParser.BenchOutputGroup.String.
  destruct (OwnParser.Lines g) as [ | line0 rest] eqn:El; [ congruence | ].
  cbn [List.length Nat.eqb]. cbv zeta. cbn [MaxLengths Cells].
  destruct (OwnParser.TimeFormatFunc g) as [f | e]; [ | reflexivity ].
  cbn [bind]. unfold ownTable, ownColumns, ownRow, dashes, findMaxLengths.
  rewrite El.
  assert (Hrows : forall (row : OwnParser.BenchOutput -> list string)
                         (l : list OwnParser.BenchOutput) (t : Table),
             fold_left (fun table line =>
                          mkTable (MaxLengths table) (Cells table ++ [row line])%list) l t
             = mkTable (MaxLengths t) (Cells t ++ map row l)%list).
  { intros row l. induction l as [ | a l IH]; intros t; cbn [fold_left map].
    - rewrite app_nil_r. destruct t; reflexivity.
    - rewrite IH. cbn [MaxLengths Cells]. now rewrite <- app_assoc. }
  destruct (OwnParser.BytesPresent g), (OwnParser.BytesAllocPresent g),
           (OwnParser.AllocsPresent g);
    cbn [optionalCell app];
    rewrite Hrows, (fold_left_snoc _ _ (fun name => strings.Repeat "-" (String.length name)));
    cbn [app MaxLengths Cells];
    rewrite maxLengths_in_table;
    (destruct (foldM _ (seq 0 _) []) as [widths | e]; [ | reflexivity ]);
    reflexivity.
Qed.

(** X27. The [String] method of the revision with a parser of its own
    renders every group: it never panics, and when no cell is longer
    than a million bytes its text is the table of the group (the
    header, one run of dashes per column as long as the name of the
    column, then the records in order, a blank cell where a record
    lacks a measurement of the group), each column as wide as its
    longest cell, with every column starting at the same rune of every
    row. *)
Theorem X27_own_String_renders_the_table (g : OwnParser.BenchOutputGroup) :
  OwnParser.Lines g <> [] ->
  exists timeFormatFunc : Z -> string,
    OwnParser.TimeFormatFunc g = Ok timeFormatFunc /\
    let cells := ownTable g timeFormatFunc in
    let widths := columnWidths (List.length (ownColumns g)) cells in
    (exists text, OwnParser.BenchOutputGroup.String g = Ok text) /\
    (cellsBelowLimit cells ->
     OwnParser.BenchOutputGroup.String g = Ok (renderTable widths cells) /\
     forall (row : list string) (k : nat),
       In row cells ->
       utf8.RuneCountInString (joined (firstn k (renderCells widths row)))
       = columnStart widths k).
Proof.
  intros Hne.
  assert (Hf : exists f, OwnParser.TimeFormatFunc g = Ok f).
  { unfold OwnParser.TimeFormatFunc.
    destruct (OwnParser.Lines g) as [ | line0 rest]; [ congruence | ].
    cbn [index nth_error bind List.tl].
    repeat match goal with
           | |- context [if ?b then _ else _] => destruct b
           end; eexists; reflexivity. }
  destruct Hf as [f Hf]. exists f. split; [ exact Hf | ]. cbn zeta.
  pose proof (own_columns_length g f) as Hrect.
  rewrite (own_String_steps g Hne), Hf. cbn [bind].
  rewrite findMaxLengths_value
    by (intros row Hr; rewrite (Hrect row Hr); apply le_n).
  cbn [bind]. rewrite formatTableCells_rows.
  assert (Hfit : Forall (fun row => List.length row
                                    <= List.length (columnWidths (List.length (ownColumns g))
                                                                 (ownTable g f)))
                        (ownTable g f)).
  { apply Forall_forall. intros row Hr. rewrite columnWidths_length, (Hrect row Hr). apply le_n. }
  split; [ now apply formatRows_ok | ].
  intros Hlim. split.
  - rewrite (formatRows_text _ (ownTable g f)); [ reflexivity | | exact Hfit ].
    now apply columnWidths_limit.
  - intros row k Hr. apply columns_line_up.
    apply columnWidths_fit; [ exact Hr | now apply Hrect ].
Qed.

Lemma X27_witness :
  exists timeFormatFunc : Z -> string,
    OwnParser.TimeFormatFunc ownOne = Ok timeFormatFunc /\
    let cells := ownTable ownOne timeFormatFunc in
    let widths := columnWidths (List.length (ownColumns ownOne)) cells in
    (exists text, OwnParser.BenchOutputGroup.String ownOne = Ok text) /\
    (cellsBelowLimit cells ->
     OwnParser.BenchOutputGroup.String ownOne = Ok (renderTable widths cells) /\
     forall (row : list string) (k : nat),
       In row cells ->
       utf8.RuneCountInString (joined (firstn k (renderCells widths row)))
       = columnStart widths k).
Proof.
  apply (X27_own_String_renders_the_table ownOne). discriminate.
Defined.

(** The table of the record parsed from
    [BenchmarkFoo-8<TAB>1000000<TAB>120 ns/op], as this revision prints
    it. *)
Example ownOne_text :
  OwnParser.ParseLine strconv.ParseFloat lineFoo
  = inl (OwnParser.mkOutput "BenchmarkFoo-8" 1000000 120 None None None) /\
  OwnParser.BenchOutputGroup.String ownOne
  = Ok ("benchmark           iter   time/iter" ++ String newline
        ("---------           ----   ---------" ++ String newline
         ("BenchmarkFoo-8   1000000   120 ns/op" ++ String newline EmptyString))).
Proof. split; reflexivity. Qed.

Lemma own_AddLine (g : OwnParser.BenchOutputGroup) (line : OwnParser.BenchOutput) :
  OwnParser.AddLine g line
  = OwnParser.mkGroup
      (OwnParser.Lines g ++ [line])%list
      (OwnParser.BytesPresent g || isSome (OwnParser.BytesPerSecond line))
      (OwnParser.BytesAllocPresent g || isSome (OwnParser.BytesAllocPerOp line))
      (OwnParser.AllocsPresent g || isSome (OwnParser.AllocsPerOp line)).
Proof.
  unfold OwnParser.AddLine.
  destruct (OwnParser.BytesPerSecond line), (OwnParser.BytesAllocPerOp line),
           (OwnParser.AllocsPerOp line);
    cbn [isSome OwnParser.Lines OwnParser.BytesPresent OwnParser.BytesAllocPresent
         OwnParser.AllocsPresent];
    rewrite ?orb_true_r, ?orb_false_r; reflexivity.
Qed.

(** X28. In the revision with a parser of its own a column is in use
    exactly when some record of the group has the measurement: after
    the records of any list are added to the empty group, in order,
    [Lines] is that list, each of the three booleans is true exactly
    when some record holds a value behind the pointer of its
    measurement, and adding a record never turns a boolean off. *)
Theorem X28_own_columns_in_use (records : list OwnParser.BenchOutput) :
  let g := fold_left OwnParser.AddLine records OwnParser.emptyGroup in
  OwnParser.Lines g = records /\
  (OwnParser.BytesPresent g = true <->
   exists line, In line records /\ OwnParser.BytesPerSecond line <> None) /\
  (OwnParser.BytesAllocPresent g = true <->
   exists line, In line records /\ OwnParser.BytesAllocPerOp line <> None) /\
  (OwnParser.AllocsPresent g = true <->
   exists line, In line records /\ OwnParser.AllocsPerOp line <> None) /\
  forall line : OwnParser.BenchOutput,
    (OwnParser.BytesPresent g = true -> OwnParser.BytesPresent (OwnParser.AddLine g line) = true) /\
    (OwnParser.BytesAllocPresent g = true ->
     OwnParser.BytesAllocPresent (OwnParser.AddLine g line) = true) /\
    (OwnParser.AllocsPresent g = true ->
     OwnParser.AllocsPresent (OwnParser.AddLine g line) = true).
Proof.
  cbn zeta.
  assert (Hfold : forall g0 : OwnParser.BenchOutputGroup,
             fold_left OwnParser.AddLine records g0
             = OwnParser.mkGroup
                 (OwnParser.Lines g0 ++ records)%list
                 (OwnParser.BytesPresent g0
                  || existsb (fun l => isSome (OwnParser.BytesPerSecond l)) records)
                 (OwnParser.BytesAllocPresent g0
                  || existsb (fun l => isSome (OwnParser.BytesAllocPerOp l)) records)
                 (OwnParser.AllocsPresent g0
                  || existsb (fun l => isSome (OwnParser.AllocsPerOp l)) records)).
  { induction records as [ | b records IH]; intros g0.
    - cbn. rewrite app_nil_r, !orb_false_r. destruct g0; reflexivity.
    - cbn [fold_left existsb]. rewrite IH, own_AddLine.
      cbn [OwnParser.Lines OwnParser.BytesPresent OwnParser.BytesAllocPresent
           OwnParser.AllocsPresent].
      now rewrite <- app_assoc, !orb_assoc. }
  rewrite Hfold.
  cbn [OwnParser.emptyGroup OwnParser.Lines OwnParser.BytesPresent
       OwnParser.BytesAllocPresent OwnParser.AllocsPresent app orb].
  assert (Hsome : forall (A : Type) (field : OwnParser.BenchOutput -> option A),
             existsb (fun l => isSome (field l)) records = true <->
             exists line, In line records /\ field line <> None).
  { intros A field. rewrite existsb_exists. split; intros (line & Hin & H); exists line;
      (split; [ exact Hin | ]); destruct (field line); try discriminate; try reflexivity.
    congruence. }
  split; [ reflexivity | ].
  split; [ apply Hsome | ]. split; [ apply Hsome | ]. split; [ apply Hsome | ].
  intros line. rewrite own_AddLine.
  cbn [OwnParser.BytesPresent OwnParser.BytesAllocPresent OwnParser.AllocsPresent].
  repeat split; intros ->; reflexivity.
Qed.

(** X29. What the loop of [main] does, in the revision with a parser
    of its own, with a line that passes the pre-filter and splits into
    three tab-separated fields at least.  When the second field is no
    integer the line is passed through: echoed unless pass-through is
    suppressed, with no notice.  Otherwise, when every field from the
    third on reads as a measurement, the line adds a record and
    nothing is written; and when one does not, the line is reported:
    one notice on the diagnostic stream, the line echoed, no record
    added. *)
Theorem X29_own_main_reports_what_does_not_read
  (ParseFloat : string -> option float64) (noPassthrough : bool)
  (st : OwnParser.State) (line : string) :
  regexp.MatchString benchLineMatcher line = true ->
  3 <= List.length (strings.Split line tab) ->
  let fields := strings.Split line tab in
  (strconv.Atoi (strings.TrimSpace (nth 1 fields EmptyString)) = None ->
   OwnParser.step ParseFloat noPassthrough st line
   = OwnParser.mkState (OwnParser.currentBenchmark st)
       (OwnParser.stdout st
        ++ (if noPassthrough then EmptyString else line ++ String newline EmptyString))
       (OwnParser.stderr st)) /\
  (forall n : Z,
      strconv.Atoi (strings.TrimSpace (nth 1 fields EmptyString)) = Some n ->
      (forallb (fieldReads ParseFloat) (skipn 2 fields) = true ->
       exists output : OwnParser.BenchOutput,
         OwnParser.ParseLine ParseFloat line = inl output /\
         OwnParser.Iterations output = n /\
         OwnParser.step ParseFloat noPassthrough st line
         = OwnParser.mkState (OwnParser.AddLine (OwnParser.currentBenchmark st) output)
             (OwnParser.stdout st) (OwnParser.stderr st)) /\
      (forallb (fieldReads ParseFloat) (skipn 2 fields) = false ->
       OwnParser.step ParseFloat noPassthrough st line
       = OwnParser.mkState (OwnParser.currentBenchmark st)
           (OwnParser.stdout st ++ line ++ String newline EmptyString)
           (OwnParser.stderr st ++ "prettybench unrecognized line:"
                                ++ String newline EmptyString))).
Proof.
  intros Hm Hs. cbn zeta.
  pose proof (Hshape := fun o =>
                parseFields_reads ParseFloat (skipn 2 (strings.Split line tab)) o).
  assert (Hparse : OwnParser.ParseLine ParseFloat line
                   = match strconv.Atoi (strings.TrimSpace
                                           (nth 1 (strings.Split line tab) EmptyString)) with
                     | None => inr OwnParser.notBenchLineErr
                     | Some n =>
                       OwnParser.parseFields ParseFloat
                         (OwnParser.mkOutput
                            (strings.TrimSpace (nth 0 (strings.Split line tab) EmptyString))
                            n 0 None None None)
                         (skipn 2 (strings.Split line tab))
                     end).
  { unfold OwnParser.ParseLine. rewrite Hm. cbn [negb].
    destruct (Nat.ltb_spec (List.length (strings.Split line tab)) 3); [ lia | ].
    reflexivity. }
  split.
  - intros Hn. unfold OwnParser.step. rewrite Hparse, Hn.
    rewrite (benchLine_not_okLine line Hm).
    destruct noPassthrough;
      cbn [negb OwnParser.currentBenchmark OwnParser.stdout OwnParser.stderr].
    + rewrite append_empty_r. destruct st; reflexivity.
    + reflexivity.
  - intros n Hn. rewrite Hn in Hparse.
    specialize (Hshape (OwnParser.mkOutput
                             (strings.TrimSpace (nth 0 (strings.Split line tab) EmptyString))
                             n 0 None None None)).
    split.
    + intros Hall. unfold OwnParser.step. rewrite Hparse.
      destruct (OwnParser.parseFields ParseFloat _ (skipn 2 (strings.Split line tab)))
        as [output | e].
      * exists output. destruct Hshape as (_ & _ & Hi). repeat split. exact Hi.
      * destruct Hshape as (_ & Hf). rewrite Hf in Hall. discriminate Hall.
    + intros Hall. unfold OwnParser.step. rewrite Hparse.
      destruct (OwnParser.parseFields ParseFloat _ (skipn 2 (strings.Split line tab)))
        as [output | e].
      * destruct Hshape as (Hf & _). rewrite Hf in Hall. discriminate Hall.
      * destruct Hshape as (-> & _). reflexivity.
Qed.

(** X29 on [BenchmarkFoo<TAB>10<TAB>5 widgets/op]: reported. *)
Lemma X29_witness :
  OwnParser.step strconv.ParseFloat false
    (OwnParser.mkState OwnParser.emptyGroup EmptyString EmptyString) lineWidgets
  = OwnParser.mkState OwnParser.emptyGroup
      (EmptyString ++ lineWidgets ++ String newline EmptyString)
      (EmptyString ++ "prettybench unrecognized line:" ++ String newline EmptyString).
Proof.
  assert (Hm : regexp.MatchString benchLineMatcher lineWidgets = true) by reflexivity.
  assert (Hs : 3 <= List.length (strings.Split lineWidgets tab)) by (vm_compute; apply le_n).
  destruct (X29_own_main_reports_what_does_not_read strconv.ParseFloat false
              (OwnParser.mkState OwnParser.emptyGroup EmptyString EmptyString)
              lineWidgets Hm Hs) as [_ H].
  destruct (H 10%Z eq_refl) as [_ Hbad]. apply Hbad. reflexivity.
Defined.
